(* ===== verification/_CoqProject ===== *)
-Q . S2P
Prelude.v
Double.v
Matrix.v
View.v
Sphere.v
Wall.v
GridMap.v
Enemy.v
Light.v
Frame.v
Input.v
Game.v
Scene.v
