(* ===== verification/Prelude.v ===== *)
(** * A verified model of the maze shooter of src/source/virtualLego.cpp

    ** The program

    [virtualLego.cpp] is a Direct3D 9 first-person maze shooter.  The
    player walks through a 30 x 30 grid of walls, shoots at turrets that
    shoot back, and wins by reaching the flag tile.  Everything else in
    the file is rendering and window plumbing.  The parts are:
    - [CSphere] (lines 77-169): a ball (the player's bullet, the aim
      marker, each enemy's bullet) with centre, radius and velocity,
      moved by explicit Euler steps ([ballUpdate]), and the local
      transform and mesh with which it is drawn;
    - [CWall] (lines 175-265): an axis-aligned box and [hasIntersected],
      the six-inequality box/ball test behind every collision, with its
      local transform and mesh;
    - [CLight] (lines 271-346): the point light, with a slot index drawn
      from a [static DWORD] counter, handed to the device by
      [setLight];
    - the grid (lines 439-519): the literal [map]; [make_map] and
      [locate_enemy] turn it into the wall array, the flag, the enemies
      and the spawn; [goable] and [win] read four corner probes of the
      player's footprint;
    - [CEnemy] (lines 352-433): a turret with a body box, a head box, a
      bullet, [life], [alive] and [shoot].  [Update] tests its bullet
      against the walls and the player, takes the player's life (and
      calls [exit(0)] at zero), and reloads toward the player.
      [hasHit] and [hit] apply the player's bullet;
    - [Setup] (538-594), which builds the level, the balls and the
      light, aims the camera and sets the projection, and [Cleanup]
      (596-603), which releases meshes;
    - [Display] (605-714), called once per frame by the host loop: a
      frame-rate gate while [FPS == 0], then in order the bullet's
      floor, ceiling and wall tests, each live enemy's [Update] and
      [hasHit], the aim marker, parking and moving the bullet, [win],
      movement from the keyboard and moving the camera to the player;
      every frame ends by re-aiming the camera ([D3DXMatrixLookAtLH]);
    - [d3d::WndProc] (716-784): on [WM_MOUSEMOVE] it turns the aim and,
      with the left button held, fires the bullet when it is not in
      flight; Escape closes the window, Return toggles the wireframe,
      [WM_DESTROY] posts the quit message;
    - [WinMain] (786-805): [Setup], the message loop of d3dUtility.cpp
      (which calls [WndProc] for each message and [Display] when the
      queue is empty), then [Cleanup].
    These parts share the globals [pos_x], [pos_z], [target_*],
    [my_life], [my_shoot], [my_bullet], [g_enemy], [g_legowalls], [FPS]
    and the camera's [pos], [target], [g_mView] and [g_mProj].  The model passes them explicitly: [Frame.World] holds what
    changes, and [Frame.Level] holds what [Setup] builds once.

    ** Files and how they model the code

    - [Prelude] (this file): the outcome type [res].  A step returns
      [Ok] with the new state or [Halt] with [Win] or [Lose] (both
      [exit(0)]), [Undefined] (undefined behaviour) or [Hang] (a loop that
      never ends).  Also here: the bind notation in [lego_scope], the
      tactics [res_inv], [by_eval] and [zdiv_lia], the shared list
      lemmas, and the databases [lego] and [lego_rw].
    - [Double]: [double] as [f64].  A value is an exact rational or NaN.
      Division by zero gives NaN, [sqrt] is an upper approximation on a
      [2^-20] grid, and [(int)] truncates toward zero or is [Undefined].
      Also here: the equivalence [feq] and the [Proper] instances of the
      operations.
    - [Matrix]: the D3DX vectors and matrices the program calls
      ([D3DXMatrixIdentity], [D3DXMatrixTranslation],
      [D3DXVec3TransformCoord]), modelled from their documentation, with
      the setoids [vec_feq] and [mat_feq].
    - [View]: the camera's D3DX helpers, modelled from their documented
      formulas: the vector operations, [D3DXMatrixLookAtLH],
      [D3DXMatrixPerspectiveFovLH] (with [tan] idealised by a Taylor
      quotient), and the write-only state of the device and the cursor
      ([SetTransform], [SetRenderState], [ShowCursor], [SetCursorPos]).
    - [Sphere]: [CSphere] as a record, with one definition per method
      that writes it ([create] and [destroy] included), and the setoid
      [sphere_eq].
    - [Wall]: [CWall], [create], [setColor], [setPosition], [destroy]
      and [hasIntersected].  The class [BallTest] is the interface that a
      collision volume offers to the code moving balls.  [CWall] is one
      instance; the player's hit volume ([Enemy.PlayerHitbox]) is the
      other.
    - [GridMap]: [map], the probes [map_at]/[any_probe], [goable] and
      [win], [make_map] (its two loops, with the [malloc]ed array written
      through the pre-decremented countdown), and the loop of [Cleanup].
    - [Enemy]: [CEnemy], its constructor, [Update] (state passing: it
      returns the new [my_life] with the enemy, or [Halt Lose]), [hit],
      [hasHit] and [locate_enemy].  Also the abstract turret [estate]
      ([Alive h] or [Dead]) with its step [astep] on hit events.
    - [Light]: [CLight] with its constructor as a step on the static
      counter, [create], [destroy] and [setLight]; the device's light
      table ([SetLight], [LightEnable]) from the Direct3D documentation.
    - [Frame]: [World], [Level], the gate [fps_scan], the enemy loop
      [enemy_loop], movement ([move_dir], [move_vector], [move_player]),
      [display_sim] and [Display] (one frame), the camera ([set_camera],
      [set_view]), [Setup] and [Cleanup], with the scenarios of the
      one-frame witnesses.
    - [Input]: [WndProc] on a [WndState] (the [World] and the static
      [wire]), returning the window effect as a [wnd_action]; the mouse
      handler [WM_MOUSEMOVE] (a section over [cos] and [sin]); the
      message loop [msg_loop] over a list of events (a message or an
      idle frame), and [WinMain].
    - [Game]: runs of several frames.  The reachable worlds (an inductive
      relation over [Setup], frames and mouse events), [follows] for the
      worlds after a given one, [run_frames] for a sequence of idle
      frames, the section [BallInvariant] that lifts a property of the
      ball operations to every frame and mouse event, and the scenarios
      of the multi-frame witnesses.
    - [Scene]: the agreement between drawing and simulation.

    ** What is proved

    - Whole-game invariants (by rule induction on [reachable]):
      every world reached on the shipped map has well-formed enemies, the
      player's life in [1..3], and the player strictly inside the border
      walls ([Game.reachable_inv]), so no frame's movement or [win] test
      reads [map] out of bounds.  [reachable] is an abstraction of
      the program: every state a run of [WinMain] stops in is reachable
      ([Game.WinMain_reachable], a refinement by induction on the
      events), so these invariants hold of the message loop itself.
    - The scene is drawn where it is simulated ([Scene.reachable_drawn]):
      in every reachable world, every object's local transform is the
      translation to the centre its collision tests read.
    - The light: the slot indices of the static counter are distinct for
      exactly the first [2^32] lights ([Light.light_indices_distinct]),
      and [create] then [setLight] hands the device exactly the light
      [Setup] describes, enabled ([Light.setLight_places]).
    - The mouse: the handler keeps the aim of length at most 1, so its
      own [sqrt(1 - pow(target_y, 2))] stays a number
      ([Input.WM_MOUSEMOVE_aim_normalised]).
    - Liveness: a bullet falling slowly enough over the floor is absorbed
      within the frames its height requires ([Game.floor_absorbs]).
    - The camera: the view puts the eye at the origin and the point looked
      at on the view axis ([View.LookAt_eye], [View.LookAt_ray]), with every point's
      camera-space coordinates in closed form ([View.LookAt_coords]); after
      every running frame the camera is at the player's eye looking along
      the aim ([Frame.Display_camera]); [Setup]'s projection maps the
      frustum between the planes 0.1 and 100 onto the unit cube
      ([Frame.Setup_projection]); the aim marker is on the view axis in
      a frame without a move ([Frame.Display_aim_marker]).
    - The enemy:
      - [Enemy.hasHit_refines]: [hasHit] refines the abstract turret;
      - [Enemy.hasHit_body] and [Enemy.hasHit_headshot]: body and head
        hits;
      - [Enemy.Update_life]: [Update] ends the game exactly on the hit
        that takes the last life;
      - [Enemy.reload_aims]: a reloading enemy puts its bullet back at
        its chest and fires it at the player at [BULLETSPEED].
    - The frame:
      - at most one enemy is damaged per bullet ([Frame.Display_one_hit]);
      - dead stays dead and life never returns ([Frame.Display_monotone]);
      - the flag wins before any movement ([Frame.Display_win_first]);
      - movement keeps the player inside the walls
        ([Frame.move_player_safe]);
      - the gate terminates exactly for [timeDelta > 0]
        ([Frame.fps_scan_terminates]).
    - Geometry:
      - [hasIntersected] is the symmetric half-extent test;
      - it is conservative with respect to the exact sphere/box test;
      - it is monotone in the radius;
      - the probes read the tile of the footprint
        ([GridMap.goable_win_in_tile]).
    - Loading: [make_map] and [locate_enemy] write in bounds and fill
      their arrays exactly; every wall is read back as a wall by the
      collision lookup (round trip, [GridMap.make_map_walls_roundtrip]);
      the flattened [k / 30, k % 30] scan counts what a row-by-row count
      finds (equivalence, [GridMap.count_char_rows]).
    - Defects of the code, each proved as a theorem:
      - an idle frame is undefined behaviour
        ([Frame.Display_idle_undefined]);
      - the gate never opens for frame times of a millisecond or more
        ([Frame.Display_gate_closed]);
      - with such a timer no run of the message loop ever starts the
        game ([Input.msg_loop_never_starts]);
      - a tunnelled bullet disables shooting forever
        ([Game.escaped_bullet_lost]), and an enemy whose bullet tunnels
        out never fires again ([Game.enemy_bullet_lost]);
      - a head shot still takes a life point;
      - a reload at distance 0 disarms the enemy
        ([Enemy.Update_reload_disarms]);
      - the spawn is transposed ([GridMap.make_map_spawn_transposed]);
      - [Setup] aims the camera from the maze's centre, not from the
        start tile, and with a millisecond timer it never leaves it
        ([Input.msg_loop_camera_at_centre]);
      - the aim marker is placed from the position before the move, so
        it is on the screen's centre line exactly when the step is along
        the aim, and any sideways step draws it off the centre
        ([Frame.aim_marker_trails]);
      - [Cleanup] reads past the wall array
        ([Frame.Cleanup_out_of_bounds]), so closing the window never
        ends the program cleanly ([Input.WinMain_no_clean_exit]); and
        even in bounds it never releases the ceiling's and the flag's
        meshes ([Frame.Cleanup_releases]).

    ** Bounds and fuel

    - The gate's loop has no bound in the source.  [fps_scan] takes
      fuel, and [fps_fuel] gives it the denominator [d] of [timeDelta].
      This is enough for every positive [timeDelta = n/d], because
      [10^d >= d].  [fps_scan_terminates] proves it, together with the
      converse: no fuel is enough when [timeDelta <= 0] or NaN.
    - The other loops are structural: the enemy array, the wall array,
      the 900 tiles of the scan, and [Cleanup]'s 900 iterations.  The
      message loop runs over a finite list of events: a run that has not
      quit when the list ends is [Running].
    - [int] is 32-bit.  [ftoint] is [Undefined] outside its range.
      [DWORD] is 32-bit unsigned, and the light counter wraps modulo
      [2^32].
    - The player's step is at most [WALKSPEED = 0.015] per axis.  So an
      interior position ([|x|, |z| <= 27.8]) keeps every probe inside
      the array ([|x|, |z| < 29.8]).

    ** Not modelled

    - Drawing itself: materials, [draw] (which only sets the device's
      world transform and material and draws a mesh), [Clear],
      [BeginScene], [EndScene] and [Present].  What [draw] reads, the
      local transforms and the meshes, is modelled, as are the view and
      projection matrices and the render states the device is given.
    - The cursor's effect on the messages: [SetCursorPos] is recorded in
      the device state, but the mouse messages are inputs of the loop,
      not computed from the cursor.
    - The window system itself: [DestroyWindow], [PostQuitMessage] and
      the fill mode are returned as actions, and the message loop of
      d3dUtility.cpp, which is not in the repository, is modelled from
      the contract of the Win32 message pump.  [InitD3D] is assumed to
      succeed, [srand] seeds a generator nothing reads, and
      [Device->Release] only frees the device.
    - Floating-point rounding.  [double] is idealised to exact rationals.
      [float] and the [D3DXVECTOR3] conversion in [getCenter] are
      idealised the same way.
    - The values of [cos] and [sin]: they are section parameters, and no
      theorem depends on them.  [tan] (in the projection) is a Taylor
      quotient; only the projection's [x] and [y] scale use it, and the
      theorems hold for any non-zero value.
    - The device's failures in [create], which only depend on Direct3D:
      the model follows the success paths. *)

From Stdlib Require Import List Bool ZArith Lia String Permutation.
Import ListNotations.

Declare Scope lego_scope.
Delimit Scope lego_scope with lego.
Open Scope lego_scope.

Create HintDb lego.
Create Rewrite HintDb lego_rw.

(** ** Leaving the program

    The source has no error values: a loss and a win both call [exit(0)]
    from inside the frame ([CEnemy::Update] line 392, [Display] line 661).
    A step that executes undefined behaviour (an out-of-range [(int)]
    conversion that then indexes [map], line 506) has no defined
    continuation, and a [for (k = 1; true; k++)] loop (line 614) may never
    end.  A step of the model returns [Ok] with the new state, or [Halt]
    with the reason. *)
Inductive halt_reason : Type :=
| Win
| Lose
| Undefined (what : string)
| Hang.

Inductive res (A : Type) : Type :=
| Ok (a : A)
| Halt (h : halt_reason).
Arguments Ok {A} a.
Arguments Halt {A} h.

Definition res_bind {A B : Type} (r : res A) (k : A -> res B) : res B :=
  match r with
  | Ok a => k a
  | Halt h => Halt h
  end.

Notation "x <- c ;; k" := (res_bind c (fun x => k))
  (at level 61, c at next level, right associativity) : lego_scope.
Notation "' p <- c ;; k" := (res_bind c (fun x => match x with p => k end))
  (at level 61, p pattern, c at next level, right associativity) : lego_scope.

(** [res] is an error monad. *)
Lemma res_bind_ok {A B} (a : A) (k : A -> res B) : res_bind (Ok a) k = k a.
Proof. reflexivity. Qed.

Lemma res_bind_halt {A B} h (k : A -> res B) : res_bind (Halt h) k = Halt h.
Proof. reflexivity. Qed.

Lemma res_bind_assoc {A B C} (r : res A) (f : A -> res B) (g : B -> res C) :
  res_bind (res_bind r f) g = res_bind r (fun a => res_bind (f a) g).
Proof. destruct r; reflexivity. Qed.

Lemma res_bind_Ok_inv {A B} (r : res A) (k : A -> res B) b :
  res_bind r k = Ok b -> exists a, r = Ok a /\ k a = Ok b.
Proof. destruct r; simpl; [eauto | discriminate]. Qed.

Lemma res_bind_Halt_inv {A B} (r : res A) (k : A -> res B) h :
  res_bind r k = Halt h -> r = Halt h \/ exists a, r = Ok a /\ k a = Halt h.
Proof. destruct r; simpl; [right; eauto | intros H; left; injection H as ->; reflexivity]. Qed.

#[export] Hint Rewrite @res_bind_ok @res_bind_halt : lego_rw.

(** Split every [res_bind _ _ = Ok _] hypothesis into its two steps. *)
Ltac res_inv :=
  repeat match goal with
         | H : res_bind ?r ?k = Ok _ |- _ =>
             let a := fresh "a" in
             let Ha := fresh "Hr" in
             apply res_bind_Ok_inv in H; destruct H as (a & Ha & H)
         | H : Ok _ = Ok _ |- _ => injection H as H; subst
         | H : Halt _ = Ok _ |- _ => discriminate H
         | H : Ok _ = Halt _ |- _ => discriminate H
         end.

(** Close a closed decidable goal (a boolean equation, a comparison of
    numerals) by evaluation. *)
Ltac by_eval :=
  vm_compute; repeat split; solve [reflexivity | discriminate | intro; discriminate | tauto].

(** [vm_compute in E] for an equation [E : a = b] between closed terms
    and patterns: evaluates [a] and [b] in a separate equation proved by
    [vm_compute] (which the kernel re-checks with its virtual machine) and
    rewrites with it, instead of changing [E]'s type, which the kernel
    would re-check by lazy reduction. *)
Ltac vm_eval_side E a :=
  let v := eval vm_compute in a in
  tryif constr_eq v a then idtac else
    (let Ev := fresh "Ev" in
     assert (Ev : a = v) by (vm_compute; reflexivity);
     rewrite Ev in E; clear Ev).

Ltac vm_eval_in E :=
  match type of E with
  | ?a = ?b => vm_eval_side E a; match type of E with _ = ?b' => vm_eval_side E b' end
  end.

(** [lia] on goals with [/] and [mod] by constants. *)
Ltac zdiv_lia := Z.to_euclidean_division_equations; lia.

(** ** Shared list lemmas *)

(** A [for] loop that clears a flag when any element matches leaves the
    flag cleared exactly when [existsb] holds; the order of the elements
    does not matter. *)
Lemma existsb_rev {A} (f : A -> bool) (l : list A) :
  existsb f (rev l) = existsb f l.
Proof.
  induction l as [|x l IH]; simpl; [reflexivity|].
  rewrite existsb_app, IH; simpl. rewrite orb_false_r, orb_comm. reflexivity.
Qed.

Lemma existsb_perm {A} (f : A -> bool) (l l' : list A) :
  Permutation.Permutation l l' -> existsb f l = existsb f l'.
Proof.
  induction 1; simpl; try congruence.
  rewrite !orb_assoc, (orb_comm (f y)). reflexivity.
Qed.

#[export] Hint Resolve existsb_perm : lego.

(** A property carried along a pointwise relation between two arrays:
    the arrays before and after a loop that updates each element. *)
Lemma Forall2_transport {A B} (R : A -> B -> Prop) (P : A -> Prop) (Q : B -> Prop)
      (l : list A) (l' : list B) :
  (forall a b, R a b -> P a -> Q b) -> Forall2 R l l' -> Forall P l -> Forall Q l'.
Proof. intros HR H2. induction H2; intros HP; inversion HP; subst; constructor; eauto. Qed.

(** No element matches: the loop leaves its flag set. *)
Lemma existsb_none {A} (f : A -> bool) (l : list A) :
  (forall x, In x l -> f x = false) -> existsb f l = false.
Proof.
  induction l as [|x l IH]; intros H; simpl; [reflexivity|].
  rewrite (H x (or_introl eq_refl)), IH; [reflexivity|]. intros y Hy. apply H. right; exact Hy.
Qed.

Lemma Forall2_diag {A} (R : A -> A -> Prop) (l : list A) :
  (forall x, R x x) -> Forall2 R l l.
Proof. intros HR. induction l; constructor; auto. Qed.

Lemma Forall2_sym_of {A} (R : A -> A -> Prop) (l l' : list A) :
  (forall x y, R x y -> R y x) -> Forall2 R l l' -> Forall2 R l' l.
Proof. intros HR H. induction H; constructor; auto. Qed.

Lemma Forall2_trans_of {A} (R : A -> A -> Prop) (l1 l2 l3 : list A) :
  (forall x y z, R x y -> R y z -> R x z) -> Forall2 R l1 l2 -> Forall2 R l2 l3 -> Forall2 R l1 l3.
Proof.
  intros HR H. revert l3. induction H as [|a b l l' Hab _ IH]; intros l3 H3;
    inversion H3; subst; constructor; eauto.
Qed.

