(* ===== verification/Double.v ===== *)
(** * The C [double] of virtualLego.cpp

    Every coordinate, velocity and time step of the program is a [double]
    (or a [float] promoted to one).  [f64] models such a value as an exact
    rational or NaN:
    - [Fin q] is a finite value, computed exactly (rounding is not
      modelled: the model is the real-number idealisation of the code,
      restricted to rationals so that it computes);
    - [NaN] is IEEE's not-a-number.  It is produced by [0/0] and by
      [sqrt] of a negative value, it propagates through [+ - * /], and
      every ordered comparison with it is false, while [!=] is true.

    Division by zero: IEEE gives [+-inf] for [x/0] with [x <> 0] and NaN
    for [0/0].  [fdiv] returns NaN for both.  Each division of the source
    whose divisor can be zero has a zero numerator in that case ([target_x
    / radius], line 671; [BULLETSPEED * x_power / bullet_radius], line 400;
    [target_x /= target_radius], line 766), or multiplies the infinite
    quotient by a zero ([next_x *= WALKSPEED / next_radius], line 690, where
    [next_radius = 0] forces [next_x = 0]): the result there is NaN in
    IEEE as in the model.

    [sqrt] is modelled by [Qsqrt_up], an upper approximation on the grid
    of multiples of [2^-20]: the theorems use only that it is nonnegative,
    zero exactly at zero, and squares to at least its argument.

    The [(int)] conversion ([ftoint]) truncates toward zero and is
    undefined (the model returns [None]) on NaN and on values whose
    truncation is outside the 32-bit [int] range. *)

From Stdlib Require Import QArith Qround Lqa ZArith Lia Setoid Morphisms.
From S2P Require Import Prelude.

(** ** Rational helpers *)

Definition Qltb (x y : Q) : bool := negb (Qle_bool y x).

Lemma Qltb_iff x y : Qltb x y = true <-> x < y.
Proof.
  unfold Qltb. rewrite negb_true_iff.
  split; intro H.
  - apply Qnot_le_lt. intros H'. apply Qle_bool_iff in H'. congruence.
  - destruct (Qle_bool y x) eqn:E; [|reflexivity].
    apply Qle_bool_iff in E. exfalso. apply (Qlt_not_le _ _ H E).
Qed.

Lemma Qltb_false x y : Qltb x y = false <-> y <= x.
Proof.
  unfold Qltb. rewrite negb_false_iff. apply Qle_bool_iff.
Qed.

Lemma Qle_bool_false x y : Qle_bool x y = false -> y < x.
Proof.
  intros E. apply Qnot_le_lt. intros H. apply Qle_bool_iff in H. congruence.
Qed.

#[export] Instance Qltb_comp : Proper (Qeq ==> Qeq ==> eq) Qltb.
Proof.
  intros x x' Hx y y' Hy. unfold Qltb.
  destruct (Qle_bool y x) eqn:E1, (Qle_bool y' x') eqn:E2; try reflexivity;
    apply Qle_bool_iff in E1 || apply Qle_bool_iff in E2;
    [ assert (y' <= x') by (rewrite <- Hx, <- Hy; assumption)
    | assert (y <= x) by (rewrite Hx, Hy; assumption) ];
    apply Qle_bool_iff in H; congruence.
Qed.

(** C's truncating conversion of a real number to an integer. *)
Definition Qtrunc (q : Q) : Z :=
  if Qle_bool 0 q then Qfloor q else Qceiling q.

#[export] Instance Qtrunc_comp : Proper (Qeq ==> eq) Qtrunc.
Proof.
  intros x y H. unfold Qtrunc.
  rewrite (Qfloor_comp x y H), (Qceiling_comp x y H).
  destruct (Qle_bool 0 x) eqn:E1, (Qle_bool 0 y) eqn:E2; try reflexivity;
    apply Qle_bool_iff in E1 || apply Qle_bool_iff in E2;
    [ assert (0 <= y) by (rewrite <- H; assumption)
    | assert (0 <= x) by (rewrite H; assumption) ];
    apply Qle_bool_iff in H0; congruence.
Qed.

(** On [[k, k+1)] with [k >= 0] the truncation is [k]. *)
Lemma Qtrunc_nonneg (q : Q) (k : Z) :
  (0 <= k)%Z -> inject_Z k <= q -> q < inject_Z (k + 1) -> Qtrunc q = k.
Proof.
  intros Hk Hlo Hhi. unfold Qtrunc.
  assert (Hq : 0 <= q).
  { apply Qle_trans with (inject_Z k); [|exact Hlo].
    change 0 with (inject_Z 0). rewrite <- Zle_Qle. exact Hk. }
  apply Qle_bool_iff in Hq. rewrite Hq.
  pose proof (Qfloor_le q) as F1. pose proof (Qlt_floor q) as F2.
  assert (A : (Qfloor q < k + 1)%Z).
  { rewrite Zlt_Qlt. apply Qle_lt_trans with q; assumption. }
  assert (B : (k < Qfloor q + 1)%Z).
  { rewrite Zlt_Qlt. apply Qle_lt_trans with q; assumption. }
  lia.
Qed.

(** On [(-1, 1)] the truncation is [0]: unlike [floor], C's [(int)]
    maps [-0.5] to [0]. *)
Lemma Qtrunc_small (q : Q) : -1 < q -> q < 1 -> Qtrunc q = 0%Z.
Proof.
  intros Hlo Hhi.
  destruct (Qlt_le_dec q 0) as [Hq|Hq].
  - unfold Qtrunc.
    destruct (Qle_bool 0 q) eqn:E; [apply Qle_bool_iff in E; exfalso; lra|].
    pose proof (Qle_ceiling q) as C1. pose proof (Qceiling_lt q) as C2.
    assert (A : (Qceiling q - 1 < 0)%Z).
    { rewrite Zlt_Qlt. apply Qlt_trans with q; assumption. }
    assert (B : (-1 < Qceiling q)%Z).
    { rewrite Zlt_Qlt. apply Qlt_le_trans with q; [exact Hlo | exact C1]. }
    lia.
  - apply Qtrunc_nonneg; [lia | exact Hq | exact Hhi].
Qed.

(** ** Integers inside rationals *)

Lemma inject_Z_sub (x y : Z) : inject_Z (x - y) = inject_Z x - inject_Z y.
Proof. unfold Z.sub, Qminus. rewrite inject_Z_plus, inject_Z_opp. reflexivity. Qed.

(** Replace the numerals [inject_Z 29] of a goal by the rationals [29]
    that [lra] reads as constants. *)
Ltac qnum :=
  repeat match goal with
         | |- context [inject_Z (Zpos ?p)] => change (inject_Z (Zpos p)) with (Qmake (Zpos p) 1)
         | |- context [inject_Z Z0] => change (inject_Z Z0) with (Qmake Z0 1)
         | |- context [inject_Z (Zneg ?p)] => change (inject_Z (Zneg p)) with (Qmake (Zneg p) 1)
         | H : context [inject_Z (Zpos ?p)] |- _ =>
             change (inject_Z (Zpos p)) with (Qmake (Zpos p) 1) in H
         | H : context [inject_Z Z0] |- _ => change (inject_Z Z0) with (Qmake Z0 1) in H
         | H : context [inject_Z (Zneg ?p)] |- _ =>
             change (inject_Z (Zneg p)) with (Qmake (Zneg p) 1) in H
         end.

(** Division by a positive numeral as multiplication by its inverse. *)
Ltac qinv :=
  unfold Qdiv in *;
  repeat match goal with
         | |- context [Qinv (Qmake (Zpos ?p) 1)] =>
             change (Qinv (Qmake (Zpos p) 1)) with (Qmake 1 p)
         | H : context [Qinv (Qmake (Zpos ?p) 1)] |- _ =>
             change (Qinv (Qmake (Zpos p) 1)) with (Qmake 1 p) in H
         end.

(** [lra] on goals that mix [Q] with integers injected by [inject_Z] and
    divisions by numerals. *)
Ltac qlra :=
  repeat progress (rewrite ?inject_Z_plus, ?inject_Z_sub, ?inject_Z_mult, ?inject_Z_opp in * );
  qnum; qinv; lra.

Lemma Zrange_Q (a b r : Z) :
  (a <= r <= b)%Z -> inject_Z a <= inject_Z r <= inject_Z b.
Proof. intros [H1 H2]. rewrite <- !Zle_Qle. split; assumption. Qed.

(** Truncation of a value in [[k, k' + 1)] with [k >= 0] is in [[k, k']]. *)
Lemma Qtrunc_in (k k' : Z) (q : Q) :
  (0 <= k)%Z -> inject_Z k <= q -> q < inject_Z k' + 1 -> (k <= Qtrunc q <= k')%Z.
Proof.
  intros Hk Hlo Hhi. unfold Qtrunc.
  assert (Hq : 0 <= q).
  { apply Qle_trans with (inject_Z k); [|exact Hlo].
    change 0 with (inject_Z 0). rewrite <- Zle_Qle. exact Hk. }
  apply Qle_bool_iff in Hq. rewrite Hq. split.
  - rewrite <- (Qfloor_Z k). apply Qfloor_resp_le. exact Hlo.
  - pose proof (Qfloor_le q) as F.
    assert (A : inject_Z (Qfloor q) < inject_Z (k' + 1)) by qlra.
    rewrite <- Zlt_Qlt in A. lia.
Qed.

Lemma Qtrunc_ge (k : Z) (q : Q) : (0 <= k)%Z -> inject_Z k <= q -> (k <= Qtrunc q)%Z.
Proof.
  intros Hk H. unfold Qtrunc.
  assert (Hq : 0 <= q).
  { apply Qle_trans with (inject_Z k); [|exact H].
    change 0 with (inject_Z 0). rewrite <- Zle_Qle. exact Hk. }
  apply Qle_bool_iff in Hq. rewrite Hq.
  rewrite <- (Qfloor_Z k). apply Qfloor_resp_le. exact H.
Qed.

(** Truncation of a value in [(-1, k + 1)] with [k >= 0] is in [[0, k]]. *)
Lemma Qtrunc_range (k : Z) (q : Q) :
  (0 <= k)%Z -> -1 < q -> q < inject_Z k + 1 -> (0 <= Qtrunc q <= k)%Z.
Proof.
  intros Hk Hlo Hhi. destruct (Qlt_le_dec q 0) as [Hq|Hq].
  - rewrite Qtrunc_small by lra. lia.
  - apply Qtrunc_in; [lia | exact Hq | exact Hhi].
Qed.

Lemma Qtrunc_exact (k : Z) (q : Q) :
  (0 <= k)%Z -> inject_Z k <= q -> q < inject_Z k + 1 -> Qtrunc q = k.
Proof. intros Hk Hlo Hhi. apply Qtrunc_nonneg; [exact Hk | exact Hlo | qlra]. Qed.

(** ** Square root

    [Qsqrt_up q] is the least multiple [k / 2^20] of [2^-20] whose square
    is at least [ceil (q * 2^40) / 2^40]: an upper approximation of the
    real square root, exact on squares of multiples of [2^-20]. *)
Definition sqrt_scale : positive := (2 ^ 20)%positive.

Definition Qsqrt_up (q : Q) : Q :=
  Z.sqrt_up (Qceiling (q * inject_Z (Zpos sqrt_scale * Zpos sqrt_scale)))
    # sqrt_scale.

#[export] Instance Qsqrt_up_comp : Proper (Qeq ==> Qeq) Qsqrt_up.
Proof.
  intros x y H. unfold Qsqrt_up.
  rewrite (Qceiling_comp _ (y * inject_Z (Zpos sqrt_scale * Zpos sqrt_scale)))
    by (rewrite H; reflexivity).
  reflexivity.
Qed.

Lemma Qmake_scale (k : Z) : (k # sqrt_scale) == inject_Z k / inject_Z (Zpos sqrt_scale).
Proof. rewrite Qmake_Qdiv. reflexivity. Qed.

Lemma Qsqrt_up_nonneg (q : Q) : 0 <= Qsqrt_up q.
Proof.
  unfold Qsqrt_up, Qle. cbn [Qnum Qden].
  pose proof (Z.sqrt_up_nonneg (Qceiling (q * inject_Z (Zpos sqrt_scale * Zpos sqrt_scale)))).
  lia.
Qed.

(** The approximation squares to at least its argument. *)
Lemma Qsqrt_up_sq (q : Q) : 0 <= q -> q <= Qsqrt_up q * Qsqrt_up q.
Proof.
  intros Hq. unfold Qsqrt_up. rewrite Qmake_Qdiv.
  set (c := Qceiling (q * inject_Z (Zpos sqrt_scale * Zpos sqrt_scale))).
  assert (Hc : q * inject_Z (Zpos sqrt_scale * Zpos sqrt_scale) <= inject_Z c)
    by apply Qle_ceiling.
  assert (HS : 0 < inject_Z (Zpos sqrt_scale * Zpos sqrt_scale))
    by (unfold Qlt; simpl; lia).
  assert (Hk : (c <= Z.sqrt_up c * Z.sqrt_up c)%Z).
  { destruct (Z.le_gt_cases c 0) as [Hle|Hgt].
    - rewrite Z.sqrt_up_eqn0 by exact Hle. lia.
    - apply Z.sqrt_up_spec. lia. }
  apply Qmult_le_r with (inject_Z (Zpos sqrt_scale * Zpos sqrt_scale)); [exact HS|].
  apply Qle_trans with (inject_Z c); [exact Hc|].
  assert (E : inject_Z (Z.sqrt_up c) / inject_Z (Zpos sqrt_scale)
              * (inject_Z (Z.sqrt_up c) / inject_Z (Zpos sqrt_scale))
              * inject_Z (Zpos sqrt_scale * Zpos sqrt_scale)
              == inject_Z (Z.sqrt_up c * Z.sqrt_up c)).
  { rewrite !inject_Z_mult. field. unfold Qeq; simpl; lia. }
  rewrite E, <- Zle_Qle. exact Hk.
Qed.

Lemma Qsqrt_up_zero : Qsqrt_up 0 == 0.
Proof. reflexivity. Qed.

Lemma Qsqrt_up_pos (q : Q) : 0 < q -> 0 < Qsqrt_up q.
Proof.
  intros Hq.
  pose proof (Qsqrt_up_sq q (Qlt_le_weak _ _ Hq)) as Hs.
  pose proof (Qsqrt_up_nonneg q) as Hn.
  destruct (Qlt_le_dec 0 (Qsqrt_up q)) as [H|H]; [exact H|].
  assert (E : Qsqrt_up q == 0) by (apply Qle_antisym; assumption).
  rewrite E in Hs. lra.
Qed.

#[export] Hint Resolve Qsqrt_up_nonneg Qsqrt_up_sq Qsqrt_up_pos : lego.

(** ** The [double] type *)

Inductive f64 : Type :=
| Fin (q : Q)
| NaN.

Definition fadd (a b : f64) : f64 :=
  match a, b with Fin x, Fin y => Fin (x + y) | _, _ => NaN end.
Definition fsub (a b : f64) : f64 :=
  match a, b with Fin x, Fin y => Fin (x - y) | _, _ => NaN end.
Definition fmul (a b : f64) : f64 :=
  match a, b with Fin x, Fin y => Fin (x * y) | _, _ => NaN end.
Definition fdiv (a b : f64) : f64 :=
  match a, b with
  | Fin x, Fin y => if Qeq_bool y 0 then NaN else Fin (x / y)
  | _, _ => NaN
  end.

(** [sqrt] of <math.h>. *)
Definition fsqrt (a : f64) : f64 :=
  match a with
  | Fin x => if Qltb x 0 then NaN else Fin (Qsqrt_up x)
  | NaN => NaN
  end.

(** [pow(x, 2)] of <math.h>. *)
Definition fsquare (a : f64) : f64 := fmul a a.

(** [a < b]; [a > b] is [flt b a]. *)
Definition flt (a b : f64) : bool :=
  match a, b with Fin x, Fin y => Qltb x y | _, _ => false end.
Definition fle (a b : f64) : bool :=
  match a, b with Fin x, Fin y => Qle_bool x y | _, _ => false end.
(** [a != b] (true when either side is NaN). *)
Definition fne (a b : f64) : bool :=
  match a, b with Fin x, Fin y => negb (Qeq_bool x y) | _, _ => true end.

(** An [int] (or an integer literal) promoted to [double]. *)
Definition fofZ (z : Z) : f64 := Fin (inject_Z z).

(** The [(int)] conversion. *)
Definition int_min : Z := (- 2 ^ 31)%Z.
Definition int_max : Z := (2 ^ 31 - 1)%Z.

Definition ftoint (a : f64) : option Z :=
  match a with
  | Fin x =>
      let t := Qtrunc x in
      if (int_min <=? t)%Z && (t <=? int_max)%Z then Some t else None
  | NaN => None
  end.

Declare Scope f64_scope.
Delimit Scope f64_scope with F.
Infix "+" := fadd : f64_scope.
Infix "-" := fsub : f64_scope.
Infix "*" := fmul : f64_scope.
Infix "/" := fdiv : f64_scope.
Infix "<?" := flt : f64_scope.
Infix "<=?" := fle : f64_scope.

(** ** Equality up to [Qeq] *)

Definition feq (a b : f64) : Prop :=
  match a, b with
  | Fin x, Fin y => x == y
  | NaN, NaN => True
  | _, _ => False
  end.

#[export] Instance feq_equiv : Equivalence feq.
Proof.
  split.
  - intros [x|]; simpl; [reflexivity | exact I].
  - intros [x|] [y|]; simpl; auto. intros H; symmetry; exact H.
  - intros [x|] [y|] [z|]; simpl; try tauto. intros H1 H2; rewrite H1; exact H2.
Qed.

(** Unfold [feq] on two values and close what [lra] can close. *)
Ltac feq_cases :=
  repeat match goal with
         | a : f64 |- _ => destruct a
         end; simpl in *; try tauto.

#[export] Instance fadd_comp : Proper (feq ==> feq ==> feq) fadd.
Proof. intros a a' Ha b b' Hb; feq_cases. rewrite Ha, Hb; reflexivity. Qed.
#[export] Instance fsub_comp : Proper (feq ==> feq ==> feq) fsub.
Proof. intros a a' Ha b b' Hb; feq_cases. rewrite Ha, Hb; reflexivity. Qed.
#[export] Instance fmul_comp : Proper (feq ==> feq ==> feq) fmul.
Proof. intros a a' Ha b b' Hb; feq_cases. rewrite Ha, Hb; reflexivity. Qed.
#[export] Instance fdiv_comp : Proper (feq ==> feq ==> feq) fdiv.
Proof.
  intros a a' Ha b b' Hb; feq_cases.
  rewrite Hb. destruct (Qeq_bool _ 0); simpl; [exact I | rewrite Ha, Hb; reflexivity].
Qed.
#[export] Instance fsqrt_comp : Proper (feq ==> feq) fsqrt.
Proof.
  intros a a' Ha; feq_cases.
  rewrite Ha. destruct (Qltb _ 0); simpl; [exact I | rewrite Ha; reflexivity].
Qed.
#[export] Instance flt_comp : Proper (feq ==> feq ==> eq) flt.
Proof. intros a a' Ha b b' Hb; feq_cases; try discriminate. apply Qltb_comp; assumption. Qed.
#[export] Instance ftoint_comp : Proper (feq ==> eq) ftoint.
Proof. intros a a' Ha; feq_cases; try discriminate. rewrite (Qtrunc_comp _ _ Ha). reflexivity. Qed.

(** ** NaN *)

Lemma fadd_nan_l b : fadd NaN b = NaN. Proof. reflexivity. Qed.
Lemma fadd_nan_r a : fadd a NaN = NaN. Proof. destruct a; reflexivity. Qed.
Lemma fsub_nan_l b : fsub NaN b = NaN. Proof. reflexivity. Qed.
Lemma fsub_nan_r a : fsub a NaN = NaN. Proof. destruct a; reflexivity. Qed.
Lemma fmul_nan_l b : fmul NaN b = NaN. Proof. reflexivity. Qed.
Lemma fmul_nan_r a : fmul a NaN = NaN. Proof. destruct a; reflexivity. Qed.
Lemma flt_nan_l b : flt NaN b = false. Proof. reflexivity. Qed.
Lemma flt_nan_r a : flt a NaN = false. Proof. destruct a; reflexivity. Qed.

#[export] Hint Rewrite fadd_nan_l fadd_nan_r fsub_nan_l fsub_nan_r fmul_nan_l
  fmul_nan_r flt_nan_l flt_nan_r : lego_rw.

Lemma ftoint_Fin (q : Q) :
  (int_min <= Qtrunc q <= int_max)%Z -> ftoint (Fin q) = Some (Qtrunc q).
Proof.
  intros [H1 H2]. simpl.
  rewrite (proj2 (Z.leb_le _ _) H1), (proj2 (Z.leb_le _ _) H2). reflexivity.
Qed.

Lemma fdiv_zero (a : f64) : fdiv a (Fin 0) = NaN.
Proof. destruct a; reflexivity. Qed.

Lemma flt_Fin x y : flt (Fin x) (Fin y) = true <-> x < y.
Proof. apply Qltb_iff. Qed.

Lemma fsqrt_Fin x : 0 <= x -> fsqrt (Fin x) = Fin (Qsqrt_up x).
Proof.
  intros H. simpl. destruct (Qltb x 0) eqn:E; [|reflexivity].
  apply Qltb_iff in E. exfalso. lra.
Qed.

(** ** Equality of [double]s as the model stores them *)

(** Structural equality: the same rational in the same form, or both
    NaN. *)
Definition f64_eqb (a b : f64) : bool :=
  match a, b with
  | Fin x, Fin y => (Qnum x =? Qnum y)%Z && (Qden x =? Qden y)%positive
  | NaN, NaN => true
  | _, _ => false
  end.

Lemma f64_eqb_eq (a b : f64) : f64_eqb a b = true <-> a = b.
Proof.
  destruct a as [[n d]|], b as [[n' d']|]; simpl; split; intros H; try discriminate;
    try reflexivity.
  - apply andb_true_iff in H as [H1 H2]. apply Z.eqb_eq in H1. apply Pos.eqb_eq in H2.
    subst. reflexivity.
  - injection H as <- <-. rewrite Z.eqb_refl, Pos.eqb_refl. reflexivity.
Qed.

Definition f64_eq_dec (a b : f64) : {a = b} + {a <> b}.
Proof.
  destruct (f64_eqb a b) eqn:E; [left; apply f64_eqb_eq, E|].
  right. intros H. apply f64_eqb_eq in H. congruence.
Defined.

(** A [double] that is a number, and its value (0 for NaN). *)
Definition is_fin (a : f64) : bool := match a with Fin _ => true | NaN => false end.
Definition fval (a : f64) : Q := match a with Fin q => q | NaN => 0 end.

Lemma is_fin_fval (a : f64) : is_fin a = true -> a = Fin (fval a).
Proof. destruct a; [reflexivity | discriminate]. Qed.
