(* ===== verification/Matrix.v ===== *)
(** * Vectors and matrices of d3dx9math.h

    The program places every mesh with a 4 x 4 matrix: [CSphere::setCenter]
    and [CWall::setPosition] store [D3DXMatrixTranslation] of the centre
    in [m_mLocal], [Setup] sets [g_mWorld] to [D3DXMatrixIdentity], and
    [CLight::setLight] moves the light's position with
    [D3DXVec3TransformCoord].  These helpers belong to the D3DX library,
    not to the repository; they are modelled from its documentation:
    row vectors, the translation in the fourth row, and [TransformCoord]
    dividing by the fourth coordinate [w] of [(x, y, z, 1) * M].

    [D3DXVECTOR3] and [D3DXMATRIX] hold [float]s; like every [double],
    they are idealised to [f64] (see [Double]). *)

From Stdlib Require Import QArith Lqa Setoid Morphisms List.
Import ListNotations.
From S2P Require Import Prelude Double.

Record D3DXVECTOR3 : Type := vec3 { vec_x : f64; vec_y : f64; vec_z : f64 }.

Record D3DXMATRIX : Type := mat4 {
  m11 : f64; m12 : f64; m13 : f64; m14 : f64;
  m21 : f64; m22 : f64; m23 : f64; m24 : f64;
  m31 : f64; m32 : f64; m33 : f64; m34 : f64;
  m41 : f64; m42 : f64; m43 : f64; m44 : f64
}.

Definition f0 : f64 := Fin 0.
Definition f1 : f64 := Fin 1.

(** [D3DXMatrixIdentity]. *)
Definition D3DXMatrixIdentity : D3DXMATRIX :=
  mat4 f1 f0 f0 f0
       f0 f1 f0 f0
       f0 f0 f1 f0
       f0 f0 f0 f1.

(** [D3DXMatrixTranslation(&m, x, y, z)]: the identity with [(x, y, z)]
    in the fourth row. *)
Definition D3DXMatrixTranslation (x y z : f64) : D3DXMATRIX :=
  mat4 f1 f0 f0 f0
       f0 f1 f0 f0
       f0 f0 f1 f0
       x  y  z  f1.

(** [D3DXVec3TransformCoord(&out, &v, &m)]: [(x, y, z, 1) * m], divided
    by its [w]. *)
Definition D3DXVec3TransformCoord (v : D3DXVECTOR3) (m : D3DXMATRIX) : D3DXVECTOR3 :=
  let x := vec_x v in let y := vec_y v in let z := vec_z v in
  let w := fadd (fadd (fadd (fmul x (m14 m)) (fmul y (m24 m))) (fmul z (m34 m))) (m44 m) in
  vec3 (fdiv (fadd (fadd (fadd (fmul x (m11 m)) (fmul y (m21 m))) (fmul z (m31 m))) (m41 m)) w)
       (fdiv (fadd (fadd (fadd (fmul x (m12 m)) (fmul y (m22 m))) (fmul z (m32 m))) (m42 m)) w)
       (fdiv (fadd (fadd (fadd (fmul x (m13 m)) (fmul y (m23 m))) (fmul z (m33 m))) (m43 m)) w).

(** ** Equality up to [feq] *)

Definition vec_feq (u v : D3DXVECTOR3) : Prop :=
  feq (vec_x u) (vec_x v) /\ feq (vec_y u) (vec_y v) /\ feq (vec_z u) (vec_z v).

#[export] Instance vec_feq_equiv : Equivalence vec_feq.
Proof.
  split.
  - intros u. repeat split; reflexivity.
  - intros u v H. unfold vec_feq in *. intuition (symmetry; assumption).
  - intros u v t H1 H2. unfold vec_feq in *. intuition (etransitivity; eassumption).
Qed.

#[export] Instance TransformCoord_comp :
  Proper (vec_feq ==> eq ==> vec_feq) D3DXVec3TransformCoord.
Proof.
  intros u v (Hx & Hy & Hz) m ? <-. unfold D3DXVec3TransformCoord, vec_feq; cbn.
  repeat split; repeat (apply fdiv_comp || apply fadd_comp || apply fmul_comp);
    (assumption || reflexivity).
Qed.

(** A vector of three finite coordinates. *)
Definition vec_finite (v : D3DXVECTOR3) : Prop :=
  exists x y z, v = vec3 (Fin x) (Fin y) (Fin z).

(** [v + (x, y, z)]. *)
Definition vec_add (v : D3DXVECTOR3) (x y z : f64) : D3DXVECTOR3 :=
  vec3 (fadd (vec_x v) x) (fadd (vec_y v) y) (fadd (vec_z v) z).

Lemma fdiv_one (a b : Q) : b == 1 -> feq (fdiv (Fin a) (Fin b)) (Fin a).
Proof.
  intros Hb. unfold fdiv.
  replace (Qeq_bool b 0) with false
    by (symmetry; apply not_true_iff_false; rewrite Qeq_bool_iff; lra).
  simpl. rewrite Hb. field.
Qed.

(** The translation moves a finite point by [(x, y, z)]: [w] is 1. *)
Lemma TransformCoord_translation (v : D3DXVECTOR3) (x y z : Q) :
  vec_finite v ->
  vec_feq (D3DXVec3TransformCoord v (D3DXMatrixTranslation (Fin x) (Fin y) (Fin z)))
          (vec_add v (Fin x) (Fin y) (Fin z)).
Proof.
  intros (a & b & c & ->). unfold D3DXVec3TransformCoord, vec_add, vec_feq; cbn.
  repeat split; (etransitivity; [apply fdiv_one; ring | simpl; ring]).
Qed.

(** The identity leaves a finite point where it is. *)
Lemma TransformCoord_identity (v : D3DXVECTOR3) :
  vec_finite v -> vec_feq (D3DXVec3TransformCoord v D3DXMatrixIdentity) v.
Proof.
  intros (a & b & c & ->). unfold D3DXVec3TransformCoord, vec_feq; cbn.
  repeat split; (etransitivity; [apply fdiv_one; ring | simpl; ring]).
Qed.

(** The translation by zero is the identity. *)
Lemma Translation_zero : D3DXMatrixTranslation f0 f0 f0 = D3DXMatrixIdentity.
Proof. reflexivity. Qed.

(** Matrices equal entry by entry up to [feq]. *)
Definition mat_entries (m : D3DXMATRIX) : list f64 :=
  [m11 m; m12 m; m13 m; m14 m; m21 m; m22 m; m23 m; m24 m;
   m31 m; m32 m; m33 m; m34 m; m41 m; m42 m; m43 m; m44 m].

Definition mat_feq (m n : D3DXMATRIX) : Prop := Forall2 feq (mat_entries m) (mat_entries n).

#[export] Instance mat_feq_equiv : Equivalence mat_feq.
Proof.
  split.
  - intros m. apply Forall2_diag. reflexivity.
  - intros m n. apply Forall2_sym_of. intros x y; apply symmetry.
  - intros m n p. apply Forall2_trans_of. intros x y z; apply transitivity.
Qed.

#[export] Instance Translation_comp : Proper (feq ==> feq ==> feq ==> mat_feq) D3DXMatrixTranslation.
Proof.
  intros x x' Hx y y' Hy z z' Hz. unfold mat_feq; cbn.
  repeat constructor; assumption || reflexivity.
Qed.

Definition mat_eq_dec (m n : D3DXMATRIX) : {m = n} + {m <> n}.
Proof. decide equality; apply f64_eq_dec. Defined.

Definition mat_eqb (m n : D3DXMATRIX) : bool := if mat_eq_dec m n then true else false.

Lemma mat_eqb_eq (m n : D3DXMATRIX) : mat_eqb m n = true <-> m = n.
Proof. unfold mat_eqb. destruct (mat_eq_dec m n); split; congruence. Qed.

(** The mesh origin is drawn at the translation's offset. *)
Lemma TransformCoord_origin (x y z : Q) :
  vec_feq (D3DXVec3TransformCoord (vec3 f0 f0 f0) (D3DXMatrixTranslation (Fin x) (Fin y) (Fin z)))
          (vec3 (Fin x) (Fin y) (Fin z)).
Proof.
  rewrite (TransformCoord_translation (vec3 f0 f0 f0) x y z) by (eexists _, _, _; reflexivity).
  unfold vec_add, vec_feq; cbn. repeat split; ring.
Qed.
