(* ===== verification/View.v ===== *)
(** * The camera: [D3DXMatrixLookAtLH] and [D3DXMatrixPerspectiveFovLH]

    [Setup] aims the camera with [D3DXMatrixLookAtLH(&g_mView, &pos,
    &target, &up)] and sets the projection with
    [D3DXMatrixPerspectiveFovLH(&g_mProj, D3DX_PI / 4, Width / Height,
    0.1f, 100.0f)]; [Display] re-aims the camera at the end of every
    frame.  Both matrices and the vector helpers they use belong to D3DX,
    not to the repository; they are modelled from the documented formulas:
    the view's rows are the camera axes [xaxis = normal(cross(up, zaxis))],
    [yaxis = cross(zaxis, xaxis)], [zaxis = normal(at - eye)] with the
    translation [-dot(axis, eye)] in the fourth row, and the projection
    scales by [cot(fovy / 2)], divided by the aspect ratio for [x], and
    maps the depth range [[zn, zf]] to [[0, 1]].  [D3DXVec3Normalize]
    returns the zero vector for a vector of length 0 (as the library's
    reference implementation does).  The file also holds the state the
    program writes into the device ([SetTransform], [SetRenderState]) and
    the window system ([ShowCursor], [SetCursorPos]) without reading it
    back.

    The theorems: the view puts the eye at the origin for any finite eye,
    point and up vector, and puts the point looked at on the positive
    [z] axis when the direction is not parallel to [up]; the projection
    maps the frustum's near plane to depth 0, its far plane to depth 1 and
    the corners of its field of view to [x, y = 1]. *)

From Stdlib Require Import QArith Lqa ZArith Setoid Morphisms List.
From S2P Require Import Prelude Double Matrix.

(** ** Vectors *)

Definition D3DXVec3Subtract (u v : D3DXVECTOR3) : D3DXVECTOR3 :=
  vec3 (fsub (vec_x u) (vec_x v)) (fsub (vec_y u) (vec_y v)) (fsub (vec_z u) (vec_z v)).

Definition D3DXVec3Dot (u v : D3DXVECTOR3) : f64 :=
  fadd (fadd (fmul (vec_x u) (vec_x v)) (fmul (vec_y u) (vec_y v))) (fmul (vec_z u) (vec_z v)).

Definition D3DXVec3Cross (u v : D3DXVECTOR3) : D3DXVECTOR3 :=
  vec3 (fsub (fmul (vec_y u) (vec_z v)) (fmul (vec_z u) (vec_y v)))
       (fsub (fmul (vec_z u) (vec_x v)) (fmul (vec_x u) (vec_z v)))
       (fsub (fmul (vec_x u) (vec_y v)) (fmul (vec_y u) (vec_x v))).

Definition D3DXVec3Length (v : D3DXVECTOR3) : f64 := fsqrt (D3DXVec3Dot v v).

(** [D3DXVec3Normalize]: [v / length(v)], the zero vector when the length
    is 0. *)
Definition D3DXVec3Normalize (v : D3DXVECTOR3) : D3DXVECTOR3 :=
  let norm := D3DXVec3Length v in
  if fne norm f0 then vec3 (fdiv (vec_x v) norm) (fdiv (vec_y v) norm) (fdiv (vec_z v) norm)
  else vec3 f0 f0 f0.

(** [-x] of a [float]. *)
Definition fneg (a : f64) : f64 := fsub f0 a.

(** [D3DXMatrixLookAtLH(pOut, pEye, pAt, pUp)]. *)
Definition D3DXMatrixLookAtLH (pEye pAt pUp : D3DXVECTOR3) : D3DXMATRIX :=
  let zaxis := D3DXVec3Normalize (D3DXVec3Subtract pAt pEye) in
  let xaxis := D3DXVec3Normalize (D3DXVec3Cross pUp zaxis) in
  let yaxis := D3DXVec3Cross zaxis xaxis in
  mat4 (vec_x xaxis) (vec_x yaxis) (vec_x zaxis) f0
       (vec_y xaxis) (vec_y yaxis) (vec_y zaxis) f0
       (vec_z xaxis) (vec_z yaxis) (vec_z zaxis) f0
       (fneg (D3DXVec3Dot xaxis pEye)) (fneg (D3DXVec3Dot yaxis pEye))
       (fneg (D3DXVec3Dot zaxis pEye)) f1.

(** ** [tanf]

    [tan] is idealised, like [sqrt], by a rational approximation: the
    quotient of the Taylor polynomials of [sin] and [cos] with
    [tan_terms] terms each (below [10^-20] away from [tan] on
    [[-pi/4, pi/4]]).  Only the projection's [x] and [y] scale use it, and
    no theorem depends on its precision. *)
Definition tan_terms : nat := 12.

(** [sum_(i < n) term_i] where [term_(i+1) = - term_i * x^2 / ((k+1)(k+2))]. *)
Fixpoint taylor (x : Q) (n : nat) (term : Q) (k : Z) : Q :=
  match n with
  | O => 0
  | S n => term + taylor x n (Qred (- term * x * x / inject_Z ((k + 1) * (k + 2)))) (k + 2)
  end.

Definition ftan (a : f64) : f64 :=
  match a with
  | Fin x =>
      let c := taylor x tan_terms 1 0 in
      if Qeq_bool c 0 then NaN else Fin (Qred (taylor x tan_terms x 1 / c))
  | NaN => NaN
  end.

(** [#define D3DX_PI ((FLOAT) 3.141592654f)]. *)
Definition D3DX_PI : f64 := Fin 3.141592654.

(** [D3DXMatrixPerspectiveFovLH(&out, fovy, aspect, zn, zf)]. *)
Definition D3DXMatrixPerspectiveFovLH (fovy aspect zn zf : f64) : D3DXMATRIX :=
  let yScale := fdiv f1 (ftan (fdiv fovy (Fin 2))) in
  let xScale := fdiv yScale aspect in
  mat4 xScale f0 f0 f0
       f0 yScale f0 f0
       f0 f0 (fdiv zf (fsub zf zn)) f1
       f0 f0 (fneg (fdiv (fmul zn zf) (fsub zf zn))) f0.

(** ** The device and the cursor

    What the program writes into the Direct3D device (its transforms and
    render states) and into the window system (the cursor), and never
    reads back.  The values are those of [d3d9types.h] ([TRUE = 1],
    [D3DSHADE_GOURAUD = 2]).  A new device has identity transforms,
    lighting on, specular highlights off and Gouraud shading; the cursor's
    display counter starts at 0 and its position is the user's. *)
Inductive D3DTRANSFORMSTATETYPE : Type := D3DTS_VIEW | D3DTS_PROJECTION.
Inductive D3DRENDERSTATETYPE : Type := D3DRS_LIGHTING | D3DRS_SPECULARENABLE | D3DRS_SHADEMODE.

Definition D3DSHADE_GOURAUD : Z := 2.

Record DeviceState : Type := mkDevice {
  dev_view : D3DXMATRIX;
  dev_proj : D3DXMATRIX;
  rs_lighting : Z;
  rs_specular : Z;
  rs_shademode : Z;
  cursor_count : Z;
  cursor_pos : option (Z * Z)
}.

Definition device_init : DeviceState :=
  mkDevice D3DXMatrixIdentity D3DXMatrixIdentity 1 0 D3DSHADE_GOURAUD 0 None.

(** [Device->SetTransform(state, &m)]. *)
Definition SetTransform (t : D3DTRANSFORMSTATETYPE) (m : D3DXMATRIX) (d : DeviceState) : DeviceState :=
  match t with
  | D3DTS_VIEW => mkDevice m (dev_proj d) (rs_lighting d) (rs_specular d) (rs_shademode d)
                           (cursor_count d) (cursor_pos d)
  | D3DTS_PROJECTION => mkDevice (dev_view d) m (rs_lighting d) (rs_specular d) (rs_shademode d)
                                 (cursor_count d) (cursor_pos d)
  end.

(** [Device->SetRenderState(state, v)]. *)
Definition SetRenderState (s : D3DRENDERSTATETYPE) (v : Z) (d : DeviceState) : DeviceState :=
  match s with
  | D3DRS_LIGHTING => mkDevice (dev_view d) (dev_proj d) v (rs_specular d) (rs_shademode d)
                               (cursor_count d) (cursor_pos d)
  | D3DRS_SPECULARENABLE => mkDevice (dev_view d) (dev_proj d) (rs_lighting d) v (rs_shademode d)
                                     (cursor_count d) (cursor_pos d)
  | D3DRS_SHADEMODE => mkDevice (dev_view d) (dev_proj d) (rs_lighting d) (rs_specular d) v
                                (cursor_count d) (cursor_pos d)
  end.

(** [ShowCursor(b)]: moves the display counter up or down by one. *)
Definition ShowCursor (b : bool) (d : DeviceState) : DeviceState :=
  mkDevice (dev_view d) (dev_proj d) (rs_lighting d) (rs_specular d) (rs_shademode d)
           (cursor_count d + if b then 1 else -1) (cursor_pos d).

(** [SetCursorPos(x, y)]. *)
Definition SetCursorPos (x y : Z) (d : DeviceState) : DeviceState :=
  mkDevice (dev_view d) (dev_proj d) (rs_lighting d) (rs_specular d) (rs_shademode d)
           (cursor_count d) (Some (x, y)).

(** ** The helpers on finite vectors *)

Lemma Subtract_Fin (a b c d e f : Q) :
  D3DXVec3Subtract (vec3 (Fin a) (Fin b) (Fin c)) (vec3 (Fin d) (Fin e) (Fin f)) =
  vec3 (Fin (a - d)) (Fin (b - e)) (Fin (c - f)).
Proof. reflexivity. Qed.

Lemma Cross_Fin (a b c d e f : Q) :
  D3DXVec3Cross (vec3 (Fin a) (Fin b) (Fin c)) (vec3 (Fin d) (Fin e) (Fin f)) =
  vec3 (Fin (b * f - c * e)) (Fin (c * d - a * f)) (Fin (a * e - b * d)).
Proof. reflexivity. Qed.

Lemma Dot_Fin (a b c d e f : Q) :
  D3DXVec3Dot (vec3 (Fin a) (Fin b) (Fin c)) (vec3 (Fin d) (Fin e) (Fin f)) =
  Fin (a * d + b * e + c * f).
Proof. reflexivity. Qed.

Lemma sumsq_nonneg (a b c : Q) : 0 <= a * a + b * b + c * c.
Proof. nra. Qed.

Lemma sumsq_pos (a b c : Q) : ~ a * a + b * b + c * c == 0 -> 0 < a * a + b * b + c * c.
Proof. intros H. pose proof (sumsq_nonneg a b c). apply Qle_lteq in H0. destruct H0 as [|E]; [assumption|].
  symmetry in E. contradiction. Qed.

Lemma sumsq_zero (a b c : Q) : a * a + b * b + c * c == 0 -> a == 0 /\ b == 0 /\ c == 0.
Proof. intros H. repeat split; nra. Qed.

Lemma Qsqrt_up_neq0 (q : Q) : ~ q == 0 -> 0 <= q -> ~ Qsqrt_up q == 0.
Proof.
  intros H0 Hq. assert (0 < q) by (apply Qle_lteq in Hq; destruct Hq as [|E]; [assumption|];
  symmetry in E; contradiction). pose proof (Qsqrt_up_pos q H). lra.
Qed.

(** A vector of non-zero length is divided by the (upper approximation of
    the) square root of its squared length. *)
Lemma Normalize_Fin (a b c : Q) :
  ~ a * a + b * b + c * c == 0 ->
  D3DXVec3Normalize (vec3 (Fin a) (Fin b) (Fin c)) =
  vec3 (Fin (a / Qsqrt_up (a * a + b * b + c * c))) (Fin (b / Qsqrt_up (a * a + b * b + c * c)))
       (Fin (c / Qsqrt_up (a * a + b * b + c * c))).
Proof.
  intros H. unfold D3DXVec3Normalize, D3DXVec3Length. rewrite Dot_Fin.
  rewrite fsqrt_Fin by apply sumsq_nonneg.
  pose proof (Qsqrt_up_neq0 _ H (sumsq_nonneg a b c)) as Hs.
  assert (E : Qeq_bool (Qsqrt_up (a * a + b * b + c * c)) 0 = false)
    by (apply not_true_iff_false; rewrite Qeq_bool_iff; exact Hs).
  unfold fne, fdiv, f0. rewrite E. reflexivity.
Qed.

Lemma fdiv_fne (x s : Q) : fne (Fin s) f0 = true -> fdiv (Fin x) (Fin s) = Fin (x / s).
Proof. unfold fne, fdiv, f0. destruct (Qeq_bool s 0); [discriminate | reflexivity]. Qed.

Lemma Normalize_finite (v : D3DXVECTOR3) : vec_finite v -> vec_finite (D3DXVec3Normalize v).
Proof.
  intros (a & b & c & ->). unfold D3DXVec3Normalize, D3DXVec3Length.
  rewrite Dot_Fin, fsqrt_Fin by apply sumsq_nonneg.
  cbn [vec_x vec_y vec_z]. destruct (fne _ f0) eqn:E; [rewrite !fdiv_fne by exact E|]; eexists _, _, _; reflexivity.
Qed.

Lemma Subtract_finite (u v : D3DXVECTOR3) :
  vec_finite u -> vec_finite v -> vec_finite (D3DXVec3Subtract u v).
Proof. intros (a & b & c & ->) (d & e & f & ->). eexists _, _, _. reflexivity. Qed.

Lemma Cross_finite (u v : D3DXVECTOR3) :
  vec_finite u -> vec_finite v -> vec_finite (D3DXVec3Cross u v).
Proof. intros (a & b & c & ->) (d & e & f & ->). eexists _, _, _. reflexivity. Qed.

#[export] Hint Resolve Subtract_finite Cross_finite Normalize_finite : lego.

(** ** The view *)

(** The view matrix puts the eye at the origin, whatever the point and the
    up vector: its fourth row is [-dot(axis, eye)] for each axis. *)
Lemma LookAt_eye (pEye pAt pUp : D3DXVECTOR3) :
  vec_finite pEye -> vec_finite pAt -> vec_finite pUp ->
  vec_feq (D3DXVec3TransformCoord pEye (D3DXMatrixLookAtLH pEye pAt pUp)) (vec3 f0 f0 f0).
Proof.
  intros HE HA HU.
  pose proof (Normalize_finite _ (Subtract_finite _ _ HA HE)) as Hz.
  pose proof (Normalize_finite _ (Cross_finite _ _ HU Hz)) as (x1 & x2 & x3 & Ex).
  destruct Hz as (z1 & z2 & z3 & Ez). unfold D3DXMatrixLookAtLH. rewrite Ex, Ez.
  destruct HE as (e1 & e2 & e3 & ->). rewrite Cross_Fin.
  unfold D3DXVec3TransformCoord, fneg, vec_feq; cbn.
  repeat split; (etransitivity; [apply fdiv_one; ring | simpl; ring]).
Qed.

(** The length of a finite vector is not 0 exactly when its squared length
    is not. *)
Lemma Length_fne (a b c : Q) :
  fne (D3DXVec3Length (vec3 (Fin a) (Fin b) (Fin c))) f0 = true -> ~ a * a + b * b + c * c == 0.
Proof.
  unfold D3DXVec3Length. rewrite Dot_Fin, fsqrt_Fin by apply sumsq_nonneg.
  unfold fne, f0. intros H E. rewrite E, Qsqrt_up_zero in H. discriminate H.
Qed.

(** The camera-space coordinates of any point [p] under the view from [e]
    towards [a] with up vector [u], where [d = a - e] and
    [c = cross(u, d)] is not zero: [x = (p - e).c / (s1 s2)],
    [y = (p - e).cross(d, c) / (s1^2 s2)] and [z = (p - e).d / s1], for
    the two positive lengths [s1] and [s2] by which the axes are
    normalised. *)
Lemma LookAt_coords (e1 e2 e3 a1 a2 a3 u1 u2 u3 p1 p2 p3 : Q) :
  let d1 := a1 - e1 in let d2 := a2 - e2 in let d3 := a3 - e3 in
  let c1 := u2 * d3 - u3 * d2 in let c2 := u3 * d1 - u1 * d3 in let c3 := u1 * d2 - u2 * d1 in
  ~ c1 * c1 + c2 * c2 + c3 * c3 == 0 ->
  exists s1 s2, 0 < s1 /\ 0 < s2 /\
  vec_feq (D3DXVec3TransformCoord (vec3 (Fin p1) (Fin p2) (Fin p3))
             (D3DXMatrixLookAtLH (vec3 (Fin e1) (Fin e2) (Fin e3)) (vec3 (Fin a1) (Fin a2) (Fin a3))
                                 (vec3 (Fin u1) (Fin u2) (Fin u3))))
          (vec3 (Fin (((p1 - e1) * c1 + (p2 - e2) * c2 + (p3 - e3) * c3) / (s1 * s2)))
                (Fin (((p1 - e1) * (d2 * c3 - d3 * c2) + (p2 - e2) * (d3 * c1 - d1 * c3) +
                       (p3 - e3) * (d1 * c2 - d2 * c1)) / (s1 * s1 * s2)))
                (Fin (((p1 - e1) * d1 + (p2 - e2) * d2 + (p3 - e3) * d3) / s1))).
Proof.
  cbv zeta. intros H.
  unfold D3DXMatrixLookAtLH. rewrite Subtract_Fin.
  set (d1 := a1 - e1) in *. set (d2 := a2 - e2) in *. set (d3 := a3 - e3) in *.
  assert (Hd : ~ d1 * d1 + d2 * d2 + d3 * d3 == 0).
  { intros E. apply H. destruct (sumsq_zero _ _ _ E) as (E1 & E2 & E3).
    rewrite E1, E2, E3. ring. }
  rewrite Normalize_Fin by exact Hd.
  set (n1 := d1 * d1 + d2 * d2 + d3 * d3) in *.
  assert (Hs1 : 0 < Qsqrt_up n1) by (apply Qsqrt_up_pos, sumsq_pos, Hd).
  set (s1 := Qsqrt_up n1) in *. rewrite Cross_Fin.
  assert (Hc : ~ (u2 * (d3 / s1) - u3 * (d2 / s1)) * (u2 * (d3 / s1) - u3 * (d2 / s1)) +
                 (u3 * (d1 / s1) - u1 * (d3 / s1)) * (u3 * (d1 / s1) - u1 * (d3 / s1)) +
                 (u1 * (d2 / s1) - u2 * (d1 / s1)) * (u1 * (d2 / s1) - u2 * (d1 / s1)) == 0).
  { intros E. apply H. match type of E with ?sc == 0 => transitivity (sc * (s1 * s1)) end;
      [field; lra | rewrite E; ring]. }
  rewrite Normalize_Fin by exact Hc.
  assert (Hs2 : 0 < Qsqrt_up (_ + _ + _)) by (apply Qsqrt_up_pos, sumsq_pos, Hc).
  match type of Hs2 with 0 < ?t => set (s2 := t) in * end.
  rewrite Cross_Fin. clearbody s1 s2.
  exists s1, s2. split; [exact Hs1|]. split; [exact Hs2|].
  unfold D3DXVec3TransformCoord, fneg, vec_feq; cbn. subst n1 d1 d2 d3.
  repeat split; (etransitivity; [apply fdiv_one; ring | simpl; field; lra]).
Qed.

(** The view matrix puts every point of the ray from the eye through the
    point looked at on the positive [z] axis, when the direction
    [at - eye] is not parallel to [up]. *)
Lemma LookAt_ray (e1 e2 e3 a1 a2 a3 : Q) (pUp : D3DXVECTOR3) (s : Q) :
  vec_finite pUp -> 0 < s ->
  fne (D3DXVec3Length (D3DXVec3Cross pUp (D3DXVec3Subtract (vec3 (Fin a1) (Fin a2) (Fin a3))
                                                         (vec3 (Fin e1) (Fin e2) (Fin e3))))) f0 = true ->
  exists z, 0 < z /\
  vec_feq (D3DXVec3TransformCoord
             (vec3 (Fin (e1 + s * (a1 - e1))) (Fin (e2 + s * (a2 - e2))) (Fin (e3 + s * (a3 - e3))))
             (D3DXMatrixLookAtLH (vec3 (Fin e1) (Fin e2) (Fin e3)) (vec3 (Fin a1) (Fin a2) (Fin a3)) pUp))
          (vec3 f0 f0 (Fin z)).
Proof.
  intros (u1 & u2 & u3 & ->) Hs0 H.
  rewrite Subtract_Fin, Cross_Fin in H. apply Length_fne in H.
  destruct (LookAt_coords e1 e2 e3 a1 a2 a3 u1 u2 u3 (e1 + s * (a1 - e1)) (e2 + s * (a2 - e2))
              (e3 + s * (a3 - e3)) H) as (s1 & s2 & Hs1 & Hs2 & E).
  assert (Hd : 0 < (a1 - e1) * (a1 - e1) + (a2 - e2) * (a2 - e2) + (a3 - e3) * (a3 - e3)).
  { apply sumsq_pos. intros Z. apply H.
    destruct (sumsq_zero _ _ _ Z) as (E1 & E2 & E3). rewrite E1, E2, E3. ring. }
  set (n := (a1 - e1) * (a1 - e1) + (a2 - e2) * (a2 - e2) + (a3 - e3) * (a3 - e3)) in Hd.
  exists (s * n / s1). split.
  - apply Qlt_shift_div_l; [exact Hs1|]. rewrite Qmult_0_l. apply Qmult_lt_0_compat; assumption.
  - rewrite E. unfold vec_feq, n; cbn. repeat split; field; repeat split; intros ?; nra.
Qed.

(** In particular the point looked at is on the positive [z] axis. *)
Lemma LookAt_at (pEye pAt pUp : D3DXVECTOR3) :
  vec_finite pEye -> vec_finite pAt -> vec_finite pUp ->
  fne (D3DXVec3Length (D3DXVec3Cross pUp (D3DXVec3Subtract pAt pEye))) f0 = true ->
  exists z, 0 < z /\
  vec_feq (D3DXVec3TransformCoord pAt (D3DXMatrixLookAtLH pEye pAt pUp)) (vec3 f0 f0 (Fin z)).
Proof.
  intros (e1 & e2 & e3 & ->) (a1 & a2 & a3 & ->) HU H.
  destruct (LookAt_ray e1 e2 e3 a1 a2 a3 _ 1 HU ltac:(lra) H) as (z & Hz & E).
  exists z. split; [exact Hz|]. rewrite <- E. apply TransformCoord_comp; [|reflexivity].
  repeat split; simpl; ring.
Qed.

(** ** The projection *)

Lemma fdiv_Fin (x y : Q) : ~ y == 0 -> fdiv (Fin x) (Fin y) = Fin (x / y).
Proof.
  intros H. unfold fdiv. replace (Qeq_bool y 0) with false; [reflexivity|].
  symmetry. apply not_true_iff_false. rewrite Qeq_bool_iff. exact H.
Qed.

Lemma fdiv_feq (x y r : Q) : ~ y == 0 -> x == r * y -> feq (fdiv (Fin x) (Fin y)) (Fin r).
Proof. intros H E. rewrite fdiv_Fin by exact H. simpl. rewrite E. field. exact H. Qed.

(** The projection of [(z t a, z t, z)], where [t = tan(fovy / 2)] and [a]
    is the aspect ratio, that is of the top right edge of the field of view
    at depth [z], is [(1, 1, (z - zn) zf / ((zf - zn) z))]. *)
Lemma PerspectiveFov_edge (fovy aspect zn zf t z : Q) :
  ftan (fdiv (Fin fovy) (Fin 2)) = Fin t -> ~ t == 0 -> ~ aspect == 0 ->
  ~ zf - zn == 0 -> ~ z == 0 ->
  vec_feq (D3DXVec3TransformCoord (vec3 (Fin (z * t * aspect)) (Fin (z * t)) (Fin z))
             (D3DXMatrixPerspectiveFovLH (Fin fovy) (Fin aspect) (Fin zn) (Fin zf)))
          (vec3 f1 f1 (Fin ((z - zn) * zf / ((zf - zn) * z)))).
Proof.
  intros Ht Ht0 Ha Hzz Hz. unfold D3DXMatrixPerspectiveFovLH. cbv zeta. rewrite Ht.
  change (fdiv f1 (Fin t)) with (fdiv (Fin 1) (Fin t)).
  rewrite (fdiv_Fin 1 t Ht0), (fdiv_Fin (1 / t) aspect Ha).
  change (fsub (Fin zf) (Fin zn)) with (Fin (zf - zn)).
  change (fmul (Fin zn) (Fin zf)) with (Fin (zn * zf)). rewrite !fdiv_Fin by exact Hzz.
  unfold D3DXVec3TransformCoord, fneg, vec_feq; cbn.
  repeat split; (apply fdiv_feq; [intros E; apply Hz; lra | field; auto]).
Qed.

Lemma Length_fne_of (a b c : Q) :
  ~ a * a + b * b + c * c == 0 -> fne (D3DXVec3Length (vec3 (Fin a) (Fin b) (Fin c))) f0 = true.
Proof.
  intros H. unfold D3DXVec3Length. rewrite Dot_Fin, fsqrt_Fin by apply sumsq_nonneg.
  unfold fne, f0. apply negb_true_iff, not_true_iff_false. rewrite Qeq_bool_iff.
  exact (Qsqrt_up_neq0 _ H (sumsq_nonneg a b c)).
Qed.

