(* ===== verification/Sphere.v ===== *)
(** * [CSphere] (virtualLego.cpp lines 77-169)

    A ball: centre, radius and velocity, all [double], the local
    transform [m_mLocal] with which [draw] places the mesh ([setCenter]
    keeps it in step with the centre), and whether the mesh
    [m_pSphereMesh] is allocated ([create] allocates it, [destroy]
    releases it).  The material and [draw] only feed rendering and are
    not modelled.

    [getCenter] returns a [D3DXVECTOR3] of [float]s; like every other
    rounding, that conversion is idealised away (see [Double]).

    The balls of the program are the player's bullet [my_bullet] and the
    aim marker [aim_point] (globals, lines 533-534: static storage, so
    their centre is zero before [Setup] positions them) and one bullet per
    enemy (positioned by the [CEnemy] constructor, line 364). *)

From Stdlib Require Import QArith Lqa Setoid Morphisms.
From S2P Require Import Prelude Double Matrix.

Record CSphere : Type := mkSphere {
  center_x : f64;
  center_y : f64;
  center_z : f64;
  m_radius : f64;
  m_velocity_x : f64;
  m_velocity_z : f64;
  m_velocity_y : f64;
  m_mLocal : D3DXMATRIX;
  m_pSphereMesh : bool
}.

(** [#define M_RADIUS 0.05]. *)
Definition M_RADIUS : f64 := Fin 0.05.

(** [CSphere(double radius = M_RADIUS)] (lines 86-94): identity local
    transform, velocity zero; the centre is not set by the constructor
    and is zero in static storage. *)
Definition CSphere_new (radius : f64) : CSphere :=
  {| center_x := Fin 0; center_y := Fin 0; center_z := Fin 0;
     m_radius := radius;
     m_velocity_x := Fin 0; m_velocity_z := Fin 0; m_velocity_y := Fin 0;
     m_mLocal := D3DXMatrixIdentity; m_pSphereMesh := false |}.

(** [setLocalTransform] (line 158). *)
Definition setLocalTransform (mLocal : D3DXMATRIX) (s : CSphere) : CSphere :=
  {| center_x := center_x s; center_y := center_y s; center_z := center_z s;
     m_radius := m_radius s;
     m_velocity_x := m_velocity_x s; m_velocity_z := m_velocity_z s;
     m_velocity_y := m_velocity_y s; m_mLocal := mLocal;
     m_pSphereMesh := m_pSphereMesh s |}.

(** [getLocalTransform] (line 157). *)
Definition getLocalTransform (s : CSphere) : D3DXMATRIX := m_mLocal s.

(** [setCenter] (lines 149-154): the centre, then the translation to it
    as the local transform. *)
Definition setCenter (x y z : f64) (s : CSphere) : CSphere :=
  setLocalTransform (D3DXMatrixTranslation x y z)
    {| center_x := x; center_y := y; center_z := z;
       m_radius := m_radius s;
       m_velocity_x := m_velocity_x s; m_velocity_z := m_velocity_z s;
       m_velocity_y := m_velocity_y s; m_mLocal := m_mLocal s;
       m_pSphereMesh := m_pSphereMesh s |}.

(** [ballUpdate] (lines 130-135): one explicit Euler step. *)
Definition ballUpdate (timeDelta : f64) (s : CSphere) : CSphere :=
  let tX := fadd (center_x s) (fmul (m_velocity_x s) timeDelta) in
  let tY := fadd (center_y s) (fmul (m_velocity_y s) timeDelta) in
  let tZ := fadd (center_z s) (fmul (m_velocity_z s) timeDelta) in
  setCenter tX tY tZ s.

(** [setPower] (lines 137-141): horizontal velocity, vertical set to 0. *)
Definition setPower (vx vz : f64) (s : CSphere) : CSphere :=
  {| center_x := center_x s; center_y := center_y s; center_z := center_z s;
     m_radius := m_radius s;
     m_velocity_x := vx; m_velocity_z := vz; m_velocity_y := Fin 0;
     m_mLocal := m_mLocal s; m_pSphereMesh := m_pSphereMesh s |}.

(** [setPowerY] (lines 143-147). *)
Definition setPowerY (vx vy vz : f64) (s : CSphere) : CSphere :=
  {| center_x := center_x s; center_y := center_y s; center_z := center_z s;
     m_radius := m_radius s;
     m_velocity_x := vx; m_velocity_z := vz; m_velocity_y := vy;
     m_mLocal := m_mLocal s; m_pSphereMesh := m_pSphereMesh s |}.

(** [create(pDevice, color)] (lines 99-112), success path: the mesh of
    radius [getRadius()] is allocated; the material is not modelled. *)
Definition sphere_create (s : CSphere) : CSphere :=
  {| center_x := center_x s; center_y := center_y s; center_z := center_z s;
     m_radius := m_radius s;
     m_velocity_x := m_velocity_x s; m_velocity_z := m_velocity_z s;
     m_velocity_y := m_velocity_y s; m_mLocal := m_mLocal s; m_pSphereMesh := true |}.

(** [destroy] (lines 114-119): releases the mesh if there is one. *)
Definition sphere_destroy (s : CSphere) : CSphere :=
  {| center_x := center_x s; center_y := center_y s; center_z := center_z s;
     m_radius := m_radius s;
     m_velocity_x := m_velocity_x s; m_velocity_z := m_velocity_z s;
     m_velocity_y := m_velocity_y s; m_mLocal := m_mLocal s;
     m_pSphereMesh := false |}.

(** [getRadius] (line 156). *)
Definition getRadius (s : CSphere) : f64 := m_radius s.

(** ** Equality of balls up to [feq] on every field *)

Definition sphere_eq (s t : CSphere) : Prop :=
  feq (center_x s) (center_x t) /\ feq (center_y s) (center_y t) /\
  feq (center_z s) (center_z t) /\ feq (m_radius s) (m_radius t) /\
  feq (m_velocity_x s) (m_velocity_x t) /\ feq (m_velocity_z s) (m_velocity_z t) /\
  feq (m_velocity_y s) (m_velocity_y t) /\ mat_feq (m_mLocal s) (m_mLocal t) /\
  m_pSphereMesh s = m_pSphereMesh t.

#[export] Instance sphere_eq_equiv : Equivalence sphere_eq.
Proof.
  split.
  - intros s. repeat split; reflexivity.
  - intros s t H. unfold sphere_eq in *. intuition (symmetry; assumption).
  - intros s t u H1 H2. unfold sphere_eq in *.
    intuition (etransitivity; eassumption).
Qed.

#[export] Instance setCenter_comp :
  Proper (feq ==> feq ==> feq ==> sphere_eq ==> sphere_eq) setCenter.
Proof.
  intros x x' Hx y y' Hy z z' Hz s s' Hs. unfold sphere_eq in *; simpl.
  destruct Hs as (? & ? & ? & ? & ? & ? & ? & ? & ?).
  repeat split; try assumption. apply Translation_comp; assumption.
Qed.

#[export] Instance ballUpdate_comp : Proper (feq ==> sphere_eq ==> sphere_eq) ballUpdate.
Proof.
  intros d d' Hd s s' Hs. unfold ballUpdate.
  destruct Hs as (Hx & Hy & Hz & Hr & Hvx & Hvz & Hvy & Hm & Hp).
  apply setCenter_comp; try (rewrite ?Hx, ?Hy, ?Hz, ?Hvx, ?Hvy, ?Hvz, ?Hd; reflexivity).
  repeat split; assumption.
Qed.

#[export] Instance setPowerY_comp :
  Proper (feq ==> feq ==> feq ==> sphere_eq ==> sphere_eq) setPowerY.
Proof.
  intros x x' Hx y y' Hy z z' Hz s s' Hs. unfold sphere_eq in *; simpl. tauto.
Qed.

(** ** Euler steps *)

(** A ball with finite zero velocity, drawn at its centre, does not move
    over a finite step. *)
Lemma ballUpdate_still (dt : Q) (s : CSphere) (x y z : Q) :
  center_x s = Fin x -> center_y s = Fin y -> center_z s = Fin z ->
  feq (m_velocity_x s) (Fin 0) -> feq (m_velocity_y s) (Fin 0) ->
  feq (m_velocity_z s) (Fin 0) -> m_mLocal s = D3DXMatrixTranslation (Fin x) (Fin y) (Fin z) ->
  sphere_eq (ballUpdate (Fin dt) s) s.
Proof.
  intros Ex Ey Ez Hvx Hvy Hvz Hm.
  assert (S : forall c v, feq v (Fin 0) -> feq (fadd (Fin c) (fmul v (Fin dt))) (Fin c))
    by (intros c [v|] Hv; simpl in *; [rewrite Hv; ring | contradiction]).
  unfold sphere_eq, ballUpdate; cbn. rewrite Ex, Ey, Ez, Hm.
  repeat split; try reflexivity; try (apply S; assumption).
  apply Translation_comp; apply S; assumption.
Qed.

(** Two Euler steps with an unchanged velocity are one step over the
    summed time. *)
Lemma ballUpdate_add (dt1 dt2 : Q) (s : CSphere) :
  sphere_eq (ballUpdate (Fin dt2) (ballUpdate (Fin dt1) s))
            (ballUpdate (Fin (dt1 + dt2)) s).
Proof.
  assert (E : forall c v, feq (fadd (fadd c (fmul v (Fin dt1))) (fmul v (Fin dt2)))
                              (fadd c (fmul v (Fin (dt1 + dt2)))))
    by (intros [c|] [v|]; simpl; try exact I; ring).
  unfold ballUpdate, sphere_eq; cbn.
  repeat split; try reflexivity; try apply E. apply Translation_comp; apply E.
Qed.

(** An Euler step moves a finite ball by [velocity * dt]. *)
Lemma ballUpdate_center_x (dt x vx : Q) (s : CSphere) :
  center_x s = Fin x -> m_velocity_x s = Fin vx ->
  center_x (ballUpdate (Fin dt) s) = Fin (x + vx * dt).
Proof. intros E V. unfold ballUpdate; simpl. rewrite E, V. reflexivity. Qed.

(** ** The mesh is drawn where the ball is tested

    [draw] places the mesh with [m_mLocal]; collisions read the centre.
    They agree when [m_mLocal] is the translation to the centre. *)
Definition sphere_drawn_at (s : CSphere) : Prop :=
  m_mLocal s = D3DXMatrixTranslation (center_x s) (center_y s) (center_z s).

Lemma CSphere_new_drawn_at (r : f64) : sphere_drawn_at (CSphere_new r).
Proof. reflexivity. Qed.

Lemma setPowerY_drawn_at (vx vy vz : f64) (s : CSphere) :
  sphere_drawn_at s -> sphere_drawn_at (setPowerY vx vy vz s).
Proof. exact (fun H => H). Qed.

Lemma setPower_drawn_at (vx vz : f64) (s : CSphere) :
  sphere_drawn_at s -> sphere_drawn_at (setPower vx vz s).
Proof. exact (fun H => H). Qed.

#[export] Hint Resolve CSphere_new_drawn_at setPowerY_drawn_at setPower_drawn_at : lego.
