(* ===== verification/Wall.v ===== *)
(** * [CWall] (virtualLego.cpp lines 175-265) and the ball-test interface

    An axis-aligned box: centre [(m_x, m_y, m_z)] and extents [m_width]
    (x), [m_height] (y), [m_depth] (z).  Its material colour is kept
    because [CEnemy::hit] recolours the enemy's boxes from a table and can
    read that table out of bounds ([m_color = None]: an indeterminate
    colour).  Mesh creation and drawing are not modelled; [create] is
    modelled on its success path (a failed [D3DXCreateBox] depends on the
    device only).

    [BallTest] is the interface a collision volume offers to the code
    that moves balls: a boolean test against a ball, false as soon as the
    ball's x coordinate is NaN.  [CWall] is its first instance; the
    player's hit volume in [CEnemy::Update] is the second ([Enemy]). *)

From Stdlib Require Import QArith Qabs Lqa Setoid Morphisms ZArith.
From S2P Require Import Prelude Double Matrix Sphere.

(** [D3DXCOLOR] as a red/green/blue triple of bytes; [d3d::WHITE] and the
    like of d3dUtility.h. *)
Definition color : Type := (Z * Z * Z)%type.
Definition RGB (r g b : Z) : color := (r, g, b).
Definition WHITE : color := RGB 255 255 255.
Definition BLACK : color := RGB 0 0 0.
Definition RED : color := RGB 255 0 0.
Definition GREEN : color := RGB 0 255 0.
Definition BLUE : color := RGB 0 0 255.
Definition YELLOW : color := RGB 255 255 0.
Definition CYAN : color := RGB 0 255 255.

Record CWall : Type := mkWall {
  m_x : f64;
  m_y : f64;
  m_z : f64;
  m_width : f64;
  m_height : f64;
  m_depth : f64;
  m_color : option color;
  w_mLocal : D3DXMATRIX;
  m_pBoundMesh : bool
}.

(** [CWall(void)] (lines 187-194): identity local transform, extents
    zero, material zeroed.  The centre is not set; every wall is
    positioned by [setPosition] before a test, and static-storage walls
    start at zero. *)
Definition CWall_new : CWall :=
  {| m_x := Fin 0; m_y := Fin 0; m_z := Fin 0;
     m_width := Fin 0; m_height := Fin 0; m_depth := Fin 0;
     m_color := Some BLACK; w_mLocal := D3DXMatrixIdentity; m_pBoundMesh := false |}.

(** [create] (lines 197-214), success path: the extents, the material
    colour and the mesh [D3DXCreateBox] allocates.  [ix] and [iz] are
    unused by the source. *)
Definition create (ix iz iwidth iheight idepth : f64) (c : color) (w : CWall) : CWall :=
  {| m_x := m_x w; m_y := m_y w; m_z := m_z w;
     m_width := iwidth; m_height := iheight; m_depth := idepth;
     m_color := Some c; w_mLocal := w_mLocal w; m_pBoundMesh := true |}.

(** [setColor] (lines 216-220).  The colour may be indeterminate. *)
Definition setColor (c : option color) (w : CWall) : CWall :=
  {| m_x := m_x w; m_y := m_y w; m_z := m_z w;
     m_width := m_width w; m_height := m_height w; m_depth := m_depth w;
     m_color := c; w_mLocal := w_mLocal w; m_pBoundMesh := m_pBoundMesh w |}.

(** [destroy] (lines 222-227): releases the mesh if there is one. *)
Definition destroy (w : CWall) : CWall :=
  {| m_x := m_x w; m_y := m_y w; m_z := m_z w;
     m_width := m_width w; m_height := m_height w; m_depth := m_depth w;
     m_color := m_color w; w_mLocal := w_mLocal w; m_pBoundMesh := false |}.

(** [setLocalTransform] (line 260, private).  [CSphere] already declares
    [setLocalTransform] and the field [m_mLocal]; the box's are prefixed
    with [w]. *)
Definition wall_setLocalTransform (mLocal : D3DXMATRIX) (w : CWall) : CWall :=
  {| m_x := m_x w; m_y := m_y w; m_z := m_z w;
     m_width := m_width w; m_height := m_height w; m_depth := m_depth w;
     m_color := m_color w; w_mLocal := mLocal; m_pBoundMesh := m_pBoundMesh w |}.

(** [setPosition] (lines 249-257): the centre, then the translation to it
    as the local transform. *)
Definition setPosition (x y z : f64) (w : CWall) : CWall :=
  wall_setLocalTransform (D3DXMatrixTranslation x y z)
    {| m_x := x; m_y := y; m_z := z;
       m_width := m_width w; m_height := m_height w; m_depth := m_depth w;
       m_color := m_color w; w_mLocal := w_mLocal w; m_pBoundMesh := m_pBoundMesh w |}.

(** [draw] places the box's mesh with [w_mLocal]; collisions read
    [(m_x, m_y, m_z)]. *)
Definition wall_drawn_at (w : CWall) : Prop :=
  w_mLocal w = D3DXMatrixTranslation (m_x w) (m_y w) (m_z w).

Lemma setPosition_drawn_at (x y z : f64) (w : CWall) : wall_drawn_at (setPosition x y z w).
Proof. reflexivity. Qed.

Lemma create_drawn_at ix iz wd h d c (w : CWall) :
  wall_drawn_at w -> wall_drawn_at (create ix iz wd h d c w).
Proof. exact (fun H => H). Qed.

Lemma setColor_drawn_at (c : option color) (w : CWall) :
  wall_drawn_at w -> wall_drawn_at (setColor c w).
Proof. exact (fun H => H). Qed.

#[export] Hint Resolve setPosition_drawn_at create_drawn_at setColor_drawn_at : lego.

Definition two : f64 := fofZ 2.

(** [hasIntersected] (lines 237-247): the ball's bounding cube and the box
    overlap strictly on the three axes, tested z, y, x as in the source. *)
Definition hasIntersected (w : CWall) (ball : CSphere) : bool :=
  let cx := center_x ball in
  let cy := center_y ball in
  let cz := center_z ball in
  let r := getRadius ball in
  flt (fsub (m_z w) (fdiv (m_depth w) two)) (fadd cz r) &&
  flt (fsub cz r) (fadd (m_z w) (fdiv (m_depth w) two)) &&
  flt (fsub (m_y w) (fdiv (m_height w) two)) (fadd cy r) &&
  flt (fsub cy r) (fadd (m_y w) (fdiv (m_height w) two)) &&
  flt (fsub (m_x w) (fdiv (m_width w) two)) (fadd cx r) &&
  flt (fsub cx r) (fadd (m_x w) (fdiv (m_width w) two)).

(** ** The ball-test interface *)

Class BallTest (B : Type) := {
  ball_hits : B -> CSphere -> bool;
  ball_hits_nan_x : forall (b : B) (s : CSphere),
      center_x s = NaN -> ball_hits b s = false
}.

Lemma hasIntersected_nan_x (w : CWall) (s : CSphere) :
  center_x s = NaN -> hasIntersected w s = false.
Proof.
  intros E. unfold hasIntersected. rewrite E.
  rewrite fadd_nan_l, fsub_nan_l, flt_nan_l, flt_nan_r.
  rewrite !andb_false_r. reflexivity.
Qed.

#[export] Instance CWall_BallTest : BallTest CWall :=
  {| ball_hits := hasIntersected; ball_hits_nan_x := hasIntersected_nan_x |}.

(** Any element of a list of volumes hits the ball. *)
Definition any_hits {B} `{BallTest B} (l : list B) (s : CSphere) : bool :=
  List.existsb (fun b => ball_hits b s) l.

Lemma any_hits_nan_x {B} `{BallTest B} (l : list B) (s : CSphere) :
  center_x s = NaN -> any_hits l s = false.
Proof.
  intros E. unfold any_hits. induction l as [|b l IH]; simpl; [reflexivity|].
  rewrite ball_hits_nan_x by exact E. exact IH.
Qed.

(** ** What [hasIntersected] computes on finite values *)

(** The ball's interval [[c - r, c + r]] and the box's interval
    [[m - e/2, m + e/2]] overlap strictly on one axis. *)
Definition axis_overlap (c r m e : Q) : Prop :=
  m - e / 2 < c + r /\ c - r < m + e / 2.

Lemma hasIntersected_spec (mx my mz wd h d cx cy cz r : Q) c lw mw vx vz vy ls ms :
  hasIntersected (mkWall (Fin mx) (Fin my) (Fin mz) (Fin wd) (Fin h) (Fin d) c lw mw)
                 (mkSphere (Fin cx) (Fin cy) (Fin cz) (Fin r) vx vz vy ls ms) = true <->
  axis_overlap cz r mz d /\ axis_overlap cy r my h /\ axis_overlap cx r mx wd.
Proof.
  unfold hasIntersected, axis_overlap; simpl.
  rewrite !andb_true_iff, !Qltb_iff. tauto.
Qed.

(** Overlap on an axis is a distance test between the centres. *)
Lemma axis_overlap_abs (c r m e : Q) :
  axis_overlap c r m e <-> Qabs (c - m) < r + e / 2.
Proof. unfold axis_overlap. rewrite Qabs_Qlt_condition. split; intros; lra. Qed.

(** Overlap only grows with the radius. *)
Lemma axis_overlap_mono (c r r' m e : Q) :
  r <= r' -> axis_overlap c r m e -> axis_overlap c r' m e.
Proof. unfold axis_overlap. intros; lra. Qed.

(** The exact test: the squared distance from the centre to the box is
    less than the squared radius. *)
Definition axis_gap (c m e : Q) : Q :=
  if Qle_bool (Qabs (c - m)) (e / 2) then 0 else Qabs (c - m) - e / 2.

Definition sphere_box_exact (mx my mz wd h d cx cy cz r : Q) : Prop :=
  axis_gap cx mx wd * axis_gap cx mx wd + axis_gap cy my h * axis_gap cy my h
  + axis_gap cz mz d * axis_gap cz mz d < r * r.

Lemma axis_gap_nonneg (c m e : Q) : 0 <= axis_gap c m e.
Proof.
  unfold axis_gap. destruct (Qle_bool _ _) eqn:E; [lra|].
  apply Qle_bool_false in E. lra.
Qed.

Lemma axis_gap_overlap (c r m e : Q) :
  0 <= r -> axis_gap c m e * axis_gap c m e < r * r -> axis_overlap c r m e.
Proof.
  intros Hr H. apply axis_overlap_abs. pose proof (Qabs_nonneg (c - m)).
  unfold axis_gap in H. destruct (Qle_bool _ _) eqn:E.
  - apply Qle_bool_iff in E. assert (0 < r) by nra. lra.
  - apply Qle_bool_false in E.
    assert (Qabs (c - m) - e / 2 < r) by nra. lra.
Qed.

(** A finite box and a finite ball of radius [r], with any velocity,
    created and placed at their centres. *)
Definition box (mx my mz wd h d : Q) (c : option color) : CWall :=
  mkWall (Fin mx) (Fin my) (Fin mz) (Fin wd) (Fin h) (Fin d) c
         (D3DXMatrixTranslation (Fin mx) (Fin my) (Fin mz)) true.
Definition ball (cx cy cz r : Q) (vx vz vy : f64) : CSphere :=
  mkSphere (Fin cx) (Fin cy) (Fin cz) (Fin r) vx vz vy
           (D3DXMatrixTranslation (Fin cx) (Fin cy) (Fin cz)) true.

(** C15. [hasIntersected] is the symmetric half-extent test: on each axis
    the distance between the ball's centre and the box's centre is less
    than the radius plus half the box's extent. *)
Theorem hasIntersected_abs (mx my mz wd h d cx cy cz r : Q) c vx vz vy :
  hasIntersected (box mx my mz wd h d c) (ball cx cy cz r vx vz vy) = true <->
  Qabs (cx - mx) < r + wd / 2 /\ Qabs (cy - my) < r + h / 2 /\
  Qabs (cz - mz) < r + d / 2.
Proof.
  unfold box, ball. rewrite hasIntersected_spec, !axis_overlap_abs. tauto.
Qed.

(** C17. [hasIntersected] is monotonic in the radius: a larger ball at the
    same centre overlaps every box the smaller one overlaps. *)
Theorem hasIntersected_radius_mono (mx my mz wd h d cx cy cz r r' : Q) c vx vz vy :
  r <= r' ->
  hasIntersected (box mx my mz wd h d c) (ball cx cy cz r vx vz vy) = true ->
  hasIntersected (box mx my mz wd h d c) (ball cx cy cz r' vx vz vy) = true.
Proof.
  intros Hr. unfold box, ball. rewrite !hasIntersected_spec.
  intros (Hz & Hy & Hx). repeat split; eapply axis_overlap_mono; eassumption.
Qed.

Lemma hasIntersected_radius_mono_witness :
  hasIntersected (box 0 0 0 2 2 2 (Some WHITE)) (ball 1.5 0 0 1 (Fin 0) (Fin 0) (Fin 0)) = true.
Proof.
  apply (hasIntersected_radius_mono 0 0 0 2 2 2 1.5 0 0 0.6 1); by_eval.
Defined.

(** C16. [hasIntersected] over-approximates the exact sphere/box test:
    every ball of nonnegative radius whose centre is closer to the box
    than its radius is reported as intersecting. *)
Theorem hasIntersected_conservative (mx my mz wd h d cx cy cz r : Q) c vx vz vy :
  0 <= r -> sphere_box_exact mx my mz wd h d cx cy cz r ->
  hasIntersected (box mx my mz wd h d c) (ball cx cy cz r vx vz vy) = true.
Proof.
  intros Hr H. unfold sphere_box_exact in H. unfold box, ball.
  pose proof (axis_gap_nonneg cx mx wd). pose proof (axis_gap_nonneg cy my h).
  pose proof (axis_gap_nonneg cz mz d).
  apply hasIntersected_spec. repeat split; apply axis_gap_overlap; auto; nra.
Qed.

Lemma hasIntersected_conservative_witness :
  hasIntersected (box 0 0 0 2 2 2 None) (ball 1.2 1.2 0 0.5 (Fin 0) (Fin 0) (Fin 0)) = true.
Proof.
  apply (hasIntersected_conservative 0 0 0 2 2 2 1.2 1.2 0 0.5); by_eval.
Defined.

(** The converse fails near edges: the bounding cube of this ball meets
    the box although the ball itself does not. *)
Example hasIntersected_corner :
  hasIntersected (box 0 0 0 2 2 2 None) (ball 1.4 1.4 0 0.5 (Fin 0) (Fin 0) (Fin 0)) = true /\
  ~ sphere_box_exact 0 0 0 2 2 2 1.4 1.4 0 0.5.
Proof. split; [reflexivity | by_eval]. Qed.
