(* ===== verification/GridMap.v ===== *)
(** * The map (virtualLego.cpp lines 439-521, 596-603)

    [map] is the [char map[MAP_SIZE][MAP_SIZE + 1]] grid: row [r] is a
    string of 30 characters followed by the terminating NUL, [map[r][c]]
    is [cell].  An index outside the array is undefined behaviour; [cell]
    returns [None] there and the reading functions halt with
    [Undefined].  The tile of world position [(x, z)] is row
    [(int)(15 - z/2)], column [(int)(15 + x/2)] ([map_at]).

    - [goable] and [win] (lines 505-519) probe the four corners
      [(x +- 0.2, z +- 0.2)] of the player's footprint, left to right with
      C's short-circuit [||].
    - [make_map] (lines 472-492) fills the [malloc]ed wall array from its
      end ([--wall_count]), positions the flag, and sets the player spawn
      [pos_x]/[pos_z].
    - The loop of [Cleanup] (lines 598-600) destroys [g_legowalls[i]]
      for [MAP_SIZE * MAP_SIZE] indices.

    The functions take the grid as an argument so that the theorems that
    hold of any bordered grid are stated as such; [map] is the grid of the
    source.  Besides the probes and the loader's bounds, the file proves
    that placement and lookup agree (every loaded wall is read back as a
    wall) and that the flattened scan counts what a row-by-row count
    ([count_rows]) finds. *)

From Stdlib Require Import QArith Qround Lqa ZArith Lia List String Ascii Bool.
From S2P Require Import Prelude Double Sphere Wall.
Import ListNotations.
Open Scope string_scope.

Definition MAP_SIZE : Z := 30.
Definition WORLD_SIZE : Z := 2.
Definition WALL_HEIGHT : Z := 6.

(** [char map[MAP_SIZE][MAP_SIZE + 1]] (lines 439-470). *)
Definition map : list string := [
  "111111111111111111111111111111";
  "100000000000000000000000000001";
  "100000000000000000000000000001";
  "100F000000000000000e0000000001";
  "10000000000000000000e000000001";
  "100000000000000000000000000001";
  "111111111111111111111111000001";
  "100000000000000000000000000001";
  "100000000000000000000000000001";
  "100000000000000000000000000001";
  "10000000000000000000e000000001";
  "100000000e00000000000000000001";
  "100000111111111110000000000001";
  "100000100000000000000000000001";
  "10000010000000000e000000000001";
  "1000e010000e000000000000000001";
  "100000100000000000000000000001";
  "100000111111111111111111111111";
  "100000000000000000000000000001";
  "100000000000000000000000000001";
  "100000000000000e00000000000001";
  "1000000000000000000000000e0001";
  "100000000000000000000000000001";
  "111111111111111111111111000001";
  "100000000000000000000000000001";
  "100000000000000000000000000001";
  "100P00000000000000000000000001";
  "100000000000000000000000000001";
  "100000000000000000000000000001";
  "111111111111111111111111111111"
].
Close Scope string_scope.

(** [map[r][c]]: row [r] holds its 30 characters and the NUL at index
    30; any other index is out of bounds. *)
Definition cell (m : list string) (r c : Z) : option ascii :=
  if (0 <=? r)%Z && (r <? MAP_SIZE)%Z && (0 <=? c)%Z && (c <=? MAP_SIZE)%Z then
    match nth_error m (Z.to_nat r) with
    | Some row => String.get (Z.to_nat c) (row ++ String Ascii.zero EmptyString)
    | None => None
    end
  else None.

(** Reading [map[r][c]]. *)
Definition cell_res (m : list string) (r c : Z) : res ascii :=
  match cell m r c with
  | Some a => Ok a
  | None => Halt (Undefined "map read out of bounds")
  end.

(** [map[(int)(MAP_SIZE / 2 - zz / 2)][(int)(MAP_SIZE / 2 + xx / 2)]]. *)
Definition map_at (m : list string) (zz xx : f64) : res ascii :=
  match ftoint (fsub (fofZ (MAP_SIZE / 2)) (fdiv zz two)),
        ftoint (fadd (fofZ (MAP_SIZE / 2)) (fdiv xx two)) with
  | Some r, Some c => cell_res m r c
  | _, _ => Halt (Undefined "(int) conversion of NaN or of a value out of range")
  end.

(** The four corner probes of [goable] and [win], in the source's order,
    stopping at the first that reads [ch]. *)
Definition any_probe (m : list string) (ch : ascii) (pos_x pos_z : f64) : res bool :=
  let zp := fadd pos_z (Fin 0.2) in
  let zm := fsub pos_z (Fin 0.2) in
  let xp := fadd pos_x (Fin 0.2) in
  let xm := fsub pos_x (Fin 0.2) in
  a1 <- map_at m zp xp ;;
  if Ascii.eqb a1 ch then Ok true else
  a2 <- map_at m zp xm ;;
  if Ascii.eqb a2 ch then Ok true else
  a3 <- map_at m zm xp ;;
  if Ascii.eqb a3 ch then Ok true else
  a4 <- map_at m zm xm ;;
  Ok (Ascii.eqb a4 ch).

(** [goable] (lines 505-511): no corner of the footprint is a wall. *)
Definition goable (m : list string) (pos_x pos_z : f64) : res bool :=
  b <- any_probe m "1"%char pos_x pos_z ;; Ok (negb b).

(** [win] (lines 513-519): a corner of the footprint is the flag. *)
Definition win (m : list string) (pos_x pos_z : f64) : res bool :=
  any_probe m "F"%char pos_x pos_z.

(** ** Probes on finite positions *)

(** The real-valued row and column of a world coordinate. *)
Definition row_of (zz : Q) : Q := 15 - zz / 2.
Definition col_of (xx : Q) : Q := 15 + xx / 2.

Lemma map_at_Fin (m : list string) (zz xx : Q) :
  -1 < row_of zz < 31 -> -1 < col_of xx < 31 ->
  map_at m (Fin zz) (Fin xx) = cell_res m (Qtrunc (row_of zz)) (Qtrunc (col_of xx)).
Proof.
  unfold row_of, col_of. intros [Hr1 Hr2] [Hc1 Hc2].
  unfold map_at. cbn -[Qtrunc cell_res ftoint].
  change (inject_Z 15) with 15. change (inject_Z 2) with 2.
  pose proof (Qtrunc_range 30 (15 - zz / 2)) as R.
  pose proof (Qtrunc_range 30 (15 + xx / 2)) as C.
  rewrite !ftoint_Fin; [reflexivity | unfold int_min, int_max.. ];
    [ specialize (C ltac:(lia) Hc1 ltac:(qlra))
    | specialize (R ltac:(lia) Hr1 ltac:(qlra)) ]; lia.
Qed.

(** When the four reads are defined, [any_probe] is the disjunction of
    their tests. *)
Lemma any_probe_spec (m : list string) (ch a1 a2 a3 a4 : ascii) (x z : f64) :
  map_at m (fadd z (Fin 0.2)) (fadd x (Fin 0.2)) = Ok a1 ->
  map_at m (fadd z (Fin 0.2)) (fsub x (Fin 0.2)) = Ok a2 ->
  map_at m (fsub z (Fin 0.2)) (fadd x (Fin 0.2)) = Ok a3 ->
  map_at m (fsub z (Fin 0.2)) (fsub x (Fin 0.2)) = Ok a4 ->
  any_probe m ch x z =
    Ok (Ascii.eqb a1 ch || Ascii.eqb a2 ch || Ascii.eqb a3 ch || Ascii.eqb a4 ch).
Proof.
  intros E1 E2 E3 E4. unfold any_probe. rewrite E1; simpl.
  destruct (Ascii.eqb a1 ch); [reflexivity|]. rewrite E2; simpl.
  destruct (Ascii.eqb a2 ch); [reflexivity|]. rewrite E3; simpl.
  destruct (Ascii.eqb a3 ch); [reflexivity|]. rewrite E4; simpl.
  reflexivity.
Qed.

(** The footprint [(x +- 0.2, z +- 0.2)] lies inside tile [(r, c)]. *)
Definition in_tile (r c : Z) (x z : Q) : Prop :=
  inject_Z (2 * c - 30) <= x - 0.2 /\ x + 0.2 < inject_Z (2 * c - 28) /\
  inject_Z (28 - 2 * r) < z - 0.2 /\ z + 0.2 <= inject_Z (30 - 2 * r).

Lemma in_tile_index (r c : Z) (x z dz dx : Q) :
  (0 <= r < 30)%Z -> (0 <= c < 30)%Z -> in_tile r c x z ->
  (dz == 0.2 \/ dz == -0.2) -> (dx == 0.2 \/ dx == -0.2) ->
  Qtrunc (row_of (z + dz)) = r /\ Qtrunc (col_of (x + dx)) = c.
Proof.
  unfold in_tile, row_of, col_of. intros Hr Hc (H1 & H2 & H3 & H4) Hdz Hdx.
  split; apply Qtrunc_exact; try lia; destruct Hdz, Hdx; qlra.
Qed.

Lemma in_tile_map_at (m : list string) (r c : Z) (x z dz dx : Q) :
  (0 <= r < 30)%Z -> (0 <= c < 30)%Z -> in_tile r c x z ->
  (dz == 0.2 \/ dz == -0.2) -> (dx == 0.2 \/ dx == -0.2) ->
  map_at m (Fin (z + dz)) (Fin (x + dx)) = cell_res m r c.
Proof.
  intros Hr Hc Ht Hdz Hdx.
  destruct (in_tile_index r c x z dz dx Hr Hc Ht Hdz Hdx) as [Er Ec].
  pose proof (Zrange_Q 0 29 r ltac:(lia)). pose proof (Zrange_Q 0 29 c ltac:(lia)).
  unfold in_tile in Ht. destruct Ht as (H1 & H2 & H3 & H4).
  rewrite map_at_Fin by (unfold row_of, col_of; split; destruct Hdz, Hdx; qlra).
  rewrite Er, Ec. reflexivity.
Qed.

Lemma any_probe_in_tile (m : list string) (ch a : ascii) (r c : Z) (x z : Q) :
  (0 <= r < 30)%Z -> (0 <= c < 30)%Z -> in_tile r c x z -> cell m r c = Some a ->
  any_probe m ch (Fin x) (Fin z) = Ok (Ascii.eqb a ch).
Proof.
  intros Hr Hc Ht Hcell.
  assert (E : forall dz dx, (dz == 0.2 \/ dz == -0.2) -> (dx == 0.2 \/ dx == -0.2) ->
                map_at m (Fin (z + dz)) (Fin (x + dx)) = Ok a).
  { intros dz dx Hz Hx. rewrite (in_tile_map_at m r c x z dz dx); try assumption.
    unfold cell_res. rewrite Hcell. reflexivity. }
  rewrite (any_probe_spec m ch a a a a); simpl;
    try (apply E; (left; reflexivity) || (right; reflexivity)).
  destruct (Ascii.eqb a ch); reflexivity.
Qed.

(** The centre of tile [(r, c)], where [make_map] puts that tile's wall. *)
Definition tile_center_x (c : Z) : Q := inject_Z (c * WORLD_SIZE - (MAP_SIZE - 1) * WORLD_SIZE / 2)%Z.
Definition tile_center_z (r : Z) : Q :=
  inject_Z ((MAP_SIZE - r) * WORLD_SIZE - (MAP_SIZE + 1) * WORLD_SIZE / 2).

Lemma tile_center_in_tile (r c : Z) : in_tile r c (tile_center_x c) (tile_center_z r).
Proof.
  unfold in_tile, tile_center_x, tile_center_z, MAP_SIZE, WORLD_SIZE.
  change ((30 - 1) * 2 / 2)%Z with 29%Z. change ((30 + 1) * 2 / 2)%Z with 31%Z.
  repeat split; qlra.
Qed.

(** C14. World position and tile agree: when the player's footprint lies
    inside tile [(r, c)] (in particular at the tile's centre, where
    [make_map] puts its wall), all four probes of [goable] and [win] read
    that tile, so [goable] answers whether it is not a wall and [win]
    whether it is the flag. *)
Theorem goable_win_in_tile (m : list string) (a : ascii) (r c : Z) (x z : Q) :
  (0 <= r < 30)%Z -> (0 <= c < 30)%Z -> in_tile r c x z -> cell m r c = Some a ->
  goable m (Fin x) (Fin z) = Ok (negb (Ascii.eqb a "1")) /\
  win m (Fin x) (Fin z) = Ok (Ascii.eqb a "F").
Proof.
  intros Hr Hc Ht Hcell. unfold goable, win.
  rewrite !(any_probe_in_tile m _ a r c x z Hr Hc Ht Hcell). split; reflexivity.
Qed.

(** The player spawn tile [(26, 3)] of [map] is passable and the flag tile
    [(3, 3)] wins, read at their centres. *)
Lemma goable_win_in_tile_witness :
  goable map (Fin (tile_center_x 3)) (Fin (tile_center_z 26)) = Ok true /\
  win map (Fin (tile_center_x 3)) (Fin (tile_center_z 3)) = Ok true.
Proof.
  split.
  - exact (proj1 (goable_win_in_tile map "P" 26 3 _ _ ltac:(lia) ltac:(lia)
                    (tile_center_in_tile 26 3) eq_refl)).
  - exact (proj2 (goable_win_in_tile map "F" 3 3 _ _ ltac:(lia) ltac:(lia)
                    (tile_center_in_tile 3 3) eq_refl)).
Defined.

(** ** No out-of-bounds read inside the map *)

(** The grid has 30 rows of 30 characters, as the array type requires. *)
Definition map_wf (m : list string) : Prop :=
  List.length m = 30%nat /\ Forall (fun row => String.length row = 30%nat) m.

Lemma string_get_lt (n : nat) (s : string) :
  (n < String.length s)%nat -> exists a, String.get n s = Some a.
Proof.
  revert n. induction s as [|a s IH]; simpl; intros n H; [lia|].
  destruct n as [|n]; [eauto | apply IH; lia].
Qed.

Lemma string_length_app (s t : string) :
  String.length (s ++ t) = (String.length s + String.length t)%nat.
Proof. induction s as [|a s IH]; simpl; [reflexivity | rewrite IH; reflexivity]. Qed.

Lemma cell_defined (m : list string) (r c : Z) :
  map_wf m -> (0 <= r < 30)%Z -> (0 <= c <= 30)%Z -> exists a, cell m r c = Some a.
Proof.
  intros [Hlen Hrows] Hr Hc. unfold cell, MAP_SIZE.
  replace ((0 <=? r) && (r <? 30) && (0 <=? c) && (c <=? 30))%Z with true
    by (symmetry; rewrite !andb_true_iff, Z.leb_le, Z.ltb_lt, Z.leb_le, Z.leb_le; lia).
  destruct (nth_error m (Z.to_nat r)) as [row|] eqn:E.
  - apply string_get_lt. rewrite string_length_app.
    apply nth_error_In in E. rewrite Forall_forall in Hrows. rewrite (Hrows row E).
    simpl. lia.
  - apply nth_error_None in E. lia.
Qed.

Lemma map_at_defined (m : list string) (zz xx : Q) :
  map_wf m -> -1 < row_of zz < 30 -> -1 < col_of xx < 30 ->
  exists a, map_at m (Fin zz) (Fin xx) = Ok a /\
            cell m (Qtrunc (row_of zz)) (Qtrunc (col_of xx)) = Some a.
Proof.
  intros Hwf [Hr1 Hr2] [Hc1 Hc2].
  pose proof (Qtrunc_range 29 (row_of zz) ltac:(lia) Hr1 ltac:(qlra)).
  pose proof (Qtrunc_range 29 (col_of xx) ltac:(lia) Hc1 ltac:(qlra)).
  destruct (cell_defined m (Qtrunc (row_of zz)) (Qtrunc (col_of xx)) Hwf) as [a Ha];
    [lia | lia |].
  exists a. split; [|exact Ha].
  rewrite map_at_Fin by (split; qlra). unfold cell_res. rewrite Ha. reflexivity.
Qed.

(** The region where every probe of [goable] and [win] is in the array. *)
Definition in_bounds (x z : Q) : Prop := -29.8 < x < 29.8 /\ -29.8 < z < 29.8.

(** The four reads of [any_probe] at a position inside the map, with the
    tiles they read. *)
Lemma probes_defined (m : list string) (x z : Q) :
  map_wf m -> in_bounds x z ->
  exists a1 a2 a3 a4,
    map_at m (fadd (Fin z) (Fin 0.2)) (fadd (Fin x) (Fin 0.2)) = Ok a1 /\
    map_at m (fadd (Fin z) (Fin 0.2)) (fsub (Fin x) (Fin 0.2)) = Ok a2 /\
    map_at m (fsub (Fin z) (Fin 0.2)) (fadd (Fin x) (Fin 0.2)) = Ok a3 /\
    map_at m (fsub (Fin z) (Fin 0.2)) (fsub (Fin x) (Fin 0.2)) = Ok a4 /\
    cell m (Qtrunc (row_of (z + 0.2))) (Qtrunc (col_of (x + 0.2))) = Some a1 /\
    cell m (Qtrunc (row_of (z + 0.2))) (Qtrunc (col_of (x - 0.2))) = Some a2 /\
    cell m (Qtrunc (row_of (z - 0.2))) (Qtrunc (col_of (x + 0.2))) = Some a3 /\
    cell m (Qtrunc (row_of (z - 0.2))) (Qtrunc (col_of (x - 0.2))) = Some a4.
Proof.
  intros Hwf [[Hx1 Hx2] [Hz1 Hz2]]. simpl.
  destruct (map_at_defined m (z + 0.2) (x + 0.2)) as (a1 & E1 & C1);
    [exact Hwf | unfold row_of; split; qlra | unfold col_of; split; qlra |].
  destruct (map_at_defined m (z + 0.2) (x - 0.2)) as (a2 & E2 & C2);
    [exact Hwf | unfold row_of; split; qlra | unfold col_of; split; qlra |].
  destruct (map_at_defined m (z - 0.2) (x + 0.2)) as (a3 & E3 & C3);
    [exact Hwf | unfold row_of; split; qlra | unfold col_of; split; qlra |].
  destruct (map_at_defined m (z - 0.2) (x - 0.2)) as (a4 & E4 & C4);
    [exact Hwf | unfold row_of; split; qlra | unfold col_of; split; qlra |].
  exists a1, a2, a3, a4. repeat split; assumption.
Qed.

(** [goable] and [win] never read outside [map] at a position inside
    the map: on a well-formed grid, for every finite position with
    [|x|, |z| < 29.8], both return a value instead of undefined
    behaviour. *)
Lemma goable_win_defined (m : list string) (x z : Q) :
  map_wf m -> in_bounds x z ->
  (exists b, goable m (Fin x) (Fin z) = Ok b) /\ (exists b, win m (Fin x) (Fin z) = Ok b).
Proof.
  intros Hwf Hin.
  destruct (probes_defined m x z Hwf Hin) as (a1 & a2 & a3 & a4 & E1 & E2 & E3 & E4 & _).
  unfold goable, win.
  rewrite !(any_probe_spec m _ a1 a2 a3 a4 (Fin x) (Fin z) E1 E2 E3 E4).
  split; eexists; reflexivity.
Qed.

(** ** A bordered grid keeps the player strictly inside *)

(** The outer rows and columns are walls, as in [map]. *)
Definition bordered (m : list string) : Prop :=
  forall k, (0 <= k < 30)%Z ->
    cell m 0 k = Some "1"%char /\ cell m 29 k = Some "1"%char /\
    cell m k 0 = Some "1"%char /\ cell m k 29 = Some "1"%char.

Lemma border_cell (m : list string) (r c : Z) (a : ascii) :
  bordered m -> (0 <= r <= 29)%Z -> (0 <= c <= 29)%Z ->
  (r = 0 \/ r = 29 \/ c = 0 \/ c = 29)%Z -> cell m r c = Some a -> a = "1"%char.
Proof.
  intros Hb Hr Hc Hedge Hcell.
  destruct Hedge as [ -> | [ -> | [ -> | -> ] ] ];
    [ destruct (Hb c ltac:(lia)) as (H & _ & _ & _)
    | destruct (Hb c ltac:(lia)) as (_ & H & _ & _)
    | destruct (Hb r ltac:(lia)) as (_ & _ & H & _)
    | destruct (Hb r ltac:(lia)) as (_ & _ & _ & H) ];
    rewrite Hcell in H; injection H as H; exact H.
Qed.

(** Where a passable footprint can be: two tenths inside the border
    tiles. *)
Definition interior (x z : Q) : Prop := -27.8 <= x < 27.8 /\ -27.8 < z <= 27.8.

(** The border-tile test of one probe: a probe whose row or column is on
    the border reads a wall. *)
Lemma probe_not_border (m : list string) (zz xx : Q) (a : ascii) :
  bordered m -> -1 < row_of zz < 30 -> -1 < col_of xx < 30 ->
  cell m (Qtrunc (row_of zz)) (Qtrunc (col_of xx)) = Some a ->
  Ascii.eqb a "1" = false ->
  1 <= row_of zz < 29 /\ 1 <= col_of xx < 29.
Proof.
  intros Hb [Hr1 Hr2] [Hc1 Hc2] Hcell Hne.
  pose proof (Qtrunc_range 29 (row_of zz) ltac:(lia) Hr1 ltac:(qlra)) as Rr.
  pose proof (Qtrunc_range 29 (col_of xx) ltac:(lia) Hc1 ltac:(qlra)) as Rc.
  assert (Hedge : ~ (Qtrunc (row_of zz) = 0 \/ Qtrunc (row_of zz) = 29 \/
                     Qtrunc (col_of xx) = 0 \/ Qtrunc (col_of xx) = 29)%Z).
  { intros Hedge. rewrite (border_cell m _ _ a Hb Rr Rc Hedge Hcell) in Hne.
    discriminate Hne. }
  repeat split.
  - destruct (Qlt_le_dec (row_of zz) 1) as [H|H]; [|exact H].
    exfalso. apply Hedge. left. apply Qtrunc_small; qlra.
  - destruct (Qlt_le_dec (row_of zz) 29) as [H|H]; [exact H|].
    exfalso. apply Hedge. right; left. pose proof (Qtrunc_ge 29 _ ltac:(lia) H). lia.
  - destruct (Qlt_le_dec (col_of xx) 1) as [H|H]; [|exact H].
    exfalso. apply Hedge. right; right; left. apply Qtrunc_small; qlra.
  - destruct (Qlt_le_dec (col_of xx) 29) as [H|H]; [exact H|].
    exfalso. apply Hedge. right; right; right. pose proof (Qtrunc_ge 29 _ ltac:(lia) H). lia.
Qed.

(** On a well-formed bordered grid, a position inside the map that
    [goable] accepts is strictly interior: its footprint avoids the
    border tiles, [-27.8 <= x < 27.8] and [-27.8 < z <= 27.8]. *)
Lemma goable_interior (m : list string) (x z : Q) :
  map_wf m -> bordered m -> in_bounds x z ->
  goable m (Fin x) (Fin z) = Ok true -> interior x z.
Proof.
  intros Hwf Hb Hin Hgo.
  destruct (probes_defined m x z Hwf Hin)
    as (a1 & a2 & a3 & a4 & E1 & E2 & E3 & E4 & C1 & C2 & C3 & C4).
  unfold goable in Hgo. rewrite (any_probe_spec m _ a1 a2 a3 a4 _ _ E1 E2 E3 E4) in Hgo.
  simpl in Hgo. injection Hgo as Hgo.
  apply negb_true_iff in Hgo. rewrite !orb_false_iff in Hgo.
  destruct Hgo as [[[N1 N2] N3] N4].
  destruct Hin as [[Hx1 Hx2] [Hz1 Hz2]].
  assert (R : -1 < row_of (z + 0.2) < 30 /\ -1 < row_of (z - 0.2) < 30)
    by (unfold row_of; split; split; qlra).
  assert (K : -1 < col_of (x + 0.2) < 30 /\ -1 < col_of (x - 0.2) < 30)
    by (unfold col_of; split; split; qlra).
  destruct R as [Rp Rm]. destruct K as [Kp Km].
  pose proof (probe_not_border m _ _ a1 Hb Rp Kp C1 N1) as [P1r P1c].
  pose proof (probe_not_border m _ _ a4 Hb Rm Km C4 N4) as [P4r P4c].
  unfold row_of, col_of in *. unfold interior. repeat split; qlra.
Qed.

(** A NaN coordinate makes the first probe's [(int)] conversion
    undefined. *)
Lemma any_probe_nan (m : list string) (ch : ascii) (x z : f64) :
  x = NaN \/ z = NaN ->
  any_probe m ch x z = Halt (Undefined "(int) conversion of NaN or of a value out of range").
Proof.
  intros [-> | ->]; unfold any_probe, map_at, two, fofZ;
    [destruct z | destruct x]; cbn [fadd fsub fdiv ftoint];
    repeat match goal with |- context [ftoint ?a] => destruct (ftoint a) end;
    reflexivity.
Qed.

(** Boolean checks of the two shape properties, for a concrete grid. *)
Definition map_wf_b (m : list string) : bool :=
  (List.length m =? 30)%nat && forallb (fun row => (String.length row =? 30)%nat) m.

Definition cell_is (m : list string) (r c : Z) (ch : ascii) : bool :=
  match cell m r c with Some a => Ascii.eqb a ch | None => false end.

Definition bordered_b (m : list string) : bool :=
  forallb (fun k => cell_is m 0 k "1" && cell_is m 29 k "1" &&
                    cell_is m k 0 "1" && cell_is m k 29 "1")
          (List.map Z.of_nat (seq 0 30)).

Lemma map_wf_b_spec (m : list string) : map_wf_b m = true -> map_wf m.
Proof.
  unfold map_wf_b, map_wf. rewrite andb_true_iff, Nat.eqb_eq, forallb_forall.
  intros [H1 H2]. split; [exact H1|]. apply Forall_forall.
  intros row Hrow. apply Nat.eqb_eq, H2, Hrow.
Qed.

Lemma cell_is_spec (m : list string) (r c : Z) (ch : ascii) :
  cell_is m r c ch = true -> cell m r c = Some ch.
Proof.
  unfold cell_is. destruct (cell m r c) as [a|]; [|discriminate].
  intros H. apply Ascii.eqb_eq in H. subst. reflexivity.
Qed.

Lemma bordered_b_spec (m : list string) : bordered_b m = true -> bordered m.
Proof.
  unfold bordered_b, bordered. rewrite forallb_forall. intros H k Hk.
  assert (Hin : In k (List.map Z.of_nat (seq 0 30))).
  { apply in_map_iff. exists (Z.to_nat k). split; [lia|]. apply in_seq. lia. }
  specialize (H k Hin). rewrite !andb_true_iff in H.
  destruct H as [[[H1 H2] H3] H4].
  repeat split; apply cell_is_spec; assumption.
Qed.

Lemma map_shape : map_wf map /\ bordered map.
Proof. split; [apply map_wf_b_spec | apply bordered_b_spec]; vm_compute; reflexivity. Qed.

(** ** Loading the map: [make_map] (lines 472-492) *)

(** [k] runs over [0 .. MAP_SIZE * MAP_SIZE - 1]; its tile is
    [(k / MAP_SIZE, k % MAP_SIZE)]. *)
Definition scan : list Z := List.map Z.of_nat (seq 0 (Z.to_nat (MAP_SIZE * MAP_SIZE))).

(** The first loop (line 474): the number of ['1'] tiles. *)
Definition count_char (m : list string) (ch : ascii) : Z :=
  Z.of_nat (List.length
    (List.filter (fun k => cell_is m (k / MAP_SIZE)%Z (k mod MAP_SIZE)%Z ch) scan)).

(** The reference count the flattened scan computes: row by row, the
    characters of each row equal to [ch]. *)
Definition count_row (row : string) (ch : ascii) : nat :=
  List.length (List.filter (fun a => Ascii.eqb a ch) (list_ascii_of_string row)).

Definition count_rows (m : list string) (ch : ascii) : Z :=
  Z.of_nat (list_sum (List.map (fun row => count_row row ch) m)).

(** [a[i] = x] on an array. *)
Fixpoint set_nth {A} (l : list A) (i : nat) (x : A) : list A :=
  match l, i with
  | [], _ => []
  | _ :: l, O => x :: l
  | y :: l, S i => y :: set_nth l i x
  end.

(** The wall of tile [(r, c)] (lines 479-480): created [WORLD_SIZE] wide
    and deep, [WALL_HEIGHT] high, white, centred on the tile.  The slot is
    uninitialised [malloc]ed memory; [create] and [setPosition] write every
    modelled field, so the slot's old contents do not matter. *)
Definition tile_box (r c : Z) (col : color) (w : CWall) : CWall :=
  setPosition (fofZ (c * WORLD_SIZE - (MAP_SIZE - 1) * WORLD_SIZE / 2)%Z)
              (fofZ (WALL_HEIGHT / 2)%Z)
              (fofZ ((MAP_SIZE - r) * WORLD_SIZE - (MAP_SIZE + 1) * WORLD_SIZE / 2)%Z)
              (create (fofZ (-1)) (fofZ (-1)) (fofZ WORLD_SIZE) (fofZ WALL_HEIGHT)
                      (fofZ WORLD_SIZE) col w).

(** What [make_map] writes: the wall array ([None]: a slot not written
    yet), the countdown [wall_count], [g_legoFlag], and the globals
    [pos_x], [pos_z]. *)
Record MapLoad : Type := mkLoad {
  walls_arr : list (option CWall);
  wall_count : Z;
  g_legoFlag : CWall;
  load_pos_x : f64;
  load_pos_z : f64
}.

(** One iteration of the second loop (lines 478-489). *)
Definition make_map_step (m : list string) (st : MapLoad) (k : Z) : res MapLoad :=
  let r := (k / MAP_SIZE)%Z in
  let c := (k mod MAP_SIZE)%Z in
  match cell m r c with
  | Some a =>
      if Ascii.eqb a "1" then
        let i := (wall_count st - 1)%Z in
        if (0 <=? i)%Z && (i <? Z.of_nat (List.length (walls_arr st)))%Z then
          Ok (mkLoad (set_nth (walls_arr st) (Z.to_nat i) (Some (tile_box r c WHITE CWall_new)))
                     i (g_legoFlag st) (load_pos_x st) (load_pos_z st))
        else Halt (Undefined "g_legowalls[--wall_count] out of bounds")
      else if Ascii.eqb a "F" then
        Ok (mkLoad (walls_arr st) (wall_count st) (tile_box r c YELLOW (g_legoFlag st))
                   (load_pos_x st) (load_pos_z st))
      else if Ascii.eqb a "P" then
        Ok (mkLoad (walls_arr st) (wall_count st) (g_legoFlag st)
                   (fofZ ((MAP_SIZE / 2 - r) * WORLD_SIZE - WORLD_SIZE / 2)%Z)
                   (fofZ ((c - MAP_SIZE / 2) * WORLD_SIZE + WORLD_SIZE / 2)%Z))
      else Ok st
  | None => Ok st
  end.

Fixpoint fold_res {A B} (f : A -> B -> res A) (l : list B) (a : A) : res A :=
  match l with
  | [] => Ok a
  | b :: l => a' <- f a b ;; fold_res f l a'
  end.

(** [make_map] from the flag and player position before the call. *)
Definition make_map (m : list string) (flag : CWall) (pos_x pos_z : f64) : res MapLoad :=
  let n := count_char m "1" in
  fold_res (make_map_step m) scan
    (mkLoad (List.repeat None (Z.to_nat n)) n flag pos_x pos_z).

(** The loop of [Cleanup] (lines 598-600): [g_legowalls[i].destroy()]
    for [i] from 0 while [i < MAP_SIZE * MAP_SIZE], although the array
    has [wall_num] elements; [fuel] counts the iterations left.  [Cleanup]
    itself is in [Frame]. *)
Fixpoint cleanup_walls (walls : list CWall) (i : nat) (fuel : nat) : res (list CWall) :=
  match fuel with
  | O => Ok walls
  | S fuel =>
      match nth_error walls i with
      | Some w => cleanup_walls (set_nth walls i (destroy w)) (S i) fuel
      | None => Halt (Undefined "g_legowalls[i] out of bounds in Cleanup")
      end
  end.

(** ** Properties of the loader *)

Definition is_wall_key (m : list string) (k : Z) : bool :=
  cell_is m (k / MAP_SIZE)%Z (k mod MAP_SIZE)%Z "1".

Definition wall_of_key (k : Z) : CWall :=
  tile_box (k / MAP_SIZE)%Z (k mod MAP_SIZE)%Z WHITE CWall_new.

Lemma set_nth_repeat {A} (n : nat) (x : A) (l : list A) :
  set_nth (List.repeat None (S n) ++ List.map Some l) n (Some x)
  = List.repeat None n ++ List.map Some (x :: l).
Proof. induction n as [|n IH]; simpl; [reflexivity | f_equal; exact IH]. Qed.

Lemma make_map_step_wall (m : list string) (st : MapLoad) (k : Z) (n : nat)
      (tail : list CWall) :
  is_wall_key m k = true ->
  walls_arr st = List.repeat None (S n) ++ List.map Some tail ->
  wall_count st = Z.of_nat (S n) ->
  make_map_step m st k =
    Ok (mkLoad (List.repeat None n ++ List.map Some (wall_of_key k :: tail)) (Z.of_nat n)
               (g_legoFlag st) (load_pos_x st) (load_pos_z st)).
Proof.
  unfold is_wall_key, cell_is, make_map_step. cbv zeta. intros W Harr Hcnt.
  destruct (cell m (k / MAP_SIZE)%Z (k mod MAP_SIZE)%Z) as [a|]; [|discriminate].
  rewrite W, Harr, Hcnt, List.length_app, List.repeat_length, List.length_map.
  replace ((0 <=? Z.of_nat (S n) - 1) && (Z.of_nat (S n) - 1 <? Z.of_nat (S n + List.length tail)))%Z
    with true by (symmetry; rewrite andb_true_iff, Z.leb_le, Z.ltb_lt; lia).
  replace (Z.to_nat (Z.of_nat (S n) - 1)) with n by lia.
  rewrite set_nth_repeat. do 2 f_equal. lia.
Qed.

Lemma make_map_step_other (m : list string) (st : MapLoad) (k : Z) :
  is_wall_key m k = false ->
  exists st', make_map_step m st k = Ok st' /\
              walls_arr st' = walls_arr st /\ wall_count st' = wall_count st.
Proof.
  unfold is_wall_key, cell_is, make_map_step. cbv zeta. intros W.
  destruct (cell m (k / MAP_SIZE)%Z (k mod MAP_SIZE)%Z) as [a|]; [|eauto].
  rewrite W. destruct (Ascii.eqb a "F"); [|destruct (Ascii.eqb a "P")]; eauto.
Qed.

Lemma make_map_fold (m : list string) (ks : list Z) (st : MapLoad) (n : nat)
      (tail : list CWall) :
  walls_arr st = List.repeat None n ++ List.map Some tail ->
  wall_count st = Z.of_nat n ->
  n = List.length (List.filter (is_wall_key m) ks) ->
  exists st', fold_res (make_map_step m) ks st = Ok st' /\ wall_count st' = 0%Z /\
    walls_arr st' = List.map Some (List.map wall_of_key (rev (List.filter (is_wall_key m) ks)) ++ tail).
Proof.
  revert st n tail. induction ks as [|k ks IH]; intros st n tail Harr Hcnt Hn.
  - simpl in Hn. subst n. exists st. simpl in *. rewrite Harr. auto.
  - simpl in Hn |- *. destruct (is_wall_key m k) eqn:W.
    + destruct n as [|n]; [discriminate|]. injection Hn as Hn.
      rewrite (make_map_step_wall m st k n tail W Harr Hcnt). simpl.
      destruct (IH (mkLoad (List.repeat None n ++ List.map Some (wall_of_key k :: tail))
                         (Z.of_nat n) (g_legoFlag st) (load_pos_x st) (load_pos_z st))
                   n (wall_of_key k :: tail) eq_refl eq_refl Hn) as (st' & Hf & Hc & Ha).
      exists st'. split; [exact Hf|]. split; [exact Hc|]. rewrite Ha.
      simpl. rewrite (List.map_app wall_of_key). simpl. rewrite <- List.app_assoc. reflexivity.
    + destruct (make_map_step_other m st k W) as (st1 & E & Ha & Hc). rewrite E. simpl.
      apply (IH st1 n tail); [rewrite Ha | rewrite Hc |]; assumption.
Qed.

(** The fill loop shared by [locate_enemy] (lines 499-502): for each [k]
    of the scan that passes [p], [arr[--count] = f(k)]. *)
Definition fill_step {A} (p : Z -> bool) (f : Z -> A) (st : list (option A) * Z) (k : Z)
  : res (list (option A) * Z) :=
  let (arr, count) := st in
  if p k then
    let i := (count - 1)%Z in
    if (0 <=? i)%Z && (i <? Z.of_nat (List.length arr))%Z then
      Ok (set_nth arr (Z.to_nat i) (Some (f k)), i)
    else Halt (Undefined "array[--count] out of bounds")
  else Ok st.

Lemma fill_fold {A} (p : Z -> bool) (f : Z -> A) (ks : list Z) (n : nat) (tail : list A) :
  n = List.length (List.filter p ks) ->
  fold_res (fill_step p f) ks (List.repeat None n ++ List.map Some tail, Z.of_nat n)
  = Ok (List.map Some (List.map f (rev (List.filter p ks)) ++ tail), 0%Z).
Proof.
  revert n tail. induction ks as [|k ks IH]; intros n tail Hn.
  - simpl in *. subst n. reflexivity.
  - simpl in Hn |- *. destruct (p k) eqn:P.
    + destruct n as [|n]; [discriminate|]. injection Hn as Hn.
      rewrite List.length_app, List.repeat_length, List.length_map.
      replace ((0 <=? Z.of_nat (S n) - 1) && (Z.of_nat (S n) - 1 <? Z.of_nat (S n + List.length tail)))%Z
        with true by (symmetry; rewrite andb_true_iff, Z.leb_le, Z.ltb_lt; lia).
      replace (Z.to_nat (Z.of_nat (S n) - 1)) with n by lia.
      rewrite set_nth_repeat.
      replace (Z.of_nat (S n) - 1)%Z with (Z.of_nat n) by lia.
      rewrite res_bind_ok, (IH n (f k :: tail) Hn). cbn [rev].
      rewrite (List.map_app f). simpl. rewrite <- List.app_assoc. reflexivity.
    + apply IH. exact Hn.
Qed.

(** The loader's result, shared by the theorems below. *)
Lemma make_map_result (m : list string) (flag : CWall) (pos_x pos_z : f64) :
  exists st, make_map m flag pos_x pos_z = Ok st /\ wall_count st = 0%Z /\
    walls_arr st = List.map Some (List.map wall_of_key (rev (List.filter (is_wall_key m) scan))).
Proof.
  unfold make_map, count_char. cbv zeta.
  destruct (make_map_fold m scan
              (mkLoad (List.repeat None (List.length (List.filter (is_wall_key m) scan)))
                      (Z.of_nat (List.length (List.filter (is_wall_key m) scan))) flag pos_x pos_z)
              _ [] (eq_sym (List.app_nil_r _)) eq_refl eq_refl) as (st & H1 & H2 & H3).
  exists st. rewrite List.app_nil_r in H3. rewrite Nat2Z.id.
  split; [exact H1 | split; assumption].
Qed.

(** C20. [make_map] writes inside the [malloc]ed wall array and fills it
    exactly: every [--wall_count] store is in bounds, the countdown ends
    at 0, and the array holds the walls of the ['1'] tiles in reverse scan
    order, each a [WORLD_SIZE] x [WALL_HEIGHT] x [WORLD_SIZE] box at its
    tile's centre. *)
Theorem make_map_fills (m : list string) (flag : CWall) (pos_x pos_z : f64) :
  exists st, make_map m flag pos_x pos_z = Ok st /\ wall_count st = 0%Z /\
    walls_arr st = List.map Some (List.map wall_of_key (rev (List.filter (is_wall_key m) scan))).
Proof. exact (make_map_result m flag pos_x pos_z). Qed.

(** C21. [make_map] transposes the player spawn: for a ['P'] at tile
    [(r, c)] it sets [pos_x] from the row and [pos_z] from the column
    (lines 487-488), while walls, the flag and [goable] take x from the
    column and z from the row.  The player starts in tile
    [(29 - c, 29 - r)], the mirror image of the ['P'] tile across the
    anti-diagonal; the two coincide only when [r + c = 29]. *)
Theorem make_map_spawn_transposed (m : list string) (st : MapLoad) (k : Z) :
  (0 <= k < MAP_SIZE * MAP_SIZE)%Z ->
  cell m (k / MAP_SIZE)%Z (k mod MAP_SIZE)%Z = Some "P"%char ->
  exists px pz, make_map_step m st k =
      Ok (mkLoad (walls_arr st) (wall_count st) (g_legoFlag st) (Fin px) (Fin pz)) /\
    in_tile (29 - k mod MAP_SIZE) (29 - k / MAP_SIZE) px pz.
Proof.
  intros Hk Hcell. unfold make_map_step. cbv zeta. rewrite Hcell.
  change (Ascii.eqb "P" "1") with false. change (Ascii.eqb "P" "F") with false.
  change (Ascii.eqb "P" "P") with true. cbv iota beta.
  eexists _, _. split; [reflexivity|].
  unfold MAP_SIZE, WORLD_SIZE in *.
  pose proof (Zrange_Q 0 29 (k / 30) ltac:(zdiv_lia)).
  pose proof (Zrange_Q 0 29 (k mod 30) ltac:(zdiv_lia)).
  change (30 / 2)%Z with 15%Z. change (2 / 2)%Z with 1%Z.
  unfold in_tile. repeat split; qlra.
Qed.

(** In [map] the ['P'] tile is [(26, 3)], on the anti-diagonal: the
    transposition is latent. *)
Lemma make_map_spawn_transposed_witness :
  exists px pz, make_map_step map (mkLoad [] 0 CWall_new (Fin 0) (Fin 0)) (26 * 30 + 3) =
      Ok (mkLoad [] 0 CWall_new (Fin px) (Fin pz)) /\
    in_tile (29 - (26 * 30 + 3) mod MAP_SIZE) (29 - (26 * 30 + 3) / MAP_SIZE) px pz.
Proof.
  exact (make_map_spawn_transposed map (mkLoad [] 0 CWall_new (Fin 0) (Fin 0)) (26 * 30 + 3)
           ltac:(by_eval) eq_refl).
Defined.

Lemma set_nth_length {A} (l : list A) (i : nat) (x : A) :
  List.length (set_nth l i x) = List.length l.
Proof.
  revert i. induction l as [|y l IH]; intros [|i]; cbn [set_nth List.length]; auto.
Qed.

Lemma set_nth_app {A} (pre rest : list A) (y x : A) :
  set_nth (pre ++ y :: rest) (List.length pre) x = pre ++ x :: rest.
Proof. induction pre as [|z pre IH]; cbn [set_nth List.length app]; [reflexivity | rewrite IH; reflexivity]. Qed.

Lemma cleanup_walls_oob (walls : list CWall) (fuel i : nat) :
  (i <= List.length walls < i + fuel)%nat ->
  cleanup_walls walls i fuel = Halt (Undefined "g_legowalls[i] out of bounds in Cleanup").
Proof.
  revert walls i. induction fuel as [|fuel IH]; intros walls i Hi; [lia|].
  cbn [cleanup_walls]. destruct (nth_error walls i) as [w|] eqn:E.
  - apply IH. rewrite set_nth_length. assert (i < List.length walls)%nat
      by (apply nth_error_Some; congruence). lia.
  - reflexivity.
Qed.

(** Over an array of exactly [i + fuel] walls the loop destroys every wall
    from index [i] on. *)
Lemma cleanup_walls_all (pre rest : list CWall) :
  cleanup_walls (pre ++ rest) (List.length pre) (List.length rest) =
  Ok (pre ++ List.map destroy rest).
Proof.
  revert pre. induction rest as [|w rest IH]; intros pre; cbn [List.length cleanup_walls].
  - rewrite !List.app_nil_r. reflexivity.
  - rewrite nth_error_app2, Nat.sub_diag by lia. cbn [nth_error].
    rewrite set_nth_app.
    replace (pre ++ destroy w :: rest) with ((pre ++ [destroy w]) ++ rest)
      by (rewrite <- List.app_assoc; reflexivity).
    replace (S (List.length pre)) with (List.length (pre ++ [destroy w]))
      by (rewrite length_app; cbn; lia).
    rewrite IH, <- List.app_assoc. reflexivity.
Qed.

(** ** Placement and lookup agree

    [make_map] places the wall of tile [(r, c)] at the tile's centre, and
    the collision lookup [map_at] of [goable] and [win] maps that centre
    back to [(r, c)]. *)
Lemma tile_box_map_at (m : list string) (r c : Z) (col : color) (w : CWall) :
  (0 <= r < MAP_SIZE)%Z -> (0 <= c < MAP_SIZE)%Z ->
  map_at m (m_z (tile_box r c col w)) (m_x (tile_box r c col w)) = cell_res m r c.
Proof.
  unfold MAP_SIZE. intros Hr Hc. cbn [tile_box setPosition wall_setLocalTransform m_x m_z]. unfold fofZ.
  unfold MAP_SIZE, WORLD_SIZE.
  change ((30 - 1) * 2 / 2)%Z with 29%Z. change ((30 + 1) * 2 / 2)%Z with 31%Z.
  pose proof (Zrange_Q 0 29 r ltac:(lia)). pose proof (Zrange_Q 0 29 c ltac:(lia)).
  change (inject_Z 0) with 0 in *. change (inject_Z 29) with 29 in *.
  assert (Ez : inject_Z ((30 - r) * 2 - 31) == 29 - 2 * inject_Z r)
    by (rewrite <- !Z.add_opp_r, !inject_Z_plus, !inject_Z_opp, inject_Z_mult; qlra).
  assert (Ex : inject_Z (c * 2 - 29) == 2 * inject_Z c - 29)
    by (rewrite <- !Z.add_opp_r, !inject_Z_plus, !inject_Z_opp, inject_Z_mult; qlra).
  rewrite map_at_Fin by (unfold row_of, col_of; first [rewrite Ez | rewrite Ex]; split; qlra).
  unfold row_of, col_of.
  rewrite (Qtrunc_exact r), (Qtrunc_exact c); [reflexivity|..]; try lia; rewrite ?Ez, ?Ex; qlra.
Qed.

Lemma In_scan (k : Z) : In k scan -> (0 <= k < MAP_SIZE * MAP_SIZE)%Z.
Proof.
  unfold scan. intros (n & <- & Hn)%in_map_iff. apply in_seq in Hn.
  change (Z.to_nat (MAP_SIZE * MAP_SIZE)) with 900%nat in Hn.
  unfold MAP_SIZE. lia.
Qed.

(** C28. Round trip between the loader and the collision test: every
    wall [make_map] stores in [g_legowalls] is centred on a tile that
    [map_at] (the lookup of [goable] and [win]) reads back as ['1'], so
    the walls drawn are the walls [goable] blocks. *)
Theorem make_map_walls_roundtrip (m : list string) (flag : CWall) (pos_x pos_z : f64)
        (st : MapLoad) (w : CWall) :
  make_map m flag pos_x pos_z = Ok st -> In (Some w) (walls_arr st) ->
  map_at m (m_z w) (m_x w) = Ok "1"%char.
Proof.
  intros Hmk Hin.
  destruct (make_map_result m flag pos_x pos_z) as (st' & Hmk' & _ & Harr).
  rewrite Hmk in Hmk'. injection Hmk' as <-. rewrite Harr in Hin.
  apply in_map_iff in Hin as (w' & [= ->] & Hin).
  apply in_map_iff in Hin as (k & <- & Hk).
  apply in_rev, filter_In in Hk as [Hk Hwall].
  apply In_scan in Hk. unfold is_wall_key in Hwall. apply cell_is_spec in Hwall.
  unfold wall_of_key. rewrite tile_box_map_at by (unfold MAP_SIZE in *; zdiv_lia).
  unfold cell_res. rewrite Hwall. reflexivity.
Qed.

Lemma make_map_walls_roundtrip_witness :
  exists st, make_map map CWall_new (Fin 0) (Fin 0) = Ok st /\
    exists w, In (Some w) (walls_arr st) /\ map_at map (m_z w) (m_x w) = Ok "1"%char.
Proof.
  destruct (make_map_result map CWall_new (Fin 0) (Fin 0)) as (st & Hmk & _ & Harr).
  exists st. split; [exact Hmk|].
  exists (wall_of_key 0). assert (Hin : In (Some (wall_of_key 0)) (walls_arr st)).
  { rewrite Harr. apply in_map, in_map. rewrite <- in_rev. apply filter_In.
    split; [left; reflexivity | reflexivity]. }
  split; [exact Hin | exact (make_map_walls_roundtrip map CWall_new (Fin 0) (Fin 0) st _ Hmk Hin)].
Defined.

(** ** The flattened scan counts row by row *)

Lemma filter_seq_S (f : nat -> bool) (a n : nat) :
  List.length (List.filter f (seq (S a) n)) = List.length (List.filter (fun i => f (S i)) (seq a n)).
Proof.
  revert a. induction n as [|n IH]; intros a; [reflexivity|].
  cbn [seq List.filter]. destruct (f (S a)); cbn [List.length]; rewrite IH; reflexivity.
Qed.

Lemma filter_seq_offset (f : nat -> bool) (a n : nat) :
  List.length (List.filter f (seq a n)) = List.length (List.filter (fun c => f (a + c)%nat) (seq 0 n)).
Proof.
  revert f. induction a as [|a IH]; intros f; [reflexivity|].
  rewrite filter_seq_S. exact (IH (fun i => f (S i))).
Qed.

Lemma filter_map_length {A B} (p : B -> bool) (f : A -> B) (l : list A) :
  List.length (List.filter p (List.map f l)) = List.length (List.filter (fun x => p (f x)) l).
Proof. induction l as [|x l IH]; simpl; [reflexivity | destruct (p (f x)); simpl; lia]. Qed.

(** A scan of [nr] rows of [n] cells in row-major order is the sum of
    the per-row scans. *)
Lemma filter_rows (g : nat -> nat -> bool) (n nr : nat) :
  (0 < n)%nat ->
  List.length (List.filter (fun k => g (k / n) (k mod n))%nat (seq 0 (nr * n))) =
  list_sum (List.map (fun r => List.length (List.filter (g r) (seq 0 n))) (seq 0 nr)).
Proof.
  intros Hn. induction nr as [|nr IH]; [reflexivity|].
  replace (S nr * n)%nat with (nr * n + n)%nat by lia.
  rewrite seq_app, filter_app, length_app, IH, seq_S, List.map_app, list_sum_app.
  rewrite filter_seq_offset. cbn [List.map list_sum]. rewrite ?Nat.add_0_r.
  change (0 + nr * n)%nat with (nr * n)%nat. change (0 + nr)%nat with nr.
  f_equal. cbn [list_sum fold_right]. rewrite Nat.add_0_r. f_equal. apply filter_ext_in. intros c Hc%in_seq.
  rewrite (Nat.div_add_l nr n c), Nat.div_small, Nat.add_0_r by lia.
  rewrite Nat.add_comm, Nat.Div0.mod_add, Nat.mod_small by lia. reflexivity.
Qed.

Lemma string_get_app_l (n : nat) (s t : string) :
  (n < String.length s)%nat -> String.get n (s ++ t) = String.get n s.
Proof.
  revert n. induction s as [|a s IH]; simpl; intros n H; [lia|].
  destruct n as [|n]; [reflexivity | apply IH; lia].
Qed.

Lemma count_row_get (s : string) (ch : ascii) :
  List.length (List.filter (fun c => match String.get c s with
                                     | Some a => Ascii.eqb a ch | None => false end)
                           (seq 0 (String.length s))) = count_row s ch.
Proof.
  induction s as [|a s IH]; [reflexivity|].
  unfold count_row in *. cbn [String.length seq List.filter list_ascii_of_string String.get].
  destruct (Ascii.eqb a ch); cbn [List.length]; rewrite filter_seq_S; [f_equal|]; exact IH.
Qed.

Lemma map_nth_seq {A B} (h : A -> B) (l : list A) (d : A) :
  List.map (fun r => h (nth r l d)) (seq 0 (List.length l)) = List.map h l.
Proof.
  induction l as [|x l IH]; [reflexivity|].
  cbn [List.length seq List.map nth]. f_equal.
  rewrite <- seq_shift, List.map_map. exact IH.
Qed.

(** C29. The flattened scan of [make_map] (and of [locate_enemy]) over
    [k = 0 .. MAP_SIZE * MAP_SIZE - 1], reading [map[k / MAP_SIZE][k %
    MAP_SIZE]], counts exactly the characters a row-by-row count finds,
    on every grid of 30 rows of 30 characters: the division and
    remainder visit each cell once. *)
Theorem count_char_rows (m : list string) (ch : ascii) :
  map_wf m -> count_char m ch = count_rows m ch.
Proof.
  intros [Hlen Hrows]. unfold count_char, count_rows, scan. apply f_equal.
  rewrite filter_map_length. change (Z.to_nat (MAP_SIZE * MAP_SIZE)) with (30 * 30)%nat.
  transitivity (List.length (List.filter
    (fun k => (fun r c => cell_is m (Z.of_nat r) (Z.of_nat c) ch) (k / 30) (k mod 30))%nat
    (seq 0 (30 * 30)))).
  { apply (f_equal (@List.length nat)). apply filter_ext. intros k. unfold MAP_SIZE.
    rewrite Nat2Z.inj_div, Nat2Z.inj_mod. reflexivity. }
  rewrite (filter_rows (fun r c => cell_is m (Z.of_nat r) (Z.of_nat c) ch) 30 30) by lia.
  rewrite <- (map_nth_seq (fun row => count_row row ch) m EmptyString), Hlen. apply f_equal.
  apply map_ext_in. intros r Hr%in_seq.
  assert (Hrow : String.length (nth r m EmptyString) = 30%nat)
    by (rewrite Forall_forall in Hrows; apply Hrows, nth_In; lia).
  rewrite <- count_row_get, Hrow. apply (f_equal (@List.length nat)). apply filter_ext_in. intros c Hc%in_seq.
  unfold cell_is, cell, MAP_SIZE.
  replace ((0 <=? Z.of_nat r) && (Z.of_nat r <? 30) && (0 <=? Z.of_nat c)
           && (Z.of_nat c <=? 30))%Z with true
    by (symmetry; rewrite !andb_true_iff, Z.leb_le, Z.ltb_lt, Z.leb_le, Z.leb_le; lia).
  rewrite Nat2Z.id, (nth_error_nth' m EmptyString) by lia.
  rewrite Nat2Z.id, string_get_app_l by lia. reflexivity.
Qed.

Lemma count_char_rows_witness :
  map_wf map /\ count_char map "1"%char = count_rows map "1"%char /\
  count_rows map "1"%char = 200%Z.
Proof.
  split; [exact (proj1 map_shape)|].
  split; [exact (count_char_rows map "1"%char (proj1 map_shape)) | vm_compute; reflexivity].
Defined.
