(* ===== verification/Enemy.v ===== *)
(** * [CEnemy] (virtualLego.cpp lines 352-433) and [locate_enemy] (494-503)

    A turret: a body box and a head box (offset by half a size from the
    enemy's point, as the source places them), a bullet, the flags
    [shoot] (its bullet is in flight) and [alive], and [life].

    [Update] reads the globals [pos_x], [pos_z] (the player) and
    [wall_num]/[g_legowalls], and writes the global [my_life]; it may end
    the program ([exit(0)], line 392).  [hasHit] writes the global
    [my_shoot].  The model passes these globals explicitly: [Update]
    returns the new [my_life] with the new enemy, or [Halt Lose]; [hasHit]
    returns the new [my_shoot] with the new enemy.

    [hit] recolours the boxes from [headHit[life - 1]] and
    [bodyHit[life - 1]], two-element tables: an index outside [0..1] reads
    out of bounds; the model records the read colour as indeterminate
    ([None]) and goes on, since the colour only feeds rendering.

    The player's hit volume tested in [Update] (lines 384-389) is the
    second instance of the [BallTest] interface. *)

From Stdlib Require Import QArith Qabs Lqa ZArith Lia List Bool Ascii String.
From S2P Require Import Prelude Double Sphere Wall GridMap.
Import ListNotations.

(** [#define PLAYERHEIGHT 2.0f], [ENEMYSIZE 0.6f], [BULLETSPEED 400.0f]. *)
Definition PLAYERHEIGHT : f64 := Fin 2.
Definition ENEMYSIZE : f64 := Fin 0.6.
Definition BULLETSPEED : f64 := Fin 400.

(** [headHit] and [bodyHit] (lines 40-41). *)
Definition headHit : list color := [RGB 192 32 0; RGB 128 128 0].
Definition bodyHit : list color := [RGB 192 16 16; RGB 128 64 64].

(** [tbl[i]]: indeterminate outside the table. *)
Definition color_at (tbl : list color) (i : Z) : option color :=
  if (0 <=? i)%Z then nth_error tbl (Z.to_nat i) else None.

Record CEnemy : Type := mkEnemy {
  x_pos : f64;
  z_pos : f64;
  body : CWall;
  head : CWall;
  bullet : CSphere;
  shoot : bool;
  life : Z;
  alive : bool
}.

(** [CEnemy(int z, int x)] (lines 355-368), for the tile in row [z],
    column [x]. *)
Definition CEnemy_new (z x : Z) : CEnemy :=
  let xp := fofZ ((x - MAP_SIZE / 2) * WORLD_SIZE + WORLD_SIZE / 2)%Z in
  let zp := fofZ ((MAP_SIZE / 2 - z) * WORLD_SIZE - WORLD_SIZE / 2)%Z in
  let half := fdiv ENEMYSIZE two in
  {| x_pos := xp; z_pos := zp;
     body := setPosition (fsub xp half) (fmul PLAYERHEIGHT (Fin 0.425)) (fsub zp half)
               (create (fofZ (-1)) (fofZ (-1)) ENEMYSIZE (fmul PLAYERHEIGHT (Fin 0.85))
                       ENEMYSIZE CYAN CWall_new);
     head := setPosition (fsub xp half) PLAYERHEIGHT (fsub zp half)
               (create (fofZ (-1)) (fofZ (-1)) ENEMYSIZE (fmul PLAYERHEIGHT (Fin 0.3))
                       ENEMYSIZE GREEN CWall_new);
     bullet := setCenter xp (fmul PLAYERHEIGHT (Fin 0.75)) zp (sphere_create (CSphere_new M_RADIUS));
     shoot := false;
     alive := true;
     life := 3 |}.

(** ** The player's hit volume (lines 382-389)

    A box [ENEMYSIZE] wide and deep around [(pos_x, pos_z)], from the
    floor to [PLAYERHEIGHT]; unlike [hasIntersected] the vertical test
    requires the ball to be entirely inside. *)
Record PlayerHitbox : Type := mkHitbox { hb_x : f64; hb_z : f64 }.

Definition player_hit (p : PlayerHitbox) (ball : CSphere) : bool :=
  let r := getRadius ball in
  let half := fdiv ENEMYSIZE two in
  flt (fsub (hb_z p) half) (fadd (center_z ball) r) &&
  flt (fsub (center_z ball) r) (fadd (hb_z p) half) &&
  flt (fadd (center_y ball) r) PLAYERHEIGHT &&
  flt (Fin 0) (fsub (center_y ball) r) &&
  flt (fsub (hb_x p) half) (fadd (center_x ball) r) &&
  flt (fsub (center_x ball) r) (fadd (hb_x p) half).

Lemma player_hit_nan_x (p : PlayerHitbox) (s : CSphere) :
  center_x s = NaN -> player_hit p s = false.
Proof.
  intros E. unfold player_hit. rewrite E.
  rewrite fadd_nan_l, fsub_nan_l, flt_nan_l, flt_nan_r, !andb_false_r. reflexivity.
Qed.

#[export] Instance PlayerHitbox_BallTest : BallTest PlayerHitbox :=
  {| ball_hits := player_hit; ball_hits_nan_x := player_hit_nan_x |}.

(** ** [Update] (lines 378-404) *)

(** Reloading (lines 394-402): the bullet is put back at the enemy's
    chest and fired at [BULLETSPEED] toward the player's position. *)
Definition reload (pos_x pos_z : f64) (e : CEnemy) : CSphere :=
  let b0 := setCenter (x_pos e) (fmul PLAYERHEIGHT (Fin 0.75)) (z_pos e)
              (setPower (Fin 0) (Fin 0) (bullet e)) in
  let x_power := fsub pos_x (x_pos e) in
  let z_power := fsub pos_z (z_pos e) in
  let bullet_radius := fsqrt (fadd (fsquare x_power) (fsquare z_power)) in
  setPower (fdiv (fmul BULLETSPEED x_power) bullet_radius)
           (fdiv (fmul BULLETSPEED z_power) bullet_radius) b0.

Definition with_bullet (e : CEnemy) (b : CSphere) (s : bool) : CEnemy :=
  {| x_pos := x_pos e; z_pos := z_pos e; body := body e; head := head e;
     bullet := b; shoot := s; life := life e; alive := alive e |}.

Definition Update (timeDelta : f64) (g_legowalls : list CWall) (pos_x pos_z : f64)
    (my_life : Z) (e : CEnemy) : res (Z * CEnemy) :=
  let shoot1 := if any_hits g_legowalls (bullet e) then false else shoot e in
  let hit_player := player_hit (mkHitbox pos_x pos_z) (bullet e) in
  let my_life1 := if hit_player then (my_life - 1)%Z else my_life in
  if hit_player && (my_life1 <=? 0)%Z then Halt Lose else
  let shoot2 := if hit_player then false else shoot1 in
  let b := if shoot2 then bullet e else reload pos_x pos_z e in
  Ok (my_life1, with_bullet e (ballUpdate timeDelta b) true).

(** ** Damage: [hit] (lines 415-420) and [hasHit] (lines 406-413) *)

Definition hit (e : CEnemy) : CEnemy :=
  let life1 := (life e - 1)%Z in
  {| x_pos := x_pos e; z_pos := z_pos e;
     head := setColor (color_at headHit (life1 - 1)) (head e);
     body := setColor (color_at bodyHit (life1 - 1)) (body e);
     bullet := bullet e; shoot := shoot e;
     life := life1;
     alive := if (life1 <=? 0)%Z then false else alive e |}.

Definition kill (e : CEnemy) : CEnemy :=
  {| x_pos := x_pos e; z_pos := z_pos e; head := head e; body := body e;
     bullet := bullet e; shoot := shoot e; life := life e; alive := false |}.

(** The body is tested first; the head only when the body misses
    ([||] short-circuits the assignment to [isHeadShot]). *)
Definition hasHit (my_bullet : CSphere) (my_shoot : bool) (e : CEnemy) : bool * CEnemy :=
  if hasIntersected (body e) my_bullet then (false, hit e)
  else if hasIntersected (head e) my_bullet then (false, kill (hit e))
  else (my_shoot, e).

(** [isAlive] (line 422). *)
Definition isAlive (e : CEnemy) : bool := alive e.

(** ** [locate_enemy] (lines 494-503) *)

Definition is_enemy_key (m : list string) (k : Z) : bool :=
  cell_is m (k / MAP_SIZE)%Z (k mod MAP_SIZE)%Z "e".

Definition enemy_of_key (k : Z) : CEnemy := CEnemy_new (k / MAP_SIZE)%Z (k mod MAP_SIZE)%Z.

(** The [malloc]ed enemy array and the countdown [enemy_count]. *)
Definition locate_enemy (m : list string) : res (list (option CEnemy) * Z) :=
  let n := count_char m "e" in
  fold_res (fill_step (is_enemy_key m) enemy_of_key) scan (List.repeat None (Z.to_nat n), n).

(** ** The abstract enemy: [Alive h] or [Dead]

    The enemy's contract as a state machine: a body hit costs one health
    point and kills at zero, a head hit kills, a miss changes nothing,
    and [Dead] is final. *)
Inductive estate : Type := Alive (h : Z) | Dead.

Inductive hit_event : Type := BodyHit | HeadHit | Miss.

Definition astep (s : estate) (ev : hit_event) : estate :=
  match s, ev with
  | Dead, _ => Dead
  | Alive h, BodyHit => if (h <=? 1)%Z then Dead else Alive (h - 1)
  | Alive _, HeadHit => Dead
  | Alive h, Miss => Alive h
  end.

(** The abstraction of a concrete enemy. *)
Definition abs_enemy (e : CEnemy) : estate := if alive e then Alive (life e) else Dead.

(** What the player's bullet does to the enemy, body first as in the code. *)
Definition classify (my_bullet : CSphere) (e : CEnemy) : hit_event :=
  if hasIntersected (body e) my_bullet then BodyHit
  else if hasIntersected (head e) my_bullet then HeadHit
  else Miss.

(** The enemy's well-formedness: health in [0..3], positive while alive. *)
Definition enemy_inv (e : CEnemy) : Prop :=
  (0 <= life e <= 3)%Z /\ (alive e = true -> (1 <= life e)%Z).

(** ** Helper lemmas *)

Lemma hit_life (e : CEnemy) : life (hit e) = (life e - 1)%Z.
Proof. reflexivity. Qed.

Lemma hit_alive (e : CEnemy) : alive (hit e) = alive e && (0 <? life e - 1)%Z.
Proof.
  unfold hit; simpl. destruct (life e - 1 <=? 0)%Z eqn:E; destruct (alive e); simpl; lia.
Qed.

Lemma hasHit_cases (b : CSphere) (s : bool) (e : CEnemy) :
  (classify b e = BodyHit /\ hasHit b s e = (false, hit e)) \/
  (classify b e = HeadHit /\ hasHit b s e = (false, kill (hit e))) \/
  (classify b e = Miss /\ hasHit b s e = (s, e)).
Proof.
  unfold classify, hasHit.
  destruct (hasIntersected (body e) b); [left; auto|].
  destruct (hasIntersected (head e) b); [right; left; auto | right; right; auto].
Qed.

(** [Update] changes neither [life] nor [alive]. *)
Lemma Update_keeps_state (dt : f64) (ws : list CWall) (px pz : f64) (l l' : Z)
      (e e' : CEnemy) :
  Update dt ws px pz l e = Ok (l', e') -> life e' = life e /\ alive e' = alive e.
Proof.
  unfold Update. destruct (_ && _); [discriminate|]. intros H. injection H as <- <-.
  split; reflexivity.
Qed.

(** ** Damage from the player's bullet *)

(** An enemy of [map]: the turret of tile (3, 19), at [(9, 23)], with
    balls at the centres of its body and of its head. *)
Definition enemy_3_19 : CEnemy := CEnemy_new 3 19.
Definition ball_at (x y z : Q) : CSphere := setCenter (Fin x) (Fin y) (Fin z) (CSphere_new M_RADIUS).

(** C7. A body hit costs the enemy exactly one life point and consumes
    the player's bullet; the enemy dies only when its life reaches 0. *)
Theorem hasHit_body (b : CSphere) (s : bool) (e : CEnemy) :
  hasIntersected (body e) b = true ->
  fst (hasHit b s e) = false /\ life (snd (hasHit b s e)) = (life e - 1)%Z /\
  alive (snd (hasHit b s e)) = alive e && (0 <? life e - 1)%Z.
Proof.
  intros H. unfold hasHit. rewrite H. simpl. split; [reflexivity|].
  split; [reflexivity | apply hit_alive].
Qed.

Lemma hasHit_body_witness :
  fst (hasHit (ball_at 8.7 0.85 22.7) true enemy_3_19) = false /\
  life (snd (hasHit (ball_at 8.7 0.85 22.7) true enemy_3_19)) = 2%Z /\
  alive (snd (hasHit (ball_at 8.7 0.85 22.7) true enemy_3_19)) = true.
Proof. exact (hasHit_body (ball_at 8.7 0.85 22.7) true enemy_3_19 eq_refl). Defined.

(** C8. A head shot (a bullet that misses the body and meets the head)
    kills the enemy whatever its life and consumes the bullet; the code
    still takes one life point first, so a head shot at full life leaves
    a dead enemy with [life = 2]. *)
Theorem hasHit_headshot (b : CSphere) (s : bool) (e : CEnemy) :
  hasIntersected (body e) b = false -> hasIntersected (head e) b = true ->
  fst (hasHit b s e) = false /\ alive (snd (hasHit b s e)) = false /\
  life (snd (hasHit b s e)) = (life e - 1)%Z.
Proof. intros Hb Hh. unfold hasHit. rewrite Hb, Hh. auto. Qed.

Lemma hasHit_headshot_witness :
  fst (hasHit (ball_at 8.7 2 22.7) true enemy_3_19) = false /\
  alive (snd (hasHit (ball_at 8.7 2 22.7) true enemy_3_19)) = false /\
  life (snd (hasHit (ball_at 8.7 2 22.7) true enemy_3_19)) = 2%Z.
Proof. exact (hasHit_headshot (ball_at 8.7 2 22.7) true enemy_3_19 eq_refl eq_refl). Defined.

(** C2. [hasHit] refines the abstract enemy: the abstraction of the
    enemy after [hasHit] is the abstract step on the event the bullet
    causes, from any concrete enemy. *)
Theorem hasHit_refines (b : CSphere) (s : bool) (e : CEnemy) :
  abs_enemy (snd (hasHit b s e)) = astep (abs_enemy e) (classify b e).
Proof.
  destruct (hasHit_cases b s e) as [[C H]|[[C H]|[C H]]]; rewrite C, H;
    unfold abs_enemy; cbn [snd].
  - rewrite hit_alive, hit_life. destruct (alive e); simpl; [|reflexivity].
    destruct (life e <=? 1)%Z eqn:E.
    + replace (0 <? life e - 1)%Z with false by lia. reflexivity.
    + replace (0 <? life e - 1)%Z with true by lia. reflexivity.
  - destruct (alive e); reflexivity.
  - destruct (alive e); reflexivity.
Qed.

(** The player's bullet is consumed exactly when it hits the body or the
    head. *)
Lemma hasHit_shoot (b : CSphere) (s : bool) (e : CEnemy) :
  fst (hasHit b s e) = match classify b e with Miss => s | _ => false end.
Proof. destruct (hasHit_cases b s e) as [[C H]|[[C H]|[C H]]]; rewrite C, H; reflexivity. Qed.

(** The enemy's invariant holds after a hit on a live enemy. *)
Lemma hasHit_inv (b : CSphere) (s : bool) (e : CEnemy) :
  enemy_inv e -> alive e = true -> enemy_inv (snd (hasHit b s e)).
Proof.
  unfold enemy_inv. intros [Hl Ha] Hal. specialize (Ha Hal).
  destruct (hasHit_cases b s e) as [[C H]|[[C H]|[C H]]]; rewrite H; cbn [snd].
  - rewrite hit_alive, hit_life, Hal. simpl. split; [lia|]. intros E. lia.
  - simpl. split; [lia | discriminate].
  - split; [lia | intros _; exact Ha].
Qed.

(** ** [Update] *)

(** C3. [Update] ends the game exactly when the enemy's bullet is inside
    the player's hit volume and the player has one life left; otherwise
    it takes one life point per hit and none without. *)
Theorem Update_life (dt : f64) (ws : list CWall) (px pz : f64) (l : Z) (e : CEnemy) :
  match Update dt ws px pz l e with
  | Halt h => h = Lose /\ player_hit (mkHitbox px pz) (bullet e) = true /\ (l <= 1)%Z
  | Ok (l', _) =>
      l' = (if player_hit (mkHitbox px pz) (bullet e) then l - 1 else l)%Z /\
      (player_hit (mkHitbox px pz) (bullet e) = true -> (2 <= l)%Z)
  end.
Proof.
  unfold Update. destruct (player_hit (mkHitbox px pz) (bullet e)); simpl.
  - destruct (l - 1 <=? 0)%Z eqn:E; simpl; [repeat split; lia|].
    split; [reflexivity | intros _; lia].
  - split; [reflexivity | discriminate].
Qed.

(** C18. A reloading enemy puts its bullet back at its chest and fires it
    at [BULLETSPEED] toward the player's current position: the bullet is
    centred at [(x_pos, PLAYERHEIGHT * 0.75, z_pos)], its vertical speed
    is 0, and its horizontal velocity is [BULLETSPEED] times the vector
    [d] from the enemy to the player divided by [sqrt(|d|^2)] (the
    model's square root, at least [|d|]).  So the velocity points at the
    player and its speed is [BULLETSPEED], up to the square root's
    rounding, and never more. *)
Theorem reload_aims (px pz ex ez : Q) (e : CEnemy) :
  x_pos e = Fin ex -> z_pos e = Fin ez -> ~ (px - ex == 0 /\ pz - ez == 0) ->
  let s := Qsqrt_up ((px - ex) * (px - ex) + (pz - ez) * (pz - ez)) in
  let b := reload (Fin px) (Fin pz) e in
  center_x b = Fin ex /\ center_y b = Fin (2 * 0.75) /\ center_z b = Fin ez /\
  m_velocity_x b = Fin (400 * (px - ex) / s) /\ m_velocity_z b = Fin (400 * (pz - ez) / s) /\
  m_velocity_y b = Fin 0 /\
  (px - ex) * (px - ex) + (pz - ez) * (pz - ez) <= s * s /\
  400 * (px - ex) / s * (400 * (px - ex) / s) + 400 * (pz - ez) / s * (400 * (pz - ez) / s)
    <= 400 * 400.
Proof.
  intros Ex Ez Hne s b. unfold b, reload. rewrite Ex, Ez. cbn -[fsqrt fdiv Qsqrt_up].
  set (dx := px - ex) in *. set (dz := pz - ez) in *.
  assert (Hd : 0 < dx * dx + dz * dz).
  { destruct (Qeq_dec dx 0) as [Hx|Hx]; destruct (Qeq_dec dz 0) as [Hz|Hz];
      [exfalso; tauto | nra | nra | nra]. }
  rewrite (fsqrt_Fin _ (Qlt_le_weak _ _ Hd)). fold s.
  assert (Hs : 0 < s) by (apply Qsqrt_up_pos; exact Hd).
  assert (Hs2 : dx * dx + dz * dz <= s * s) by (apply Qsqrt_up_sq; lra).
  cbn -[Qsqrt_up]. fold s. destruct (Qeq_bool s 0) eqn:E.
  { apply Qeq_bool_iff in E. lra. }
  assert (Hs0 : ~ s == 0) by lra.
  do 6 (split; [reflexivity|]). split; [exact Hs2|].
  assert (P : 400 * dx / s * (400 * dx / s) + 400 * dz / s * (400 * dz / s)
              == 160000 * ((dx * dx + dz * dz) / (s * s))) by (field; exact Hs0).
  rewrite P. assert (Q1 : (dx * dx + dz * dz) / (s * s) <= 1).
  { apply Qle_shift_div_r; [nra | lra]. }
  lra.
Qed.

Lemma reload_aims_witness :
  let s := Qsqrt_up ((-23 - 9) * (-23 - 9) + (-23 - 23) * (-23 - 23)) in
  let b := reload (Fin (-23)) (Fin (-23)) enemy_3_19 in
  center_x b = Fin 9 /\ center_y b = Fin (2 * 0.75) /\ center_z b = Fin 23 /\
  m_velocity_x b = Fin (400 * (-23 - 9) / s) /\ m_velocity_z b = Fin (400 * (-23 - 23) / s) /\
  m_velocity_y b = Fin 0 /\
  (-23 - 9) * (-23 - 9) + (-23 - 23) * (-23 - 23) <= s * s /\
  400 * (-23 - 9) / s * (400 * (-23 - 9) / s) + 400 * (-23 - 23) / s * (400 * (-23 - 23) / s)
    <= 400 * 400.
Proof.
  apply (reload_aims (-23) (-23) 9 23 enemy_3_19 eq_refl eq_refl).
  intros [H _]. discriminate H.
Defined.

(** ** A NaN bullet *)

(** An enemy whose bullet has a NaN x coordinate and is in flight stays
    so: no wall and no player volume meets the bullet (the [BallTest]
    law of both instances), so it is never reloaded, and [my_life] is
    untouched. *)
Lemma Update_disarmed (dt : f64) (ws : list CWall) (px pz : f64) (l : Z) (e : CEnemy) :
  center_x (bullet e) = NaN -> shoot e = true ->
  exists e', Update dt ws px pz l e = Ok (l, e') /\
             center_x (bullet e') = NaN /\ shoot e' = true.
Proof.
  intros Hx Hs. unfold Update.
  rewrite (any_hits_nan_x ws _ Hx), (player_hit_nan_x (mkHitbox px pz) _ Hx).
  simpl. rewrite Hs.
  eexists. split; [reflexivity|]. simpl. rewrite Hx. split; reflexivity.
Qed.

(** One enemy's [Update] over successive frames, each with its time step,
    walls and player position. *)
Definition Update_run (steps : list (f64 * list CWall * f64 * f64)) (l : Z) (e : CEnemy)
  : res (Z * CEnemy) :=
  fold_res (fun st inp =>
              let '(l0, e0) := st in
              let '(dt, ws, px, pz) := inp in
              Update dt ws px pz l0 e0) steps (l, e).

Lemma Update_run_disarmed (steps : list (f64 * list CWall * f64 * f64)) (l : Z) (e : CEnemy) :
  center_x (bullet e) = NaN -> shoot e = true ->
  exists e', Update_run steps l e = Ok (l, e').
Proof.
  revert e. induction steps as [|[[[dt ws] px] pz] steps IH]; intros e Hx Hs.
  - exists e. reflexivity.
  - destruct (Update_disarmed dt ws px pz l e Hx Hs) as (e1 & E1 & Hx1 & Hs1).
    unfold Update_run. simpl. rewrite E1. simpl. apply IH; assumption.
Qed.

(** C19. A player standing exactly on an enemy's point when it reloads
    makes it compute [0/0]: its bullet's velocity and then its position
    become NaN, and from then on its [Update] leaves [my_life] unchanged
    in every later frame, whatever the walls, the time steps and the
    player's positions: the turret is disarmed for good. *)
Theorem Update_reload_disarms (dt : Q) (ws : list CWall) (ex ez : Q) (l : Z) (e : CEnemy)
    (steps : list (f64 * list CWall * f64 * f64)) :
  x_pos e = Fin ex -> z_pos e = Fin ez -> (2 <= l)%Z ->
  shoot e = false \/ player_hit (mkHitbox (Fin ex) (Fin ez)) (bullet e) = true \/
    any_hits ws (bullet e) = true ->
  exists e', Update_run ((Fin dt, ws, Fin ex, Fin ez) :: steps) l e =
    Ok (if player_hit (mkHitbox (Fin ex) (Fin ez)) (bullet e) then (l - 1)%Z else l, e').
Proof.
  intros Ex Ez Hl Hre.
  assert (Hnan : center_x (ballUpdate (Fin dt) (reload (Fin ex) (Fin ez) e)) = NaN).
  { unfold reload. rewrite Ex, Ez. cbn -[fsqrt fdiv Qsqrt_up].
    rewrite fsqrt_Fin by nra. unfold fdiv.
    match goal with
    | |- context [Qeq_bool (Qsqrt_up ?q) 0] =>
        replace (Qeq_bool (Qsqrt_up q) 0) with true
          by (symmetry; apply Qeq_bool_iff; rewrite (Qsqrt_up_comp q 0) by ring; reflexivity)
    end.
    reflexivity. }
  unfold Update_run. simpl. unfold Update.
  destruct (player_hit (mkHitbox (Fin ex) (Fin ez)) (bullet e)) eqn:Hp; simpl.
  - replace (l - 1 <=? 0)%Z with false by lia. simpl.
    apply Update_run_disarmed; [exact Hnan | reflexivity].
  - destruct Hre as [Hs|[Hh|Hw]]; [|discriminate|].
    + rewrite Hs. destruct (any_hits ws (bullet e)); simpl;
        (apply Update_run_disarmed; [exact Hnan | reflexivity]).
    + rewrite Hw. simpl. apply Update_run_disarmed; [exact Hnan | reflexivity].
Qed.

(** The turret of tile (3, 19) with the player standing on its point:
    the first frame costs one life, no later frame costs any. *)
Lemma Update_reload_disarms_witness :
  exists e', Update_run ((Fin (1#60), [], Fin 9, Fin 23) ::
                         [(Fin (1#60), [], Fin 9, Fin 23); (Fin (1#30), [], Fin (-23), Fin (-23))])
               3 enemy_3_19 = Ok (2%Z, e').
Proof.
  exact (Update_reload_disarms (1#60) [] 9 23 3 enemy_3_19
           [(Fin (1#60), [], Fin 9, Fin 23); (Fin (1#30), [], Fin (-23), Fin (-23))]
           eq_refl eq_refl ltac:(lia) (or_introl eq_refl)).
Defined.

(** ** [locate_enemy] places one enemy per ['e'] tile *)

(** C23. [locate_enemy] writes inside the [malloc]ed enemy array and fills
    it exactly, with the enemy of every ['e'] tile in reverse scan order,
    each alive, with life 3 and its bullet not in flight. *)
Theorem locate_enemy_fills (m : list string) :
  locate_enemy m =
    Ok (List.map Some (List.map enemy_of_key (rev (List.filter (is_enemy_key m) scan))), 0%Z) /\
  Forall (fun e => alive e = true /\ life e = 3%Z /\ shoot e = false /\ enemy_inv e)
         (List.map enemy_of_key (rev (List.filter (is_enemy_key m) scan))).
Proof.
  split.
  - unfold locate_enemy, count_char. cbv zeta. rewrite Nat2Z.id.
    pose proof (fill_fold (is_enemy_key m) enemy_of_key scan _ [] eq_refl) as F.
    cbn [List.map] in F. rewrite !List.app_nil_r in F. exact F.
  - apply Forall_forall. intros e He. apply in_map_iff in He. destruct He as (k & <- & _).
    unfold enemy_inv. simpl. repeat split; try reflexivity; lia.
Qed.

Lemma locate_enemy_count : count_char map "e" = 9%Z.
Proof. vm_compute. reflexivity. Qed.
