(* ===== verification/Light.v ===== *)
(** * [CLight] (virtualLego.cpp lines 271-346)

    The scene's point light.  Its state is the [D3DLIGHT9] it hands to the
    device, the [DWORD] slot index [m_index] drawn from a function-local
    [static DWORD i], the local transform, the bounding sphere whose
    centre is the light's position in its own frame, and whether the
    marker mesh is allocated.

    - The constructor (lines 273-281) is a step on the static counter:
      [CLight_new i] returns the light with index [i] and the counter
      [i + 1], wrapped to 32 bits as [DWORD] arithmetic does.
    - [create] (lines 284-307) copies every field of the given light and
      sets the bounding sphere; [D3DXCreateSphere] is modelled on its
      success path, as for [CSphere] and [CWall].
    - [destroy] (lines 308-313) releases the mesh.
    - [setLight] (lines 314-326) moves the position through [m_mLocal] and
      the world matrix, stores it, and hands the light to the device:
      [SetLight(m_index, &m_lit)] and [LightEnable(m_index, TRUE)].  The
      device's light table is modelled from the Direct3D 9 documentation:
      a slot holds the last light set there, and [LightEnable] marks the
      slot enabled.
    - [draw] (lines 328-337) only renders the marker and is not modelled;
      [getPosition] (line 338) reads the stored position. *)

From Stdlib Require Import QArith Lqa ZArith Lia List Bool.
From S2P Require Import Prelude Double Matrix Wall GridMap.
Import ListNotations.

(** ** Light description ([D3DLIGHT9] of d3d9types.h) *)

(** [D3DCOLORVALUE]: red, green, blue and alpha as floats. *)
Record D3DCOLORVALUE : Type := mkColorValue { cv_r : f64; cv_g : f64; cv_b : f64; cv_a : f64 }.

(** [D3DXCOLOR(D3DCOLOR_XRGB(r, g, b))]: each byte over 255, alpha 1. *)
Definition colorvalue_of (c : color) : D3DCOLORVALUE :=
  let '(r, g, b) := c in
  mkColorValue (Fin (inject_Z r / 255)) (Fin (inject_Z g / 255)) (Fin (inject_Z b / 255)) (Fin 1).

(** [D3DXCOLOR * float]: every component scaled, alpha included. *)
Definition color_scale (c : D3DCOLORVALUE) (k : f64) : D3DCOLORVALUE :=
  mkColorValue (fmul (cv_r c) k) (fmul (cv_g c) k) (fmul (cv_b c) k) (fmul (cv_a c) k).

(** [D3DLIGHTTYPE]: [D3DLIGHT_POINT = 1]; [ZeroMemory] leaves 0. *)
Definition D3DLIGHT_POINT : Z := 1.

Record D3DLIGHT9 : Type := mkLight9 {
  lt_Type : Z;
  lt_Diffuse : D3DCOLORVALUE;
  lt_Specular : D3DCOLORVALUE;
  lt_Ambient : D3DCOLORVALUE;
  lt_Position : D3DXVECTOR3;
  lt_Direction : D3DXVECTOR3;
  lt_Range : f64;
  lt_Falloff : f64;
  lt_Attenuation0 : f64;
  lt_Attenuation1 : f64;
  lt_Attenuation2 : f64;
  lt_Theta : f64;
  lt_Phi : f64
}.

Definition zero_color : D3DCOLORVALUE := mkColorValue f0 f0 f0 f0.
Definition zero_vec : D3DXVECTOR3 := vec3 f0 f0 f0.

(** [::ZeroMemory(&lit, sizeof(lit))]. *)
Definition ZeroLight : D3DLIGHT9 :=
  mkLight9 0 zero_color zero_color zero_color zero_vec zero_vec f0 f0 f0 f0 f0 f0 f0.

(** ** The device's light table *)

(** Slot [i] holds the last light [SetLight(i, _)] gave it; [enabled]
    lists the slots [LightEnable(i, TRUE)] switched on. *)
Record LightTable : Type := mkLightTable {
  slots : list (Z * D3DLIGHT9);
  enabled : list Z
}.

Definition empty_lights : LightTable := mkLightTable [] [].

(** [IDirect3DDevice9::SetLight]. *)
Definition SetLight (i : Z) (lit : D3DLIGHT9) (d : LightTable) : LightTable :=
  mkLightTable ((i, lit) :: List.filter (fun p => negb (fst p =? i)%Z) (slots d)) (enabled d).

(** [IDirect3DDevice9::LightEnable(i, TRUE)]. *)
Definition LightEnable (i : Z) (d : LightTable) : LightTable :=
  mkLightTable (slots d) (if existsb (Z.eqb i) (enabled d) then enabled d else i :: enabled d).

(** The light in slot [i]. *)
Definition GetLight (i : Z) (d : LightTable) : option D3DLIGHT9 :=
  option_map snd (List.find (fun p => (fst p =? i)%Z) (slots d)).

Definition light_enabled (i : Z) (d : LightTable) : bool := existsb (Z.eqb i) (enabled d).

(** ** The class *)

(** [d3d::BoundingSphere] of d3dUtility.h. *)
Record BoundingSphere : Type := mkBound { b_center : D3DXVECTOR3; b_radius : f64 }.

Record CLight : Type := mkCLight {
  m_index : Z;
  l_mLocal : D3DXMATRIX;
  m_lit : D3DLIGHT9;
  m_pMesh : bool;
  m_bound : BoundingSphere
}.

(** [DWORD] is 32-bit unsigned: [i++] wraps at [2^32]. *)
Definition DWORD_MOD : Z := 2 ^ 32.

(** [CLight(void)] (lines 273-281): [m_index = i++] on the static [i],
    identity local transform, zeroed light, no mesh, empty bound. *)
Definition CLight_new (i : Z) : CLight * Z :=
  (mkCLight i D3DXMatrixIdentity ZeroLight false (mkBound zero_vec f0),
   ((i + 1) mod DWORD_MOD)%Z).

(** [create(pDevice, lit, radius = 0.1f)] (lines 284-307), success path:
    the mesh, the bound at the light's position, and a copy of the light
    field by field. *)
Definition create_light (lit : D3DLIGHT9) (radius : f64) (l : CLight) : CLight :=
  mkCLight (m_index l) (l_mLocal l)
    (mkLight9 (lt_Type lit) (lt_Diffuse lit) (lt_Specular lit) (lt_Ambient lit)
              (lt_Position lit) (lt_Direction lit) (lt_Range lit) (lt_Falloff lit)
              (lt_Attenuation0 lit) (lt_Attenuation1 lit) (lt_Attenuation2 lit)
              (lt_Theta lit) (lt_Phi lit))
    true (mkBound (lt_Position lit) radius).

(** [destroy] (lines 308-313). *)
Definition destroy_light (l : CLight) : CLight :=
  mkCLight (m_index l) (l_mLocal l) (m_lit l) false (m_bound l).

Definition with_position (lit : D3DLIGHT9) (p : D3DXVECTOR3) : D3DLIGHT9 :=
  mkLight9 (lt_Type lit) (lt_Diffuse lit) (lt_Specular lit) (lt_Ambient lit)
           p (lt_Direction lit) (lt_Range lit) (lt_Falloff lit)
           (lt_Attenuation0 lit) (lt_Attenuation1 lit) (lt_Attenuation2 lit)
           (lt_Theta lit) (lt_Phi lit).

(** [setLight(pDevice, mWorld)] (lines 314-326), [pDevice] not null. *)
Definition setLight (mWorld : D3DXMATRIX) (l : CLight) (d : LightTable) : CLight * LightTable :=
  let pos := D3DXVec3TransformCoord (D3DXVec3TransformCoord (b_center (m_bound l)) (l_mLocal l))
                                    mWorld in
  let lit := with_position (m_lit l) pos in
  (mkCLight (m_index l) (l_mLocal l) lit (m_pMesh l) (m_bound l),
   LightEnable (m_index l) (SetLight (m_index l) lit d)).

(** [getPosition] (line 338). *)
Definition getPosition (l : CLight) : D3DXVECTOR3 := lt_Position (m_lit l).

(** The light [Setup] describes (lines 563-573): a white point light at
    [(0, WORLD_SIZE * MAP_SIZE / 2, 0)] with range [WORLD_SIZE * MAP_SIZE
    * 10]; specular and ambient are white scaled by the integer
    [WORLD_SIZE * MAP_SIZE / 5]; the other fields stay zeroed. *)
Definition setup_light : D3DLIGHT9 :=
  let k := fofZ (WORLD_SIZE * MAP_SIZE / 5)%Z in
  mkLight9 D3DLIGHT_POINT (colorvalue_of WHITE)
           (color_scale (colorvalue_of WHITE) k) (color_scale (colorvalue_of WHITE) k)
           (vec3 (Fin 0) (fofZ (WORLD_SIZE * MAP_SIZE / 2)%Z) (Fin 0)) zero_vec
           (fofZ (WORLD_SIZE * MAP_SIZE * 10)%Z) f0 (Fin 0) (Fin 0.9) (Fin 0) f0 f0.

(** ** The static counter *)

(** [n] lights constructed in a row from the counter [i]. *)
Fixpoint construct_lights (n : nat) (i : Z) : list CLight * Z :=
  match n with
  | O => ([], i)
  | S n =>
      let '(l, i1) := CLight_new i in
      let '(ls, i2) := construct_lights n i1 in
      (l :: ls, i2)
  end.

Lemma construct_lights_indices (n : nat) (i : Z) :
  (0 <= i < DWORD_MOD)%Z ->
  List.map m_index (fst (construct_lights n i)) =
    List.map (fun k => ((i + Z.of_nat k) mod DWORD_MOD)%Z) (seq 0 n).
Proof.
  revert i. induction n as [|n IH]; intros i Hi; [reflexivity|].
  cbn [construct_lights CLight_new].
  destruct (construct_lights n ((i + 1) mod DWORD_MOD)) as [ls i2] eqn:E.
  cbn [fst List.map m_index seq].
  assert (Hr : (0 <= (i + 1) mod DWORD_MOD < DWORD_MOD)%Z)
    by (apply Z.mod_pos_bound; unfold DWORD_MOD; lia).
  pose proof (IH _ Hr) as IHi. rewrite E in IHi. cbn [fst] in IHi. rewrite IHi.
  f_equal; [rewrite Z.add_0_r, Z.mod_small; lia|].
  rewrite <- seq_shift, List.map_map. apply map_ext. intros k.
  rewrite Zplus_mod_idemp_l. f_equal. lia.
Qed.

Lemma mod_id_seq (n : nat) :
  (Z.of_nat n <= DWORD_MOD)%Z ->
  List.map (fun k => ((0 + Z.of_nat k) mod DWORD_MOD)%Z) (seq 0 n) = List.map Z.of_nat (seq 0 n).
Proof.
  intros Hn. apply map_ext_in. intros k Hk%in_seq. rewrite Z.mod_small; lia.
Qed.

(** C31. The light slot indices that the constructor's [static DWORD i]
    hands out are pairwise distinct for exactly the first [2^32] lights:
    the [(2^32 + 1)]-th [CLight] gets the index of the first, because the
    counter wraps around, and the two lights then share a device slot. *)
Theorem light_indices_distinct (n : nat) :
  NoDup (List.map m_index (fst (construct_lights n 0))) <-> (Z.of_nat n <= DWORD_MOD)%Z.
Proof.
  rewrite construct_lights_indices by (unfold DWORD_MOD; lia). split.
  - intros H. destruct (Z_le_gt_dec (Z.of_nat n) DWORD_MOD) as [|Hgt]; [assumption|exfalso].
    set (f := fun k : nat => ((0 + Z.of_nat k) mod DWORD_MOD)%Z).
    assert (Nth : forall k, (k < n)%nat -> nth k (List.map f (seq 0 n)) 0%Z = f k).
    { intros k Hk. rewrite nth_indep with (d' := f 0%nat) by (rewrite length_map, length_seq; exact Hk).
      rewrite map_nth, seq_nth by exact Hk. reflexivity. }
    unfold DWORD_MOD in Hgt.
    pose proof (proj1 (NoDup_nth _ 0%Z) H 0%nat (Z.to_nat DWORD_MOD)) as E.
    rewrite length_map, length_seq, !Nth in E by (unfold DWORD_MOD; lia).
    unfold f in E. rewrite Z2Nat.id, Z.add_0_l, Z.mod_same in E by (unfold DWORD_MOD; lia).
    specialize (E ltac:(lia) ltac:(unfold DWORD_MOD; lia) eq_refl). unfold DWORD_MOD in E. lia.
  - intros Hn. rewrite mod_id_seq by exact Hn.
    apply Finite.Injective_map_NoDup; [intros a b; apply Nat2Z.inj | apply seq_NoDup].
Qed.

Lemma light_indices_distinct_witness :
  NoDup (List.map m_index (fst (construct_lights 2 0))).
Proof. apply (proj2 (light_indices_distinct 2)). unfold DWORD_MOD. lia. Defined.

(** ** Handing the light to the device *)

Lemma find_filter_other (i j : Z) (l : list (Z * D3DLIGHT9)) :
  j <> i ->
  List.find (fun p => (fst p =? j)%Z) (List.filter (fun p => negb (fst p =? i)%Z) l) =
  List.find (fun p => (fst p =? j)%Z) l.
Proof.
  intros Hji. induction l as [|[k x] l IH]; [reflexivity|]. cbn [List.filter List.find fst].
  destruct (Z.eqb_spec k i) as [->|Hki]; cbn [negb List.find fst].
  - rewrite IH. replace (i =? j)%Z with false by (symmetry; apply Z.eqb_neq; congruence).
    reflexivity.
  - rewrite IH. reflexivity.
Qed.

(** [SetLight] then [LightEnable] on slot [i]: slot [i] holds the light
    and is enabled; every other slot is unchanged. *)
Lemma set_enable_slot (i : Z) (lit : D3DLIGHT9) (d : LightTable) :
  let d' := LightEnable i (SetLight i lit d) in
  GetLight i d' = Some lit /\ light_enabled i d' = true /\
  forall j, j <> i -> GetLight j d' = GetLight j d.
Proof.
  cbn zeta. unfold GetLight, light_enabled, LightEnable, SetLight; cbn [slots enabled List.find fst].
  rewrite Z.eqb_refl. split; [reflexivity|]. split.
  - destruct (existsb (Z.eqb i) (enabled d)) eqn:E; [exact E | cbn; rewrite Z.eqb_refl; reflexivity].
  - intros j Hj. replace (i =? j)%Z with false by (symmetry; apply Z.eqb_neq; congruence).
    rewrite find_filter_other by exact Hj. reflexivity.
Qed.

(** Two fields of the light record agree except for the position, which
    agrees up to [feq]. *)
Definition light_placed (lit' lit : D3DLIGHT9) : Prop :=
  with_position lit' (lt_Position lit) = lit /\ vec_feq (lt_Position lit') (lt_Position lit).

(** C32. [create] then [setLight] with the identity world matrix hands the
    device exactly the light [create] was given: slot [m_index] holds it,
    at its position (the bound's centre moved through the identity local
    and world transforms), with every other field copied, and enabled;
    the other slots of the device are untouched. *)
Theorem setLight_places (lit : D3DLIGHT9) (radius : f64) (i : Z) (d : LightTable) :
  vec_finite (lt_Position lit) ->
  let l := create_light lit radius (fst (CLight_new i)) in
  let '(l', d') := setLight D3DXMatrixIdentity l d in
  GetLight i d' = Some (m_lit l') /\ light_placed (m_lit l') lit /\
  light_enabled i d' = true /\ (forall j, j <> i -> GetLight j d' = GetLight j d) /\
  getPosition l' = lt_Position (m_lit l').
Proof.
  intros Hfin. cbn zeta. unfold setLight, create_light, CLight_new; cbn [fst m_index l_mLocal m_bound b_center m_lit m_pMesh].
  destruct (set_enable_slot i (with_position
      (mkLight9 (lt_Type lit) (lt_Diffuse lit) (lt_Specular lit) (lt_Ambient lit)
                (lt_Position lit) (lt_Direction lit) (lt_Range lit) (lt_Falloff lit)
                (lt_Attenuation0 lit) (lt_Attenuation1 lit) (lt_Attenuation2 lit)
                (lt_Theta lit) (lt_Phi lit))
      (D3DXVec3TransformCoord (D3DXVec3TransformCoord (lt_Position lit) D3DXMatrixIdentity)
                              D3DXMatrixIdentity)) d) as (H1 & H2 & H3).
  cbn [m_lit]. split; [exact H1|]. split; [|split; [exact H2 | split; [exact H3 | reflexivity]]].
  split; [destruct lit; reflexivity|]. cbn [lt_Position with_position].
  rewrite (TransformCoord_identity (lt_Position lit) Hfin).
  exact (TransformCoord_identity (lt_Position lit) Hfin).
Qed.

Lemma setLight_places_witness :
  vec_finite (lt_Position setup_light) /\
  let l := create_light setup_light (Fin 0.1) (fst (CLight_new 0)) in
  let '(l', d') := setLight D3DXMatrixIdentity l empty_lights in
  GetLight 0 d' = Some (m_lit l') /\ light_placed (m_lit l') setup_light /\
  light_enabled 0 d' = true /\ (forall j, j <> 0%Z -> GetLight j d' = GetLight j empty_lights) /\
  getPosition l' = lt_Position (m_lit l').
Proof.
  assert (H : vec_finite (lt_Position setup_light)) by (eexists _, _, _; reflexivity).
  split; [exact H | exact (setLight_places setup_light (Fin 0.1) 0 empty_lights H)].
Defined.
