(* ===== verification/Frame.v ===== *)
(** * The frame: [Display] (virtualLego.cpp lines 605-714), [Setup] and [Cleanup]

    [World] gathers the globals that the frame and the mouse handler read
    and write: the player's position [pos_x] and [pos_z], the aim
    [target_x/y/z], [my_life], [my_shoot], [my_bullet], [aim_point], the
    enemy array [g_enemy], the static [FPS], the camera's eye [pos], the
    point it looks at [target] and the view matrix [g_mView], and the
    state written into the device and the cursor.  [Level] gathers what
    [Setup] builds once: the grid, the walls, the floor, the ceiling, the
    flag, the light, [g_mWorld], the projection [g_mProj] and the
    device's lights.

    [Display] runs the frame-rate gate while [FPS == 0].  Once the gate
    has opened, it runs the simulation step [display_sim] in the
    source's order:
    - the collisions of the player's bullet with the floor, the ceiling
      and the walls;
    - for each live enemy, [Update] and then [hasHit];
    - the aim marker;
    - parking and moving the player's bullet;
    - [win];
    - movement from the keyboard ([move_player]);
    - the camera: the eye and the point looked at follow the player
      ([set_camera]).
    Every frame, the gate's included, ends by recomputing the view matrix
    and handing it and the render states to the device ([set_view]).
    Drawing (the [draw] calls, [Clear], [BeginScene], [EndScene],
    [Present]) is not modelled.  A frame
    ends in [Ok] with the next world, or in [Halt] with one of:
    - [Win] or [Lose] (both [exit(0)] in the source);
    - [Undefined] behaviour;
    - [Hang], for the gate's endless loop.
    The keyboard is [GetAsyncKeyState], a predicate on virtual-key codes.

    The theorems are grouped as follows:
    - the gate's termination and the frame times for which it opens;
    - the frames that cannot complete;
    - movement safety;
    - the per-frame effect on the enemies (at most one damaged, dead stays
      dead);
    - winning.
    Runs of several frames are in [Game]. *)

From Stdlib Require Import QArith Qabs Lqa ZArith Lia List Bool Ascii String.
From S2P Require Import Prelude Double Matrix View Sphere Wall GridMap Enemy Light.
Import ListNotations.

(** [const int Width = 1024], [Height = 768]: the window's size. *)
Definition Width : Z := 1024.
Definition Height : Z := 768.

(** [#define WALKSPEED 0.015f]. *)
Definition WALKSPEED : f64 := Fin 0.015.

Record World : Type := mkWorld {
  pos_x : f64;
  pos_z : f64;
  target_x : f64;
  target_y : f64;
  target_z : f64;
  my_life : Z;
  my_shoot : bool;
  my_bullet : CSphere;
  aim_point : CSphere;
  g_enemy : list CEnemy;
  FPS : Z;
  pos : D3DXVECTOR3;
  target : D3DXVECTOR3;
  g_mView : D3DXMATRIX;
  Device : DeviceState
}.

Record Level : Type := mkLevel {
  lmap : list string;
  g_legowalls : list CWall;
  g_legoPlane : CWall;
  g_legoCeiling : CWall;
  g_legoFlag : CWall;
  g_light : CLight;
  g_mWorld : D3DXMATRIX;
  g_mProj : D3DXMATRIX;
  dev_lights : LightTable
}.

(** [GetAsyncKeyState(vk) != 0]. *)
Definition Keys : Type := Z -> bool.

(** ** The frame-rate gate (lines 612-622)

    [for (int k = 1; true; k++)]: the first [k] with
    [timeDelta * 10^k >= 1] decides; [FPS] becomes
    [(int)(0.0003 * 10^k)] when that product is within [0.01] of 7.
    The loop ends only for a positive [timeDelta]; [fuel] bounds the
    iterations of the model and [Hang] is its answer when they run out. *)
Definition pow10 (k : Z) : f64 := Fin (inject_Z (10 ^ k)).

Fixpoint fps_scan (fuel : nat) (k : Z) (timeDelta : f64) : res Z :=
  match fuel with
  | O => Halt Hang
  | S fuel =>
      let f := fmul timeDelta (pow10 k) in
      if fle (Fin 1) f then
        if flt f (Fin 7.01) && flt (Fin 6.99) f then
          match ftoint (fmul (Fin 0.0003) (pow10 k)) with
          | Some v => Ok v
          | None => Halt (Undefined "(int) conversion of FPS out of range")
          end
        else Ok 0%Z
      else fps_scan fuel (k + 1) timeDelta
  end.

(** Enough iterations for a positive [timeDelta = n / d]: [10^d >= d]. *)
Definition fps_fuel (timeDelta : f64) : nat :=
  match timeDelta with Fin q => Pos.to_nat (Qden q) | NaN => O end.

(** ** The per-enemy loop (lines 640-646) *)

Fixpoint enemy_loop (timeDelta : f64) (walls : list CWall) (px pz : f64)
    (bullet0 : CSphere) (life0 : Z) (shoot0 : bool) (es : list CEnemy)
  : res (Z * bool * list CEnemy) :=
  match es with
  | [] => Ok (life0, shoot0, [])
  | e :: es =>
      if isAlive e then
        '(life1, e1) <- Update timeDelta walls px pz life0 e ;;
        let '(shoot1, e2) := if shoot0 then hasHit bullet0 shoot0 e1 else (shoot0, e1) in
        '(life2, shoot2, es') <- enemy_loop timeDelta walls px pz bullet0 life1 shoot1 es ;;
        Ok (life2, shoot2, e2 :: es')
      else
        '(life2, shoot2, es') <- enemy_loop timeDelta walls px pz bullet0 life0 shoot0 es ;;
        Ok (life2, shoot2, e :: es')
  end.

(** ** Movement (lines 667-695) *)

Definition key_down (keys : Keys) (vk1 vk2 : Z) : bool := keys vk1 || keys vk2.

(** The direction of the frame (lines 667-687): the unit vectors of the
    horizontal aim and of its right-hand normal, summed per key. *)
Definition move_dir (keys : Keys) (tx tz : f64) : f64 * f64 :=
  let radius := fsqrt (fadd (fsquare tx) (fsquare tz)) in
  let '(nx, nz) := (Fin 0, Fin 0) in
  let '(nx, nz) := if key_down keys 119 87
                   then (fadd nx (fdiv tx radius), fadd nz (fdiv tz radius)) else (nx, nz) in
  let '(nx, nz) := if key_down keys 115 83
                   then (fsub nx (fdiv tx radius), fsub nz (fdiv tz radius)) else (nx, nz) in
  let '(nx, nz) := if key_down keys 97 65
                   then (fsub nx (fdiv tz radius), fadd nz (fdiv tx radius)) else (nx, nz) in
  let '(nx, nz) := if key_down keys 100 68
                   then (fadd nx (fdiv tz radius), fsub nz (fdiv tx radius)) else (nx, nz) in
  (nx, nz).

(** The displacement (lines 689-691): the direction scaled to
    [WALKSPEED]. *)
Definition move_vector (keys : Keys) (tx tz : f64) : f64 * f64 :=
  let '(nx, nz) := move_dir keys tx tz in
  let next_radius := fsqrt (fadd (fsquare nx) (fsquare nz)) in
  (fmul nx (fdiv WALKSPEED next_radius), fmul nz (fdiv WALKSPEED next_radius)).

Definition set_pos (w : World) (x z : f64) : World :=
  {| pos_x := x; pos_z := z; target_x := target_x w; target_y := target_y w;
     target_z := target_z w; my_life := my_life w; my_shoot := my_shoot w;
     my_bullet := my_bullet w; aim_point := aim_point w; g_enemy := g_enemy w;
     FPS := FPS w; pos := pos w; target := target w; g_mView := g_mView w; Device := Device w |}.

Definition move_player (lv : Level) (keys : Keys) (w : World) : res World :=
  let '(next_x, next_z) := move_vector keys (target_x w) (target_z w) in
  go <- goable (lmap lv) (fadd (pos_x w) next_x) (fadd (pos_z w) next_z) ;;
  if go then Ok (set_pos w (fadd (pos_x w) next_x) (fadd (pos_z w) next_z)) else Ok w.

(** The eight virtual-key codes the movement polls, and a frame in which
    none of them is down. *)
Definition move_keys : list Z := [119; 87; 115; 83; 97; 65; 100; 68]%Z.
Definition idle (keys : Keys) : bool := forallb (fun vk => negb (keys vk)) move_keys.

(** ** The camera

    [D3DXVECTOR3 pos(0.0f, PLAYERHEIGHT, 0.0f)], [target(1.0f,
    PLAYERHEIGHT, 0.0f)] and [up(0.0f, 2.0f, 0.0f)] (lines 69-71): the
    eye, the point looked at, and the up direction. *)
Definition pos_init : D3DXVECTOR3 := vec3 (Fin 0) PLAYERHEIGHT (Fin 0).
Definition target_init : D3DXVECTOR3 := vec3 (Fin 1) PLAYERHEIGHT (Fin 0).
Definition up : D3DXVECTOR3 := vec3 (Fin 0) (Fin 2) (Fin 0).

(** The end of the simulation step (lines 697-698): the eye moves to the
    player's position at [PLAYERHEIGHT], the point looked at to the eye
    plus the aim [target_x/y/z]. *)
Definition set_camera (w : World) : World :=
  {| pos_x := pos_x w; pos_z := pos_z w; target_x := target_x w;
     target_y := target_y w; target_z := target_z w; my_life := my_life w;
     my_shoot := my_shoot w; my_bullet := my_bullet w; aim_point := aim_point w;
     g_enemy := g_enemy w; FPS := FPS w;
     pos := vec3 (pos_x w) PLAYERHEIGHT (pos_z w);
     target := vec3 (fadd (pos_x w) (target_x w)) (fadd PLAYERHEIGHT (target_y w))
                    (fadd (pos_z w) (target_z w));
     g_mView := g_mView w; Device := Device w |}.

(** The render states set by [Setup] (lines 585-587) and at the end of
    every frame (lines 709-711). *)
Definition render_states (d : DeviceState) : DeviceState :=
  SetRenderState D3DRS_SHADEMODE D3DSHADE_GOURAUD
    (SetRenderState D3DRS_SPECULARENABLE 1 (SetRenderState D3DRS_LIGHTING 1 d)).

(** The end of every frame (lines 705-711): [D3DXMatrixLookAtLH(&g_mView,
    &pos, &target, &up)], handed to the device, and the render states.
    The frame's first statement, [SetCursorPos(500, 300)] (line 608), is
    applied here too: nothing in the frame reads the cursor, so the order
    does not matter, and a frame that halts ends the program. *)
Definition set_view (w : World) : World :=
  let v := D3DXMatrixLookAtLH (pos w) (target w) up in
  {| pos_x := pos_x w; pos_z := pos_z w; target_x := target_x w;
     target_y := target_y w; target_z := target_z w; my_life := my_life w;
     my_shoot := my_shoot w; my_bullet := my_bullet w; aim_point := aim_point w;
     g_enemy := g_enemy w; FPS := FPS w; pos := pos w; target := target w;
     g_mView := v;
     Device := render_states (SetTransform D3DTS_VIEW v (SetCursorPos 500 300 (Device w))) |}.

(** The device as [Setup] leaves it: the cursor hidden (line 543), the
    view and projection handed over (lines 578 and 582), and the render
    states (lines 585-587). *)
Definition setup_device (mView mProj : D3DXMATRIX) : DeviceState :=
  render_states (SetTransform D3DTS_PROJECTION mProj
                   (SetTransform D3DTS_VIEW mView (ShowCursor false device_init))).

(** ** The simulation step (lines 629-698) *)

Definition display_sim (lv : Level) (keys : Keys) (timeDelta : f64) (w : World) : res World :=
  let b := my_bullet w in
  let s1 := if hasIntersected (g_legoPlane lv) b then false else my_shoot w in
  let s2 := if hasIntersected (g_legoCeiling lv) b then false else s1 in
  let s3 := if any_hits (g_legowalls lv) b then false else s2 in
  '(life1, s4, es) <- enemy_loop timeDelta (g_legowalls lv) (pos_x w) (pos_z w) b
                                 (my_life w) s3 (g_enemy w) ;;
  let aim := setCenter (fadd (pos_x w) (fmul (target_x w) (Fin 0.125)))
                       (fadd PLAYERHEIGHT (fmul (target_y w) (Fin 0.125)))
                       (fadd (pos_z w) (fmul (target_z w) (Fin 0.125))) (aim_point w) in
  let b1 := if s4 then b
            else setPowerY (Fin 0) (Fin 0) (Fin 0)
                   (setCenter (pos_x w) (fmul PLAYERHEIGHT (Fin 0.75)) (pos_z w) b) in
  let b2 := ballUpdate timeDelta b1 in
  won <- win (lmap lv) (pos_x w) (pos_z w) ;;
  if won then Halt Win else
  w' <- move_player lv keys
          {| pos_x := pos_x w; pos_z := pos_z w; target_x := target_x w;
             target_y := target_y w; target_z := target_z w; my_life := life1;
             my_shoot := s4; my_bullet := b2; aim_point := aim; g_enemy := es;
             FPS := FPS w; pos := pos w; target := target w; g_mView := g_mView w; Device := Device w |} ;;
  Ok (set_camera w').

Definition set_FPS (w : World) (v : Z) : World :=
  {| pos_x := pos_x w; pos_z := pos_z w; target_x := target_x w;
     target_y := target_y w; target_z := target_z w; my_life := my_life w;
     my_shoot := my_shoot w; my_bullet := my_bullet w; aim_point := aim_point w;
     g_enemy := g_enemy w; FPS := v; pos := pos w; target := target w; g_mView := g_mView w; Device := Device w |}.

(** [Display] (lines 607-714); [Device] is not null. *)
Definition Display (lv : Level) (keys : Keys) (timeDelta : f64) (w : World) : res World :=
  w1 <- (if (FPS w =? 0)%Z then
           if fne timeDelta (Fin 0) then
             v <- fps_scan (fps_fuel timeDelta) 1 timeDelta ;; Ok (set_FPS w v)
           else Ok w
         else display_sim lv keys timeDelta w) ;;
  Ok (set_view w1).

(** ** Updating the player's aim and bullet *)

Definition set_target (w : World) (tx ty tz : f64) : World :=
  {| pos_x := pos_x w; pos_z := pos_z w; target_x := tx; target_y := ty;
     target_z := tz; my_life := my_life w; my_shoot := my_shoot w;
     my_bullet := my_bullet w; aim_point := aim_point w; g_enemy := g_enemy w;
     FPS := FPS w; pos := pos w; target := target w; g_mView := g_mView w; Device := Device w |}.

Definition set_bullet (w : World) (b : CSphere) (s : bool) : World :=
  {| pos_x := pos_x w; pos_z := pos_z w; target_x := target_x w;
     target_y := target_y w; target_z := target_z w; my_life := my_life w;
     my_shoot := s; my_bullet := b; aim_point := aim_point w; g_enemy := g_enemy w;
     FPS := FPS w; pos := pos w; target := target w; g_mView := g_mView w; Device := Device w |}.

(** ** [Setup] (lines 538-594), success path *)

Definition unwrap_walls (arr : list (option CWall)) : list CWall :=
  List.map (fun o => match o with Some w => w | None => CWall_new end) arr.
Definition unwrap_enemies (arr : list (option CEnemy)) : list CEnemy :=
  List.map (fun o => match o with Some e => e | None => CEnemy_new 0 0 end) arr.

(** The floor (lines 550-551) and the ceiling (lines 553-554): [WORLD_SIZE
    * MAP_SIZE] wide and deep, half a unit thick, at heights 0 and
    [WALL_HEIGHT]. *)
Definition plane_box : CWall :=
  setPosition (Fin 0) (Fin 0) (Fin 0)
    (create (fofZ (-1)) (fofZ (-1)) (fofZ (WORLD_SIZE * MAP_SIZE)) (Fin 0.5)
            (fofZ (WORLD_SIZE * MAP_SIZE)) WHITE CWall_new).
Definition ceiling_box : CWall :=
  setPosition (Fin 0) (fofZ WALL_HEIGHT) (Fin 0)
    (create (fofZ (-1)) (fofZ (-1)) (fofZ (WORLD_SIZE * MAP_SIZE)) (Fin 0.5)
            (fofZ (WORLD_SIZE * MAP_SIZE)) WHITE CWall_new).

(** The globals before [Setup]: [pos_x = pos_z = 0], [target_x/y/z = (1, 0, 0)],
    [my_shoot = false], [FPS = 0], static-storage objects; [g_light] was
    built by [CLight()] at static initialisation, the first light, so
    with index 0; the device starts with no light.  [Setup] sets
    [g_mWorld] to the identity (line 539), loads the map, the enemies,
    the floor, the ceiling, the bullet and the marker, creates the light
    (lines 562-574) and hands it to the device (line 589).  It hides the
    cursor (line 543), aims the camera from the static [pos] at the static
    [target] (line 577), sets the projection (line 581) and hands both and
    the render states to the device (lines 578-587). *)
Definition Setup (m : list string) : res (Level * World) :=
  let mWorld := D3DXMatrixIdentity in
  st <- make_map m CWall_new (Fin 0) (Fin 0) ;;
  '(enemies, _) <- locate_enemy m ;;
  let plane := plane_box in
  let ceiling := ceiling_box in
  let px := load_pos_x st in
  let pz := load_pos_z st in
  let bullet0 := setCenter px (fmul PLAYERHEIGHT (Fin 0.75)) pz (sphere_create (CSphere_new M_RADIUS)) in
  let aim0 := setCenter px (fmul PLAYERHEIGHT (Fin 0.75)) pz (sphere_create (CSphere_new (Fin 0.001))) in
  let light1 := create_light setup_light (Fin 0.1) (fst (CLight_new 0)) in
  let '(light2, lights) := setLight mWorld light1 empty_lights in
  let mView := D3DXMatrixLookAtLH pos_init target_init up in
  let mProj := D3DXMatrixPerspectiveFovLH (fdiv D3DX_PI (fofZ 4))
                 (fdiv (fofZ Width) (fofZ Height)) (Fin 0.1) (Fin 100) in
  Ok (mkLevel m (unwrap_walls (walls_arr st)) plane ceiling (GridMap.g_legoFlag st)
              light2 mWorld mProj lights,
      mkWorld px pz (Fin 1) (Fin 0) (Fin 0) 3 false bullet0 aim0 (unwrap_enemies enemies) 0
              pos_init target_init mView (setup_device mView mProj)).

(** [destroyAllLegoBlock] (line 521): an empty function. *)
Definition destroyAllLegoBlock (lv : Level) : Level := lv.

(** [Cleanup] (lines 596-603): destroys the floor, then [g_legowalls[i]]
    for [i < MAP_SIZE * MAP_SIZE], then calls [destroyAllLegoBlock] and
    destroys the light.  The ceiling, the flag, the balls and the enemies
    are never destroyed. *)
Definition Cleanup (lv : Level) : res Level :=
  let plane := destroy (g_legoPlane lv) in
  walls <- cleanup_walls (g_legowalls lv) 0 (Z.to_nat (MAP_SIZE * MAP_SIZE)) ;;
  let lv1 := destroyAllLegoBlock
               (mkLevel (lmap lv) walls plane (g_legoCeiling lv) (g_legoFlag lv)
                        (g_light lv) (g_mWorld lv) (g_mProj lv) (dev_lights lv)) in
  Ok (mkLevel (lmap lv1) (g_legowalls lv1) (g_legoPlane lv1) (g_legoCeiling lv1)
              (g_legoFlag lv1) (destroy_light (g_light lv1)) (g_mWorld lv1) (g_mProj lv1)
              (dev_lights lv1)).

(** ** Termination of the frame-rate gate *)

Lemma fle_one_pow10 (q : Q) (j : Z) :
  fle (Fin 1) (fmul (Fin q) (pow10 j)) = true <-> 1 <= q * inject_Z (10 ^ j).
Proof. simpl. apply Qle_bool_iff. Qed.

(** If some [j] in [[k, k + fuel)] has [q * 10^j >= 1], the loop stops
    within the fuel. *)
Lemma fps_scan_stops (fuel : nat) (k : Z) (q : Q) :
  (exists j, (k <= j < k + Z.of_nat fuel)%Z /\ 1 <= q * inject_Z (10 ^ j)) ->
  fps_scan fuel k (Fin q) <> Halt Hang.
Proof.
  revert k. induction fuel as [|fuel IH]; intros k (j & Hj & Hq); [lia|].
  cbn [fps_scan]. destruct (fle (Fin 1) (fmul (Fin q) (pow10 k))) eqn:E.
  - destruct (flt (fmul (Fin q) (pow10 k)) (Fin 7.01) && flt (Fin 6.99) (fmul (Fin q) (pow10 k)));
      [destruct (ftoint (fmul (Fin 0.0003) (pow10 k)))|]; discriminate.
  - apply IH. exists j. split; [|exact Hq].
    destruct (Z.eq_dec j k) as [->|Hne]; [|lia].
    apply fle_one_pow10 in Hq. congruence.
Qed.

(** Without such a [j] the loop runs out of any fuel. *)
Lemma fps_scan_hangs (fuel : nat) (k : Z) (t : f64) :
  (forall j, fle (Fin 1) (fmul t (pow10 j)) = false) -> fps_scan fuel k t = Halt Hang.
Proof.
  intros H. revert k. induction fuel as [|fuel IH]; intros k; [reflexivity|].
  cbn [fps_scan]. rewrite H. apply IH.
Qed.

Lemma pow10_ge_den (d : positive) : (Zpos d <= 10 ^ Zpos d)%Z.
Proof. pose proof (Z.pow_gt_lin_r 10 (Zpos d) ltac:(lia) ltac:(lia)). lia. Qed.

(** C12. The frame-rate gate's [for (k = 1; true; k++)] loop terminates
    exactly for a positive [timeDelta]: with [fps_fuel] iterations it
    stops for every [timeDelta > 0], while for [timeDelta <= 0] or NaN no
    number of iterations ends it. *)
Theorem fps_scan_terminates (t : f64) :
  (forall q, t = Fin q -> 0 < q -> fps_scan (fps_fuel t) 1 t <> Halt Hang) /\
  ((t = NaN \/ exists q, t = Fin q /\ q <= 0) -> forall fuel k, fps_scan fuel k t = Halt Hang).
Proof.
  split.
  - intros q -> Hq. apply fps_scan_stops. exists (Zpos (Qden q)).
    simpl fps_fuel. split; [lia|].
    destruct q as [n d]. unfold Qlt in Hq; simpl in Hq |- *.
    pose proof (pow10_ge_den d) as Hd.
    unfold Qle; simpl. nia.
  - intros Ht fuel k. apply fps_scan_hangs. intros j.
    destruct Ht as [->|(q & -> & Hq)]; [reflexivity|].
    destruct (fle (Fin 1) (fmul (Fin q) (pow10 j))) eqn:E; [|reflexivity].
    apply fle_one_pow10 in E. exfalso.
    assert (0 <= inject_Z (10 ^ j)).
    { change 0 with (inject_Z 0). rewrite <- Zle_Qle.
      destruct (Z.le_gt_cases 0 j); [apply Z.pow_nonneg; lia | rewrite Z.pow_neg_r; lia]. }
    nra.
Qed.

Lemma fps_scan_terminates_witness :
  fps_scan (fps_fuel (Fin (7#10000))) 1 (Fin (7#10000)) <> Halt Hang.
Proof. exact (proj1 (fps_scan_terminates (Fin (7#10000))) (7#10000) eq_refl ltac:(by_eval)). Defined.

(** ** The gate stays closed for frames of a millisecond or more *)

Lemma ftoint_fps_small (k : Z) :
  (1 <= k <= 3)%Z -> ftoint (fmul (Fin 0.0003) (pow10 k)) = Some 0%Z.
Proof. intros Hk. assert (k = 1 \/ k = 2 \/ k = 3)%Z as [->|[->| ->]] by lia; reflexivity. Qed.

(** Once the loop has passed every [i < k] and [q * 10^3 >= 1], it stops
    at some [k <= 3], where [0.0003 * 10^k < 1] truncates to 0. *)
Lemma fps_scan_zero (fuel : nat) (k : Z) (q : Q) :
  (1 <= k)%Z -> 1 <= q * inject_Z (10 ^ 3) ->
  (forall i, (1 <= i < k)%Z -> q * inject_Z (10 ^ i) < 1) ->
  (exists j, (k <= j < k + Z.of_nat fuel)%Z /\ 1 <= q * inject_Z (10 ^ j)) ->
  fps_scan fuel k (Fin q) = Ok 0%Z.
Proof.
  revert k. induction fuel as [|fuel IH]; intros k Hk H3 Hlow (j & Hj & Hq); [lia|].
  cbn [fps_scan]. destruct (fle (Fin 1) (fmul (Fin q) (pow10 k))) eqn:E.
  - assert (k <= 3)%Z.
    { destruct (Z.le_gt_cases k 3) as [|Hgt]; [assumption|].
      specialize (Hlow 3%Z ltac:(lia)). lra. }
    rewrite ftoint_fps_small by lia.
    destruct (_ && _); reflexivity.
  - apply IH; [lia|exact H3| |].
    + intros i Hi. destruct (Z.eq_dec i k) as [->|]; [|apply Hlow; lia].
      apply Qnot_le_lt. intros Hle. apply fle_one_pow10 in Hle. congruence.
    + exists j. split; [|exact Hq].
      destruct (Z.eq_dec j k) as [->|Hne]; [|lia].
      apply fle_one_pow10 in Hq. congruence.
Qed.

(** A frame time of a millisecond or more stops the gate's loop at some
    [k <= 3], with [FPS] left at 0. *)
Lemma fps_scan_ms (q : Q) :
  1 # 1000 <= q -> fps_scan (fps_fuel (Fin q)) 1 (Fin q) = Ok 0%Z.
Proof.
  intros Hq. apply fps_scan_zero; [lia| |intros; lia|].
  - change (inject_Z (10 ^ 3)) with 1000. qlra.
  - destruct q as [n d]. simpl fps_fuel.
    destruct (Z.le_gt_cases 3 (Zpos d)).
    + exists 3%Z. split; [lia|]. change (inject_Z (10 ^ 3)) with 1000. qlra.
    + exists 1%Z. split; [lia|]. change (inject_Z (10 ^ 1)) with 10.
      unfold Qle in Hq |- *; simpl in Hq |- *. nia.
Qed.

Lemma fne_zero (q : Q) : ~ q == 0 -> fne (Fin q) (Fin 0) = true.
Proof.
  intros H. unfold fne; simpl. destruct (Qeq_bool q 0) eqn:E; [|reflexivity].
  apply Qeq_bool_iff in E. contradiction.
Qed.

(** C13. The frame-rate gate never opens for a frame time of a
    millisecond or more: from [FPS == 0], [Display] with any
    [timeDelta >= 0.001] leaves [FPS] at 0 and the world unchanged, so the
    simulation step never runs at such frame rates. *)
Theorem Display_gate_closed (lv : Level) (keys : Keys) (q : Q) (w : World) :
  FPS w = 0%Z -> 1 # 1000 <= q -> Display lv keys (Fin q) w = Ok (set_view (set_FPS w 0)).
Proof.
  intros HF Hq. unfold Display. rewrite HF. cbn [Z.eqb].
  rewrite fne_zero by lra. rewrite fps_scan_ms by exact Hq. reflexivity.
Qed.

Lemma Display_gate_closed_witness :
  exists lw, Setup map = Ok lw /\
  Display (fst lw) (fun _ => false) (Fin (1 # 60)) (snd lw) = Ok (set_view (set_FPS (snd lw) 0)).
Proof.
  eexists. split; [vm_compute; reflexivity|].
  apply Display_gate_closed; [reflexivity|by_eval].
Defined.

(** ** How a frame can halt *)

Lemma Update_halt (dt : f64) (ws : list CWall) (px pz : f64) (l : Z) (e : CEnemy) h :
  Update dt ws px pz l e = Halt h -> h = Lose.
Proof.
  unfold Update. destruct (_ && _); [congruence|]. discriminate.
Qed.

(** The per-enemy loop halts only when the player loses. *)
Lemma enemy_loop_halt dt ws px pz b l s es h :
  enemy_loop dt ws px pz b l s es = Halt h -> h = Lose.
Proof.
  revert l s. induction es as [|e es IH]; intros l s; cbn [enemy_loop]; [discriminate|].
  destruct (isAlive e).
  - destruct (Update dt ws px pz l e) as [[l1 e1]|h1] eqn:EU; cbn [res_bind];
      [|intros H; injection H as <-; exact (Update_halt _ _ _ _ _ _ _ EU)].
    destruct (if s then hasHit b s e1 else (s, e1)) as [s1 e2].
    destruct (enemy_loop _ _ _ _ _ _ _ es) as [[[l2 s2] es']|h2] eqn:E; cbn [res_bind];
      [discriminate|]. intros H; injection H as <-. exact (IH _ _ E).
  - destruct (enemy_loop _ _ _ _ _ _ _ es) as [[[l2 s2] es']|h2] eqn:E; cbn [res_bind];
      [discriminate|]. intros H; injection H as <-. exact (IH _ _ E).
Qed.

(** The map probes halt only on undefined behaviour. *)
Lemma any_probe_halt (m : list string) (ch : ascii) (x z : f64) h :
  any_probe m ch x z = Halt h -> exists what, h = Undefined what.
Proof.
  assert (Hm : forall zz xx h, map_at m zz xx = Halt h -> exists what, h = Undefined what).
  { intros zz xx h'. unfold map_at, cell_res.
    repeat match goal with |- context [match ?o with Some _ => _ | None => _ end] =>
      destruct o end; intros H; inversion H; eauto. }
  unfold any_probe.
  repeat (match goal with
          | |- context [res_bind (map_at m ?zz ?xx) _] =>
              destruct (map_at m zz xx) eqn:?; cbn [res_bind]; [|intros H; injection H as <-; eauto]
          | |- context [if ?c then _ else _] => destruct c
          end); discriminate.
Qed.

(** ** A frame without movement keys *)

(** With no movement key down, [next_x = next_z = 0], so [next_radius = 0]
    and [WALKSPEED / next_radius] is a division by zero: both
    displacements are NaN. *)
Lemma move_vector_idle (keys : Keys) (tx tz : f64) :
  idle keys = true -> move_vector keys tx tz = (NaN, NaN).
Proof.
  unfold idle, move_keys. cbn [forallb]. rewrite !andb_true_iff, !negb_true_iff.
  intros (H1 & H2 & H3 & H4 & H5 & H6 & H7 & H8 & _).
  unfold move_vector, move_dir, key_down. rewrite H1, H2, H3, H4, H5, H6, H7, H8.
  reflexivity.
Qed.

Lemma move_player_nan (lv : Level) (keys : Keys) (w : World) nz :
  fst (move_vector keys (target_x w) (target_z w)) = NaN \/
  snd (move_vector keys (target_x w) (target_z w)) = NaN ->
  move_vector keys (target_x w) (target_z w) = nz ->
  move_player lv keys w = Halt (Undefined "(int) conversion of NaN or of a value out of range").
Proof.
  intros Hn E. unfold move_player. rewrite E in *. destruct nz as [nx' nz'].
  unfold goable. rewrite any_probe_nan; [reflexivity|].
  simpl in Hn. destruct Hn as [-> | ->]; [left | right]; apply fadd_nan_r.
Qed.

(** C10. A frame of the running game in which no movement key is down
    never completes: [next_radius] is 0, the displacement is NaN, and
    [goable] converts NaN to [int] to index [map] (undefined behaviour);
    unless the frame has already ended in a win or a loss, it ends there. *)
Theorem Display_idle_undefined (lv : Level) (keys : Keys) (dt : f64) (w : World) :
  FPS w <> 0%Z -> idle keys = true ->
  Display lv keys dt w = Halt Win \/ Display lv keys dt w = Halt Lose \/
  exists what, Display lv keys dt w = Halt (Undefined what).
Proof.
  intros HF Hidle. unfold Display.
  destruct (Z.eqb_spec (FPS w) 0) as [|_]; [contradiction|].
  unfold display_sim.
  destruct (enemy_loop _ _ _ _ _ _ _ _) as [[[l s] es]|h] eqn:El; cbn [res_bind].
  2:{ apply enemy_loop_halt in El. subst. auto. }
  destruct (win _ _ _) as [[|]|h] eqn:Ew; cbn [res_bind]; [auto| |].
  - right; right. eexists. erewrite move_player_nan; [reflexivity | | reflexivity].
    cbn [target_x target_z]. rewrite move_vector_idle by exact Hidle. left; reflexivity.
  - apply any_probe_halt in Ew. destruct Ew as [what ->]. eauto.
Qed.

Lemma Display_idle_undefined_witness :
  exists lw, Setup map = Ok lw /\
  (Display (fst lw) (fun _ => false) (Fin (1 # 60)) (set_FPS (snd lw) 3) = Halt Win \/
   Display (fst lw) (fun _ => false) (Fin (1 # 60)) (set_FPS (snd lw) 3) = Halt Lose \/
   exists what, Display (fst lw) (fun _ => false) (Fin (1 # 60)) (set_FPS (snd lw) 3) =
                Halt (Undefined what)).
Proof.
  eexists. split; [vm_compute; reflexivity|].
  apply Display_idle_undefined; by_eval.
Defined.

(** ** Movement keeps the player inside the maze *)

Lemma Qabs_le_of_sq (x s : Q) : 0 <= s -> x * x <= s * s -> Qabs x <= s.
Proof.
  intros Hs H. apply Qabs_Qle_condition. split.
  - destruct (Qlt_le_dec x (- s)) as [Hx|Hx]; [|exact Hx]. nra.
  - destruct (Qlt_le_dec s x) as [Hx|Hx]; [|exact Hx]. nra.
Qed.

(** Scaling [u] by [WALKSPEED / sqrt(x^2 + y^2)], for [u] one of [x] and
    [y], gives at most [WALKSPEED] in absolute value when it is finite. *)
Lemma walk_scale_bound (u x y : f64) (a : Q) :
  u = x \/ u = y ->
  fmul u (fdiv WALKSPEED (fsqrt (fadd (fsquare x) (fsquare y)))) = Fin a ->
  Qabs a <= 0.015.
Proof.
  intros Hu. unfold WALKSPEED.
  destruct x as [x|], y as [y|]; cbn [fsquare fmul fadd fsqrt fdiv];
    try (intros E; destruct u; cbn in E; discriminate E).
  assert (Hxy : 0 <= x * x + y * y) by nra.
  destruct (Qltb (x * x + y * y) 0) eqn:En;
    [apply Qltb_iff in En; lra|]. cbn [fdiv].
  set (s := Qsqrt_up (x * x + y * y)).
  pose proof (Qsqrt_up_nonneg (x * x + y * y)) as Hs0.
  pose proof (Qsqrt_up_sq (x * x + y * y) Hxy) as Hs2. fold s in Hs0, Hs2.
  destruct (Qeq_bool s 0) eqn:Ez; [intros E; destruct u; cbn in E; discriminate E|].
  assert (Hpos : 0 < s).
  { destruct (Qeq_dec s 0) as [E|E]; [apply Qeq_bool_iff in E; congruence|].
    apply Qle_lteq in Hs0 as [|E']; [assumption|]. exfalso; apply E; symmetry; exact E'. }
  assert (Hu' : Qabs (match u with Fin q => q | NaN => 0 end) <= s).
  { apply Qabs_le_of_sq; [lra|]. destruct Hu as [-> | ->]; nra. }
  destruct u as [q|]; [|discriminate]. intros E. injection E as <-.
  set (t := 0.015 / s).
  assert (Ht : t * s == 0.015) by (unfold t; field; lra).
  assert (Ht0 : 0 <= t) by (unfold t; apply Qle_shift_div_l; lra).
  rewrite Qabs_Qmult, (Qabs_pos t Ht0). nra.
Qed.

Lemma move_vector_bound (keys : Keys) (tx tz : f64) (a b : Q) :
  move_vector keys tx tz = (Fin a, Fin b) -> Qabs a <= 0.015 /\ Qabs b <= 0.015.
Proof.
  unfold move_vector. destruct (move_dir keys tx tz) as [nx nz].
  intros E. injection E as Ea Eb. split.
  - exact (walk_scale_bound nx nx nz a (or_introl eq_refl) Ea).
  - exact (walk_scale_bound nz nx nz b (or_intror eq_refl) Eb).
Qed.

Lemma set_pos_same (w : World) : set_pos w (pos_x w) (pos_z w) = w.
Proof. destruct w; reflexivity. Qed.

(** A finite displacement from the interior lands in the interior,
    whether [goable] accepts it or not. *)
Lemma move_player_finite (lv : Level) (keys : Keys) (w : World) (x z a b : Q) :
  map_wf (lmap lv) -> bordered (lmap lv) ->
  pos_x w = Fin x -> pos_z w = Fin z -> interior x z ->
  move_vector keys (target_x w) (target_z w) = (Fin a, Fin b) ->
  exists x' z', move_player lv keys w = Ok (set_pos w (Fin x') (Fin z')) /\ interior x' z'.
Proof.
  intros Hwf Hb Ex Ez Hin Em.
  destruct (move_vector_bound _ _ _ _ _ Em) as [Ha Hb'].
  apply Qabs_Qle_condition in Ha, Hb'. unfold interior in Hin.
  assert (Hbd : in_bounds (x + a) (z + b)) by (unfold in_bounds; repeat split; lra).
  destruct (goable_win_defined _ _ _ Hwf Hbd) as [[go Hgo] _].
  unfold move_player. rewrite Em, Ex, Ez. cbn [fadd]. rewrite Hgo. cbn [res_bind].
  destruct go.
  - exists (x + a), (z + b). split; [reflexivity|].
    exact (goable_interior _ _ _ Hwf Hb Hbd Hgo).
  - exists x, z. rewrite <- Ex, <- Ez, set_pos_same. split; [reflexivity|].
    unfold interior; lra.
Qed.

(** C5. Movement from a position inside a well-formed bordered maze
    never reads [map] out of bounds and never leaves the interior: when
    the frame's displacement is finite, [move_player] returns the world
    at a new or the same position, strictly inside the border walls;
    when it is NaN, the frame ends in the undefined [(int)] conversion. *)
Theorem move_player_safe (lv : Level) (keys : Keys) (w : World) (x z : Q) :
  map_wf (lmap lv) -> bordered (lmap lv) ->
  pos_x w = Fin x -> pos_z w = Fin z -> interior x z ->
  match move_vector keys (target_x w) (target_z w) with
  | (Fin _, Fin _) => exists x' z', move_player lv keys w = Ok (set_pos w (Fin x') (Fin z')) /\
                                    interior x' z'
  | _ => move_player lv keys w = Halt (Undefined "(int) conversion of NaN or of a value out of range")
  end.
Proof.
  intros Hwf Hb Ex Ez Hin.
  destruct (move_vector keys (target_x w) (target_z w)) as [[a|] [b|]] eqn:Em;
    try (eapply move_player_nan; [rewrite Em; simpl; auto | reflexivity]).
  exact (move_player_finite _ _ _ _ _ _ _ Hwf Hb Ex Ez Hin Em).
Qed.

(** A completed movement from the interior stays in the interior. *)
Lemma move_player_interior (lv : Level) (keys : Keys) (w w' : World) (x z : Q) :
  map_wf (lmap lv) -> bordered (lmap lv) ->
  pos_x w = Fin x -> pos_z w = Fin z -> interior x z ->
  move_player lv keys w = Ok w' ->
  exists x' z', pos_x w' = Fin x' /\ pos_z w' = Fin z' /\ interior x' z'.
Proof.
  intros Hwf Hb Ex Ez Hin Hm.
  destruct (move_vector keys (target_x w) (target_z w)) as [[a|] [b|]] eqn:Em;
    try (rewrite (move_player_nan lv keys w _ ltac:(rewrite Em; simpl; auto) eq_refl) in Hm;
         discriminate Hm).
  destruct (move_player_finite _ _ _ _ _ _ _ Hwf Hb Ex Ez Hin Em) as (x' & z' & E & Hi).
  rewrite E in Hm. injection Hm as <-. exists x', z'. auto.
Qed.

(** ** One bullet, at most one damaged enemy per frame *)

Definition estate_eqb (a b : estate) : bool :=
  match a, b with
  | Alive h, Alive h' => (h =? h')%Z
  | Dead, Dead => true
  | _, _ => false
  end.

Lemma estate_eqb_refl (a : estate) : estate_eqb a a = true.
Proof. destruct a; simpl; [apply Z.eqb_refl | reflexivity]. Qed.

(** The number of enemies whose abstract state differs between two
    arrays, position by position. *)
Fixpoint changes (es es' : list CEnemy) : nat :=
  match es, es' with
  | e :: es, e' :: es' =>
      (if estate_eqb (abs_enemy e) (abs_enemy e') then 0 else 1) + changes es es'
  | _, _ => 0
  end.

Lemma Update_abs dt ws px pz l e l' e' :
  Update dt ws px pz l e = Ok (l', e') -> abs_enemy e' = abs_enemy e.
Proof.
  intros H. apply Update_keeps_state in H as [Hl Ha]. unfold abs_enemy. rewrite Hl, Ha.
  reflexivity.
Qed.

(** A hit consumes the bullet: the enemy changes only if [my_shoot]
    becomes false. *)
Lemma hasHit_consumed (b : CSphere) (e : CEnemy) s1 e2 :
  hasHit b true e = (s1, e2) ->
  ((if estate_eqb (abs_enemy e) (abs_enemy e2) then 0 else 1) + Nat.b2n s1 <= 1)%nat.
Proof.
  destruct (hasHit_cases b true e) as [[_ H]|[[_ H]|[_ H]]]; rewrite H;
    intros E; injection E as <- <-.
  - destruct (estate_eqb _ _); simpl; lia.
  - destruct (estate_eqb _ _); simpl; lia.
  - rewrite estate_eqb_refl. simpl. lia.
Qed.

(** The loop over the enemies: with the bullet in flight at most one
    enemy changes, and then the bullet is no longer in flight; without
    it none changes. *)
Lemma enemy_loop_consumes dt ws px pz b es :
  forall l s l' s' es',
  enemy_loop dt ws px pz b l s es = Ok (l', s', es') ->
  (changes es es' + Nat.b2n s' <= Nat.b2n s)%nat.
Proof.
  induction es as [|e es IH]; intros l s l' s' es' H; cbn [enemy_loop] in H.
  - injection H as <- <- <-. simpl. lia.
  - destruct (isAlive e).
    + destruct (Update dt ws px pz l e) as [[l1 e1]|h] eqn:EU; cbn [res_bind] in H;
        [|discriminate].
      destruct s.
      * destruct (hasHit b true e1) as [s1 e2] eqn:EH.
        destruct (enemy_loop _ _ _ _ _ _ _ es) as [[[l2 s2] es2]|h] eqn:ER;
          cbn [res_bind] in H; [|discriminate]. injection H as <- <- <-.
        pose proof (IH _ _ _ _ _ ER). pose proof (hasHit_consumed _ _ _ _ EH).
        cbn [changes]. rewrite <- (Update_abs _ _ _ _ _ _ _ _ EU). simpl in *. lia.
      * destruct (enemy_loop _ _ _ _ _ _ _ es) as [[[l2 s2] es2]|h] eqn:ER;
          cbn [res_bind] in H; [|discriminate]. injection H as <- <- <-.
        pose proof (IH _ _ _ _ _ ER).
        cbn [changes]. rewrite (Update_abs _ _ _ _ _ _ _ _ EU), estate_eqb_refl. simpl in *. lia.
    + destruct (enemy_loop _ _ _ _ _ _ _ es) as [[[l2 s2] es2]|h] eqn:ER;
        cbn [res_bind] in H; [|discriminate]. injection H as <- <- <-.
      pose proof (IH _ _ _ _ _ ER). cbn [changes]. rewrite estate_eqb_refl. simpl. lia.
Qed.

Lemma changes_refl (es : list CEnemy) : changes es es = 0%nat.
Proof. induction es as [|e es IH]; simpl; [reflexivity|]. rewrite estate_eqb_refl, IH. reflexivity. Qed.

(** [move_player] changes the position only. *)
Lemma move_player_set_pos (lv : Level) (keys : Keys) (w w' : World) :
  move_player lv keys w = Ok w' -> exists x z, w' = set_pos w x z.
Proof.
  unfold move_player. destruct (move_vector _ _ _) as [nx nz].
  destruct (goable _ _ _) as [[|]|h]; cbn [res_bind]; intros H; try discriminate H;
    injection H as <-; [eauto|]. exists (pos_x w), (pos_z w). symmetry; apply set_pos_same.
Qed.

(** The three ways a frame completes: the gate left the world as it was,
    the gate set [FPS], or the simulation step ran. *)
Lemma Display_Ok (lv : Level) (keys : Keys) (dt : f64) (w w' : World) :
  Display lv keys dt w = Ok w' ->
  exists w1, w' = set_view w1 /\
  (w1 = w \/ (exists v, w1 = set_FPS w v) \/
   (FPS w <> 0%Z /\ display_sim lv keys dt w = Ok w1)).
Proof.
  unfold Display. intros H. apply res_bind_Ok_inv in H as (w1 & H & E).
  injection E as <-. exists w1. split; [reflexivity|]. revert H.
  destruct (Z.eqb_spec (FPS w) 0) as [_|HF].
  - destruct (fne dt (Fin 0)); [|intros H; injection H as <-; auto].
    destruct (fps_scan _ _ _) as [v|h]; cbn [res_bind]; [|discriminate].
    intros H; injection H as <-. eauto.
  - auto.
Qed.

(** The simulation step: the enemy loop ran from the bullet's flag after
    the floor, ceiling and wall tests, the player was not on the flag, and
    the world the loop produced was then moved. *)
Lemma display_sim_Ok (lv : Level) (keys : Keys) (dt : f64) (w w' : World) :
  display_sim lv keys dt w = Ok w' ->
  exists s3 l1 s4 es w1 w2,
    (Nat.b2n s3 <= Nat.b2n (my_shoot w))%nat /\
    enemy_loop dt (g_legowalls lv) (pos_x w) (pos_z w) (my_bullet w) (my_life w) s3 (g_enemy w)
      = Ok (l1, s4, es) /\
    win (lmap lv) (pos_x w) (pos_z w) = Ok false /\
    move_player lv keys w1 = Ok w2 /\ w' = set_camera w2 /\
    pos_x w1 = pos_x w /\ pos_z w1 = pos_z w /\ my_life w1 = l1 /\ my_shoot w1 = s4 /\
    g_enemy w1 = es /\ FPS w1 = FPS w /\
    s3 = (if any_hits (g_legowalls lv) (my_bullet w) then false
          else if hasIntersected (g_legoCeiling lv) (my_bullet w) then false
          else if hasIntersected (g_legoPlane lv) (my_bullet w) then false
          else my_shoot w) /\
    my_bullet w1 = ballUpdate dt (if s4 then my_bullet w
                                  else setPowerY (Fin 0) (Fin 0) (Fin 0)
                                         (setCenter (pos_x w) (fmul PLAYERHEIGHT (Fin 0.75))
                                                    (pos_z w) (my_bullet w))) /\
    aim_point w1 = setCenter (fadd (pos_x w) (fmul (target_x w) (Fin 0.125)))
                             (fadd PLAYERHEIGHT (fmul (target_y w) (Fin 0.125)))
                             (fadd (pos_z w) (fmul (target_z w) (Fin 0.125))) (aim_point w) /\
    target_x w1 = target_x w /\ target_y w1 = target_y w /\ target_z w1 = target_z w.
Proof.
  unfold display_sim.
  set (s3 := if any_hits _ _ then false else _).
  assert (Hs : (Nat.b2n s3 <= Nat.b2n (my_shoot w))%nat).
  { unfold s3. repeat match goal with |- context [if ?c then _ else _] => destruct c end;
      simpl; lia. }
  destruct (enemy_loop _ _ _ _ _ _ _ _) as [[[l1 s4] es]|h] eqn:El; cbn [res_bind];
    [|discriminate].
  destruct (win _ _ _) as [[|]|h] eqn:Ew; cbn [res_bind]; [discriminate| |discriminate].
  intros H. apply res_bind_Ok_inv in H as (w2 & H & E). injection E as <-.
  exists s3, l1, s4, es. eexists. exists w2.
  split; [exact Hs|]. split; [first [exact El | reflexivity]|].
  split; [first [exact Ew | reflexivity]|]. split; [exact H|].
  repeat split; reflexivity.
Qed.

(** C4. Within one frame the player's bullet damages at most one enemy:
    the abstract state ([Alive h] or [Dead]) of at most one enemy
    changes, and of none when no bullet was in flight at the start of
    the frame. *)
Theorem Display_one_hit (lv : Level) (keys : Keys) (dt : f64) (w w' : World) :
  Display lv keys dt w = Ok w' ->
  (changes (g_enemy w) (g_enemy w') <= Nat.b2n (my_shoot w))%nat.
Proof.
  intros H. destruct (Display_Ok _ _ _ _ _ H) as (w0 & -> & [->|[[v ->]|[_ Hs]]]);
    [rewrite changes_refl; lia | simpl; rewrite changes_refl; lia |].
  destruct (display_sim_Ok _ _ _ _ _ Hs)
    as (s3 & l1 & s4 & es & w1 & w2 & Hs3 & El & _ & Hm & -> & _ & _ & _ & _ & He & _).
  destruct (move_player_set_pos _ _ _ _ Hm) as (x & z & ->).
  cbn [g_enemy set_pos set_camera set_view]. rewrite He.
  pose proof (enemy_loop_consumes _ _ _ _ _ _ _ _ _ _ _ El). lia.
Qed.

(** ** What the per-enemy loop does to each enemy *)

(** An enemy after the loop: a dead enemy is skipped; a live one is
    updated and, if the bullet was in flight, tested by [hasHit]. *)
Definition enemy_step (dt : f64) (ws : list CWall) (px pz : f64) (b : CSphere)
    (e e' : CEnemy) : Prop :=
  (alive e = false /\ e' = e) \/
  (alive e = true /\ exists l l1 e1, Update dt ws px pz l e = Ok (l1, e1) /\
                                     (e' = e1 \/ exists s, e' = snd (hasHit b s e1))).

Lemma enemy_loop_pointwise dt ws px pz b es :
  forall l s l' s' es',
  enemy_loop dt ws px pz b l s es = Ok (l', s', es') ->
  Forall2 (enemy_step dt ws px pz b) es es'.
Proof.
  induction es as [|e es IH]; intros l s l' s' es' H; cbn [enemy_loop] in H.
  - injection H as _ _ <-. constructor.
  - unfold isAlive in H. destruct (alive e) eqn:Ea.
    + destruct (Update dt ws px pz l e) as [[l1 e1]|h] eqn:EU; cbn [res_bind] in H;
        [|discriminate].
      destruct (if s then hasHit b s e1 else (s, e1)) as [s1 e2] eqn:EH.
      destruct (enemy_loop _ _ _ _ _ _ _ es) as [[[l2 s2] es2]|h] eqn:ER;
        cbn [res_bind] in H; [|discriminate]. injection H as _ _ <-.
      constructor; [|exact (IH _ _ _ _ _ ER)].
      right. split; [exact Ea|]. exists l, l1, e1. split; [exact EU|].
      destruct s; [right; exists true; rewrite EH; reflexivity | injection EH as _ <-; left; reflexivity].
    + destruct (enemy_loop _ _ _ _ _ _ _ es) as [[[l2 s2] es2]|h] eqn:ER;
        cbn [res_bind] in H; [|discriminate]. injection H as _ _ <-.
      constructor; [left; auto | exact (IH _ _ _ _ _ ER)].
Qed.

Lemma hasHit_life_le (b : CSphere) (s : bool) (e : CEnemy) :
  (life (snd (hasHit b s e)) <= life e)%Z /\
  (alive (snd (hasHit b s e)) = true -> alive e = true).
Proof.
  destruct (hasHit_cases b s e) as [[_ H]|[[_ H]|[_ H]]]; rewrite H; cbn [snd].
  - rewrite hit_life, hit_alive. split; [lia|]. intros E. apply andb_true_iff in E. tauto.
  - simpl. split; [lia | discriminate].
  - split; [lia | auto].
Qed.

(** Dead enemies are untouched; a live one never gains life and never
    comes back from the dead. *)
Lemma enemy_step_mono dt ws px pz b e e' :
  enemy_step dt ws px pz b e e' ->
  (alive e = false -> e' = e) /\ (alive e' = true -> alive e = true) /\
  (life e' <= life e)%Z.
Proof.
  intros [[Ha ->]|[Ha (l & l1 & e1 & EU & He)]]; [split; [auto|]; split; [auto | lia]|].
  apply Update_keeps_state in EU as [Hl Hal].
  split; [congruence|].
  destruct He as [->|[s ->]]; [split; [auto | lia]|].
  destruct (hasHit_life_le b s e1). split; [auto | lia].
Qed.

Lemma enemy_step_inv dt ws px pz b e e' :
  enemy_step dt ws px pz b e e' -> enemy_inv e -> enemy_inv e'.
Proof.
  intros [[Ha ->]|[Ha (l & l1 & e1 & EU & He)]] Hinv; [exact Hinv|].
  apply Update_keeps_state in EU as [Hl Hal].
  assert (Hinv1 : enemy_inv e1) by (unfold enemy_inv in *; rewrite Hl, Hal; exact Hinv).
  destruct He as [->|[s ->]]; [exact Hinv1|].
  apply hasHit_inv; [exact Hinv1 | congruence].
Qed.

(** [Update] keeps the player's life in range: it takes one point, and
    only while at least one is left after it. *)
Lemma Update_life_range dt ws px pz l e l1 e1 :
  Update dt ws px pz l e = Ok (l1, e1) -> (l1 <= l)%Z /\ (l1 = l \/ 1 <= l1)%Z.
Proof.
  unfold Update. destruct (player_hit _ _); cbn [andb];
    [destruct (l - 1 <=? 0)%Z eqn:E; [discriminate|] | ];
    intros H; injection H as <- _; lia.
Qed.

Lemma enemy_loop_life dt ws px pz b es :
  forall l s l' s' es',
  enemy_loop dt ws px pz b l s es = Ok (l', s', es') ->
  (l' <= l)%Z /\ ((1 <= l)%Z -> (1 <= l')%Z).
Proof.
  induction es as [|e es IH]; intros l s l' s' es' H; cbn [enemy_loop] in H.
  - injection H as <- _ _. lia.
  - destruct (isAlive e).
    + destruct (Update dt ws px pz l e) as [[l1 e1]|h] eqn:EU; cbn [res_bind] in H;
        [|discriminate].
      destruct (if s then hasHit b s e1 else (s, e1)) as [s1 e2].
      destruct (enemy_loop _ _ _ _ _ _ _ es) as [[[l2 s2] es2]|h] eqn:ER;
        cbn [res_bind] in H; [|discriminate]. injection H as <- _ _.
      destruct (IH _ _ _ _ _ ER). destruct (Update_life_range _ _ _ _ _ _ _ _ EU). lia.
    + destruct (enemy_loop _ _ _ _ _ _ _ es) as [[[l2 s2] es2]|h] eqn:ER;
        cbn [res_bind] in H; [|discriminate]. injection H as <- _ _.
      exact (IH _ _ _ _ _ ER).
Qed.

(** ** Dead is final *)

(** C6. A completed frame never revives an enemy nor restores life: a
    dead enemy is left exactly as it was, a live one can only lose life
    or die, and the player's life never increases. *)
Theorem Display_monotone (lv : Level) (keys : Keys) (dt : f64) (w w' : World) :
  Display lv keys dt w = Ok w' ->
  Forall2 (fun e e' => (alive e = false -> e' = e) /\ (alive e' = true -> alive e = true) /\
                       (life e' <= life e)%Z) (g_enemy w) (g_enemy w') /\
  (my_life w' <= my_life w)%Z.
Proof.
  intros H.
  assert (Refl : forall l : list CEnemy, Forall2 (fun e e' => (alive e = false -> e' = e) /\
            (alive e' = true -> alive e = true) /\ (life e' <= life e)%Z) l l)
    by (intros l; apply Forall2_diag; intros e; split; [auto|]; split; [auto | lia]).
  destruct (Display_Ok _ _ _ _ _ H) as (w0 & -> & [->|[[v ->]|[_ Hsim]]]);
    [simpl; split; [apply Refl | lia] | simpl; split; [apply Refl | lia] |].
  destruct (display_sim_Ok _ _ _ _ _ Hsim)
    as (s3 & l1 & s4 & es & w1 & w2 & _ & El & _ & Hm & -> & _ & _ & Hl & _ & He & _).
  destruct (move_player_set_pos _ _ _ _ Hm) as (px & pz & ->). cbn [g_enemy my_life set_pos set_camera set_view].
  rewrite He, Hl. split; [|exact (proj1 (enemy_loop_life _ _ _ _ _ _ _ _ _ _ _ El))].
  eapply Forall2_impl; [|exact (enemy_loop_pointwise _ _ _ _ _ _ _ _ _ _ _ El)].
  intros e e' R. exact (enemy_step_mono _ _ _ _ _ _ _ R).
Qed.

(** ** Winning *)

(** C9. A player whose footprint touches the flag wins in that frame,
    before any movement is processed: unless an enemy's bullet takes the
    player's last life earlier in the same frame, the frame ends in
    [Win], whatever keys are down. *)
Theorem Display_win_first (lv : Level) (keys keys' : Keys) (dt : f64) (w : World) :
  FPS w <> 0%Z -> win (lmap lv) (pos_x w) (pos_z w) = Ok true ->
  (Display lv keys dt w = Halt Win \/ Display lv keys dt w = Halt Lose) /\
  Display lv keys dt w = Display lv keys' dt w.
Proof.
  intros HF Hw. unfold Display.
  destruct (Z.eqb_spec (FPS w) 0) as [|_]; [contradiction|].
  unfold display_sim.
  destruct (enemy_loop _ _ _ _ _ _ _ _) as [[[l s] es]|h] eqn:El; cbn [res_bind].
  - rewrite Hw. cbn [res_bind]. auto.
  - apply enemy_loop_halt in El. subst. auto.
Qed.

(** ** Scenarios on [map]

    Concrete games used by the witnesses: the frame-rate gate is opened
    by one frame of [0.0007] seconds ([FPS = 3]); then frames of [1/60]
    second with W held (a frame without a movement key is undefined
    behaviour). *)

Definition keys_W : Keys := fun vk => (vk =? 87)%Z.
(** The [D] key (strafe right) down. *)
Definition keys_D : Keys := fun vk => (vk =? 68)%Z.

Fixpoint walk_frames (n : nat) (lv : Level) (dt : f64) (w : World) : res World :=
  match n with
  | O => Ok w
  | S n => w' <- Display lv keys_W dt w ;; walk_frames n lv dt w'
  end.

(** The game after [Setup] and the frame that opens the gate. *)
Definition opened : res (Level * World) :=
  '(lv, w) <- Setup map ;;
  w1 <- Display lv keys_W (Fin (7 # 10000)) w ;;
  Ok (lv, w1).

(** A ball at the centre of an enemy's body. *)
Definition on_body (e : CEnemy) : CSphere :=
  setCenter (m_x (body e)) (m_y (body e)) (m_z (body e)) (CSphere_new M_RADIUS).

(** The player's bullet in flight inside the body of the first enemy. *)
Definition hit_scenario : res (Level * World) :=
  '(lv, w) <- opened ;;
  Ok (lv, set_bullet w (on_body (hd (CEnemy_new 0 0) (g_enemy w))) true).

Lemma opened_start :
  match opened with
  | Ok (lv, w) => map_wf (lmap lv) /\ bordered (lmap lv) /\ FPS w = 3%Z /\
                  pos_x w = Fin (-23) /\ pos_z w = Fin (-23)
  | Halt _ => False
  end.
Proof.
  destruct opened as [[lv w]|h] eqn:E; vm_eval_in E; [|discriminate].
  injection E as <- <-. vm_compute. destruct map_shape as [Hwf Hb].
  split; [exact Hwf|]. split; [exact Hb|]. repeat split.
Qed.

(** ** Witnesses *)

Lemma move_player_safe_witness :
  match opened with
  | Ok (lv, w) =>
      match move_vector keys_W (target_x w) (target_z w) with
      | (Fin _, Fin _) => exists x' z', move_player lv keys_W w = Ok (set_pos w (Fin x') (Fin z')) /\
                                        interior x' z'
      | _ => move_player lv keys_W w =
             Halt (Undefined "(int) conversion of NaN or of a value out of range")
      end
  | Halt _ => False
  end.
Proof.
  pose proof opened_start as S. destruct opened as [[lv w]|h]; [|contradiction].
  destruct S as (Hwf & Hb & _ & Ex & Ez).
  apply (move_player_safe lv keys_W w (-23) (-23) Hwf Hb Ex Ez). unfold interior. by_eval.
Defined.

Lemma Display_one_hit_witness :
  match hit_scenario with
  | Ok (lv, w) =>
      match Display lv keys_W (Fin (1 # 60)) w with
      | Ok w' => (changes (g_enemy w) (g_enemy w') <= Nat.b2n (my_shoot w))%nat /\
                 changes (g_enemy w) (g_enemy w') = 1%nat
      | Halt _ => False
      end
  | Halt _ => False
  end.
Proof.
  destruct hit_scenario as [[lv w]|h] eqn:E; vm_eval_in E; [|discriminate].
  injection E as <- <-.
  destruct (Display _ keys_W (Fin (1 # 60)) _) as [w'|h] eqn:ED; [|vm_eval_in ED; discriminate].
  split; [exact (Display_one_hit _ _ _ _ _ ED)|].
  vm_eval_in ED. injection ED as <-. vm_compute. reflexivity.
Defined.

Lemma Display_monotone_witness :
  match hit_scenario with
  | Ok (lv, w) =>
      match Display lv keys_W (Fin (1 # 60)) w with
      | Ok w' => Forall2 (fun e e' => (alive e = false -> e' = e) /\
                                      (alive e' = true -> alive e = true) /\
                                      (life e' <= life e)%Z) (g_enemy w) (g_enemy w') /\
                 (my_life w' <= my_life w)%Z
      | Halt _ => False
      end
  | Halt _ => False
  end.
Proof.
  destruct hit_scenario as [[lv w]|h] eqn:E; vm_eval_in E; [|discriminate].
  injection E as <- <-.
  destruct (Display _ keys_W (Fin (1 # 60)) _) as [w'|h] eqn:ED; [|vm_eval_in ED; discriminate].
  exact (Display_monotone _ _ _ _ _ ED).
Defined.

Lemma Display_win_first_witness :
  match opened with
  | Ok (lv, w) =>
      (Display lv keys_W (Fin (1 # 60)) (set_pos w (Fin (-23)) (Fin 23)) = Halt Win \/
       Display lv keys_W (Fin (1 # 60)) (set_pos w (Fin (-23)) (Fin 23)) = Halt Lose) /\
      Display lv keys_W (Fin (1 # 60)) (set_pos w (Fin (-23)) (Fin 23)) =
      Display lv (fun _ => false) (Fin (1 # 60)) (set_pos w (Fin (-23)) (Fin 23))
  | Halt _ => False
  end.
Proof.
  destruct opened as [[lv w]|h] eqn:E; [|vm_eval_in E; discriminate].
  apply Display_win_first.
  - vm_eval_in E. injection E as _ <-. discriminate.
  - vm_eval_in E. injection E as <- <-. vm_compute. reflexivity.
Defined.

(** ** [Cleanup] *)

(** C22. [Cleanup] reads past the end of [g_legowalls]: its loop runs to
    [MAP_SIZE * MAP_SIZE] while the array holds [wall_num] walls, so on
    every level with fewer than 900 walls (200 for [map]) it executes an
    out-of-bounds access. *)
Theorem Cleanup_out_of_bounds (lv : Level) :
  (List.length (g_legowalls lv) < 900)%nat ->
  Cleanup lv = Halt (Undefined "g_legowalls[i] out of bounds in Cleanup").
Proof.
  intros H. unfold Cleanup. rewrite cleanup_walls_oob by (cbn; lia). reflexivity.
Qed.

Lemma Setup_walls_count :
  match Setup map with
  | Ok (lv, _) => (List.length (g_legowalls lv) <? 900)%nat
  | Halt _ => false
  end = true.
Proof. vm_compute. reflexivity. Qed.

Lemma Cleanup_out_of_bounds_witness :
  match Setup map with
  | Ok (lv, _) => Cleanup lv = Halt (Undefined "g_legowalls[i] out of bounds in Cleanup")
  | Halt _ => False
  end.
Proof.
  pose proof Setup_walls_count as H.
  destruct (Setup map) as [[lv w]|h]; [|discriminate].
  apply Cleanup_out_of_bounds. apply Nat.ltb_lt, H.
Defined.

(** C34. What [Cleanup] releases when its loop stays in bounds (a level
    of exactly [MAP_SIZE * MAP_SIZE] walls): the floor's mesh, every
    wall's mesh and the light's mesh.  The ceiling and the flag come out
    unchanged, so the meshes [Setup] created for them are never released;
    the balls and the enemies are not even reached. *)
Theorem Cleanup_releases (lv : Level) :
  List.length (g_legowalls lv) = 900%nat ->
  exists lv', Cleanup lv = Ok lv' /\
    m_pBoundMesh (g_legoPlane lv') = false /\
    Forall (fun w => m_pBoundMesh w = false) (g_legowalls lv') /\
    m_pMesh (g_light lv') = false /\
    g_legoCeiling lv' = g_legoCeiling lv /\ g_legoFlag lv' = g_legoFlag lv.
Proof.
  intros H. unfold Cleanup.
  pose proof (cleanup_walls_all [] (g_legowalls lv)) as E. rewrite H in E.
  change (List.length (@nil CWall)) with 0%nat in E. rewrite List.app_nil_l in E.
  change (Z.to_nat (MAP_SIZE * MAP_SIZE)) with 900%nat. rewrite E. cbn [res_bind app].
  eexists. split; [reflexivity|]. cbn. split; [reflexivity|]. split; [|auto].
  apply Forall_forall. intros w (w0 & <- & _)%in_map_iff. reflexivity.
Qed.

(** A level of 900 walls. *)
Definition full_level : Level :=
  mkLevel map (List.repeat plane_box 900) plane_box ceiling_box plane_box
          (create_light setup_light (Fin 0.1) (fst (CLight_new 0))) D3DXMatrixIdentity
          D3DXMatrixIdentity empty_lights.

Lemma Cleanup_releases_witness :
  List.length (g_legowalls full_level) = 900%nat /\
  m_pBoundMesh (g_legoCeiling full_level) = true /\
  exists lv', Cleanup full_level = Ok lv' /\
    m_pBoundMesh (g_legoPlane lv') = false /\
    Forall (fun w => m_pBoundMesh w = false) (g_legowalls lv') /\
    m_pMesh (g_light lv') = false /\
    g_legoCeiling lv' = g_legoCeiling full_level /\ g_legoFlag lv' = g_legoFlag full_level.
Proof.
  assert (H : List.length (g_legowalls full_level) = 900%nat) by apply repeat_length.
  split; [exact H | split; [reflexivity | exact (Cleanup_releases full_level H)]].
Defined.

(** ** The camera after a frame *)

(** A completed frame of the running game ends with the eye at the
    player's (moved) position, the point looked at [target_x/y/z] ahead of
    it, and the view matrix recomputed from both. *)
Lemma Display_running_camera (lv : Level) (keys : Keys) (dt : f64) (w w' : World) :
  FPS w <> 0%Z -> Display lv keys dt w = Ok w' ->
  pos w' = vec3 (pos_x w') PLAYERHEIGHT (pos_z w') /\
  target w' = vec3 (fadd (pos_x w') (target_x w')) (fadd PLAYERHEIGHT (target_y w'))
                   (fadd (pos_z w') (target_z w')) /\
  g_mView w' = D3DXMatrixLookAtLH (pos w') (target w') up /\ dev_view (Device w') = g_mView w'.
Proof.
  intros HF. unfold Display. destruct (Z.eqb_spec (FPS w) 0) as [|_]; [contradiction|].
  intros H. apply res_bind_Ok_inv in H as (w1 & H & E). injection E as <-.
  destruct (display_sim_Ok _ _ _ _ _ H) as (s3 & l1 & s4 & es & w0 & w2 & _ & _ & _ & _ & -> & _).
  repeat split.
Qed.

(** The aim [(tx, ty, tz)] is not parallel to [up] unless it is vertical. *)
Lemma up_not_parallel (x y z tx ty tz : Q) :
  ~ (tx == 0 /\ tz == 0) ->
  fne (D3DXVec3Length (D3DXVec3Cross up (D3DXVec3Subtract (vec3 (Fin (x + tx)) (Fin (y + ty)) (Fin (z + tz)))
                                                         (vec3 (Fin x) (Fin y) (Fin z))))) f0 = true.
Proof.
  intros Hn. unfold up. rewrite Subtract_Fin, Cross_Fin. apply Length_fne_of.
  intros E. apply Hn. split; nra.
Qed.

Lemma up_finite : vec_finite up.
Proof. eexists _, _, _. reflexivity. Qed.

(** C36. After every completed frame of the running game the camera
    follows the player: the view matrix puts the player's eye
    [(pos_x, PLAYERHEIGHT, pos_z)], after this frame's move, at the origin
    of camera space, and the point [target_x/y/z] ahead of it on the
    positive view axis, the centre of the screen, whenever the aim is not
    vertical; the device is handed that view matrix. *)
Theorem Display_camera (lv : Level) (keys : Keys) (dt : f64) (w w' : World) (x z tx ty tz : Q) :
  FPS w <> 0%Z -> Display lv keys dt w = Ok w' ->
  pos_x w' = Fin x -> pos_z w' = Fin z ->
  target_x w' = Fin tx -> target_y w' = Fin ty -> target_z w' = Fin tz -> ~ (tx == 0 /\ tz == 0) ->
  dev_view (Device w') = g_mView w' /\
  vec_feq (D3DXVec3TransformCoord (vec3 (Fin x) PLAYERHEIGHT (Fin z)) (g_mView w')) (vec3 f0 f0 f0) /\
  exists d, 0 < d /\
  vec_feq (D3DXVec3TransformCoord (vec3 (Fin (x + tx)) (Fin (2 + ty)) (Fin (z + tz))) (g_mView w'))
          (vec3 f0 f0 (Fin d)).
Proof.
  intros HF H Hx Hz Htx Hty Htz Hn.
  destruct (Display_running_camera _ _ _ _ _ HF H) as (Ep & Et & Ev & Ed). rewrite Ed, Ev. split; [reflexivity|].
  rewrite Et, Ep, Hx, Hz, Htx, Hty, Htz. unfold PLAYERHEIGHT. cbn [fadd].
  assert (F : forall a b c, vec_finite (vec3 (Fin a) (Fin b) (Fin c))) by (intros; eexists _, _, _; reflexivity).
  split; [apply LookAt_eye; [apply F | apply F | exact up_finite]|].
  apply LookAt_at; [apply F | apply F | exact up_finite | apply up_not_parallel, Hn].
Qed.

Lemma Display_camera_witness :
  match hit_scenario with
  | Ok (lv, w) =>
      match Display lv keys_W (Fin (1 # 60)) w with
      | Ok w' => exists x z tx ty tz,
          dev_view (Device w') = g_mView w' /\
          vec_feq (D3DXVec3TransformCoord (vec3 (Fin x) PLAYERHEIGHT (Fin z)) (g_mView w'))
                  (vec3 f0 f0 f0) /\
          exists d, 0 < d /\
          vec_feq (D3DXVec3TransformCoord (vec3 (Fin (x + tx)) (Fin (2 + ty)) (Fin (z + tz)))
                                          (g_mView w'))
                  (vec3 f0 f0 (Fin d))
      | Halt _ => False
      end
  | Halt _ => False
  end.
Proof.
  assert (B : match hit_scenario with
              | Ok (lv, w) =>
                  match Display lv keys_W (Fin (1 # 60)) w with
                  | Ok w' => negb (FPS w =? 0)%Z && is_fin (pos_x w') && is_fin (pos_z w') &&
                             is_fin (target_x w') && is_fin (target_y w') && is_fin (target_z w') &&
                             negb (Qeq_bool (fval (target_x w')) 0)
                  | Halt _ => false
                  end
              | Halt _ => false
              end = true) by (vm_compute; reflexivity).
  revert B. destruct hit_scenario as [[lv w]|h]; [|discriminate].
  destruct (Display lv keys_W (Fin (1 # 60)) w) as [w'|h] eqn:ED; [|discriminate].
  rewrite !andb_true_iff. intros ((((((HF & Hx) & Hz) & Htx) & Hty) & Htz) & Hn).
  apply negb_true_iff, Z.eqb_neq in HF.
  do 5 eexists. apply (Display_camera _ _ _ _ _ _ _ _ _ _ HF ED (is_fin_fval _ Hx) (is_fin_fval _ Hz)
                         (is_fin_fval _ Htx) (is_fin_fval _ Hty) (is_fin_fval _ Htz)).
  intros [E _]. apply Qeq_bool_iff in E. rewrite E in Hn. discriminate Hn.
Defined.

(** ** The camera and the projection [Setup] sets *)

(** Whatever the map, [Setup] aims the camera from the static [pos] at
    [target] and sets the projection of lines 580-581. *)
Lemma Setup_camera (m : list string) (lv : Level) (w : World) :
  Setup m = Ok (lv, w) ->
  pos w = pos_init /\ target w = target_init /\
  g_mView w = D3DXMatrixLookAtLH pos_init target_init up /\
  g_mProj lv = D3DXMatrixPerspectiveFovLH (fdiv D3DX_PI (fofZ 4))
                 (fdiv (fofZ Width) (fofZ Height)) (Fin 0.1) (Fin 100) /\
  Device w = setup_device (g_mView w) (g_mProj lv).
Proof.
  unfold Setup. destruct (make_map _ _ _ _) as [st|h]; cbn [res_bind]; [|discriminate].
  destruct (locate_enemy m) as [[es k]|h]; cbn [res_bind]; [|discriminate].
  destruct (setLight _ _ _). intros H. injection H as <- <-. repeat split.
Qed.

(** The depth [Setup]'s projection gives a point at distance [z]. *)
Definition setup_depth (z : Q) : Q := (z - 0.1) * 100 / ((100 - 0.1) * z).

(** C37. [Setup]'s projection maps the view frustum onto the unit cube:
    with [t] the (idealised) [tan] of half the vertical field of view
    [D3DX_PI / 4], the top right corner [(z t Width / Height, z t, z)] of
    the field of view at every distance [z] between the near plane 0.1
    and the far plane 100 is projected to [x = y = 1], at a depth between
    0 and 1 that is 0 on the near plane and 1 on the far plane; the device
    is handed that projection. *)
Theorem Setup_projection (m : list string) (lv : Level) (w : World) :
  Setup m = Ok (lv, w) ->
  dev_proj (Device w) = g_mProj lv /\
  exists t, ftan (fdiv (fdiv D3DX_PI (fofZ 4)) (Fin 2)) = Fin t /\
  forall z, 1 # 10 <= z <= 100 ->
    0 <= setup_depth z <= 1 /\ (z == 1 # 10 -> setup_depth z == 0) /\
    (z == 100 -> setup_depth z == 1) /\
    vec_feq (D3DXVec3TransformCoord
               (vec3 (Fin (z * t * (inject_Z Width / inject_Z Height))) (Fin (z * t)) (Fin z))
               (g_mProj lv))
            (vec3 f1 f1 (Fin (setup_depth z))).
Proof.
  intros H. destruct (Setup_camera _ _ _ H) as (_ & _ & _ & Ep & Ed). rewrite Ed, Ep.
  split; [reflexivity|].
  set (t := fval (ftan (fdiv (fdiv D3DX_PI (fofZ 4)) (Fin 2)))).
  assert (Ht : ftan (fdiv (fdiv D3DX_PI (fofZ 4)) (Fin 2)) = Fin t)
    by (apply is_fin_fval; vm_compute; reflexivity).
  assert (Ht0 : ~ t == 0) by (unfold t; by_eval).
  exists t. split; [exact Ht|].
  intros z Hz. unfold setup_depth.
  assert (Hd : 0 < (100 - 0.1) * z) by lra.
  split; [split|split; [|split]].
  - apply Qle_shift_div_l; [exact Hd | lra].
  - apply Qle_shift_div_r; [exact Hd | lra].
  - intros E. rewrite E. reflexivity.
  - intros E. rewrite E. reflexivity.
  - change (fdiv D3DX_PI (fofZ 4)) with (fdiv (Fin 3.141592654) (Fin (inject_Z 4))) in *.
    rewrite fdiv_Fin in Ht by by_eval.
    change (fdiv (fofZ Width) (fofZ Height))
      with (fdiv (Fin (inject_Z Width)) (Fin (inject_Z Height))).
    rewrite fdiv_Fin by by_eval.
    apply PerspectiveFov_edge; [exact Ht | exact Ht0 | by_eval | by_eval | intros E; lra].
Qed.

Lemma Setup_projection_witness :
  match Setup map with
  | Ok (lv, w) =>
      dev_proj (Device w) = g_mProj lv /\
      exists t, ftan (fdiv (fdiv D3DX_PI (fofZ 4)) (Fin 2)) = Fin t /\
      forall z, 1 # 10 <= z <= 100 ->
        0 <= setup_depth z <= 1 /\ (z == 1 # 10 -> setup_depth z == 0) /\
        (z == 100 -> setup_depth z == 1) /\
        vec_feq (D3DXVec3TransformCoord
                   (vec3 (Fin (z * t * (inject_Z Width / inject_Z Height))) (Fin (z * t)) (Fin z))
                   (g_mProj lv))
                (vec3 f1 f1 (Fin (setup_depth z)))
  | Halt _ => False
  end.
Proof.
  assert (S : match Setup map with Ok _ => true | Halt _ => false end = true)
    by (vm_compute; reflexivity).
  destruct (Setup map) as [[lv w]|h] eqn:E; [|discriminate S].
  exact (Setup_projection map lv w E).
Defined.

(** ** The aim marker *)

(** A completed frame of the running game places the aim marker from the
    position and the aim at the start of the frame, and leaves the aim. *)
Lemma Display_aim (lv : Level) (keys : Keys) (dt : f64) (w w' : World) :
  FPS w <> 0%Z -> Display lv keys dt w = Ok w' ->
  aim_point w' = setCenter (fadd (pos_x w) (fmul (target_x w) (Fin 0.125)))
                           (fadd PLAYERHEIGHT (fmul (target_y w) (Fin 0.125)))
                           (fadd (pos_z w) (fmul (target_z w) (Fin 0.125))) (aim_point w) /\
  target_x w' = target_x w /\ target_y w' = target_y w /\ target_z w' = target_z w.
Proof.
  intros HF H. unfold Display in H. destruct (Z.eqb_spec (FPS w) 0) as [|_]; [contradiction|].
  apply res_bind_Ok_inv in H as (w0 & Hs & E). injection E as <-.
  destruct (display_sim_Ok _ _ _ _ _ Hs)
    as (s3 & l1 & s4 & es & w1 & w2 & _ & _ & _ & Hm & -> & _ & _ & _ & _ & _ & _ & _ & _ & Ha1
        & Htx1 & Hty1 & Htz1).
  destruct (move_player_set_pos _ _ _ _ Hm) as (px & pz & ->). exact (conj Ha1 (conj Htx1 (conj Hty1 Htz1))).
Qed.

(** C39. The aim marker is placed from where the player stood before the
    frame's move: after a completed frame of the running game its centre
    is [target_x/y/z / 8] ahead of the player's position at the start of
    the frame.  In a frame in which the player did not move, that is on
    the camera's view axis, in front of the eye, so the marker is drawn
    at the centre of the screen. *)
Theorem Display_aim_marker (lv : Level) (keys : Keys) (dt : f64) (w w' : World) (x z tx ty tz : Q) :
  FPS w <> 0%Z -> Display lv keys dt w = Ok w' ->
  pos_x w = Fin x -> pos_z w = Fin z ->
  target_x w = Fin tx -> target_y w = Fin ty -> target_z w = Fin tz ->
  center_x (aim_point w') = Fin (x + tx * 0.125) /\ center_y (aim_point w') = Fin (2 + ty * 0.125) /\
  center_z (aim_point w') = Fin (z + tz * 0.125) /\
  (pos_x w' = pos_x w -> pos_z w' = pos_z w -> ~ (tx == 0 /\ tz == 0) ->
   exists d, 0 < d /\
   vec_feq (D3DXVec3TransformCoord (vec3 (center_x (aim_point w')) (center_y (aim_point w'))
                                         (center_z (aim_point w')))
                                   (g_mView w'))
           (vec3 f0 f0 (Fin d))).
Proof.
  intros HF H Hx Hz Htx Hty Htz.
  destruct (Display_running_camera _ _ _ _ _ HF H) as (Ep & Et & Ev & _).
  destruct (Display_aim _ _ _ _ _ HF H) as (Ha & Tx & Ty & Tz).
  rewrite Ha, Hx, Hz, Htx, Hty, Htz.
  cbn [center_x center_y center_z setCenter setLocalTransform fadd fmul PLAYERHEIGHT].
  split; [reflexivity | split; [reflexivity | split; [reflexivity|]]].
  intros Epx Epz Hn. rewrite Ev, Et, Ep, Tx, Ty, Tz, Epx, Epz, Htx, Hty, Htz.
  unfold PLAYERHEIGHT. cbn [fadd].
  destruct (LookAt_ray x 2 z (x + tx) (2 + ty) (z + tz) up 0.125 up_finite ltac:(lra)
              (up_not_parallel x 2 z tx ty tz Hn)) as (d & Hd & E).
  exists d. split; [exact Hd|]. rewrite <- E. apply TransformCoord_comp; [|reflexivity].
  repeat split; simpl; ring.
Qed.


Lemma Display_aim_marker_witness :
  match opened with
  | Ok (lv, w) =>
      match Display lv keys_W (Fin (1 # 60)) w with
      | Ok w' => exists x z tx ty tz,
          center_x (aim_point w') = Fin (x + tx * 0.125) /\
          center_y (aim_point w') = Fin (2 + ty * 0.125) /\
          center_z (aim_point w') = Fin (z + tz * 0.125) /\
          (pos_x w' = pos_x w -> pos_z w' = pos_z w -> ~ (tx == 0 /\ tz == 0) ->
           exists d, 0 < d /\
           vec_feq (D3DXVec3TransformCoord (vec3 (center_x (aim_point w')) (center_y (aim_point w'))
                                                 (center_z (aim_point w')))
                                           (g_mView w'))
                   (vec3 f0 f0 (Fin d)))
      | Halt _ => False
      end
  | Halt _ => False
  end.
Proof.
  assert (B : match opened with
              | Ok (lv, w) =>
                  negb (FPS w =? 0)%Z && is_fin (pos_x w) && is_fin (pos_z w) &&
                  is_fin (target_x w) && is_fin (target_y w) && is_fin (target_z w) &&
                  match Display lv keys_W (Fin (1 # 60)) w with Ok _ => true | Halt _ => false end
              | Halt _ => false
              end = true) by (vm_compute; reflexivity).
  revert B. destruct opened as [[lv w]|h]; [|discriminate].
  rewrite !andb_true_iff. intros ((((((HF & Hx) & Hz) & Htx) & Hty) & Htz) & HD).
  destruct (Display lv keys_W (Fin (1 # 60)) w) as [w'|h] eqn:ED; [|discriminate].
  apply negb_true_iff, Z.eqb_neq in HF.
  do 5 eexists. exact (Display_aim_marker _ _ _ _ _ _ _ _ _ _ HF ED (is_fin_fval _ Hx) (is_fin_fval _ Hz)
                         (is_fin_fval _ Htx) (is_fin_fval _ Hty) (is_fin_fval _ Htz)).
Defined.

(** The centre of the aim marker. *)
Definition aim_centre (w : World) : D3DXVECTOR3 :=
  vec3 (center_x (aim_point w)) (center_y (aim_point w)) (center_z (aim_point w)).

(** [q / k == 0] exactly when [q == 0], for [k > 0]. *)
Lemma Qdiv_eq0_iff (q k : Q) : 0 < k -> (q / k == 0 <-> q == 0).
Proof.
  intros Hk. split; intros H.
  - setoid_replace q with (q / k * k) by (field; lra). rewrite H. ring.
  - rewrite H. field. lra.
Qed.

(** C40. The aim marker trails the camera whenever the player steps
    sideways.  After every completed frame of the running game with a
    non-vertical aim, the marker is on the vertical centre line of the
    screen (camera-space [x = 0]) exactly when the frame's step
    [(x' - x, z' - z)] is parallel to the aim [(target_x, target_z)].
    So a frame that strafes, or moves in any direction but along the aim,
    draws the marker off the centre: it is placed from the position
    before the move while the camera is placed after it. *)
Theorem aim_marker_trails (lv : Level) (keys : Keys) (dt : f64) (w w' : World)
    (x z x' z' tx ty tz : Q) :
  FPS w <> 0%Z -> Display lv keys dt w = Ok w' ->
  pos_x w = Fin x -> pos_z w = Fin z ->
  target_x w = Fin tx -> target_y w = Fin ty -> target_z w = Fin tz ->
  pos_x w' = Fin x' -> pos_z w' = Fin z' -> ~ (tx == 0 /\ tz == 0) ->
  (feq (vec_x (D3DXVec3TransformCoord (aim_centre w') (g_mView w'))) f0 <->
   (x' - x) * tz == (z' - z) * tx).
Proof.
  intros HF H Hx Hz Htx Hty Htz Hx' Hz' Hn.
  destruct (Display_running_camera _ _ _ _ _ HF H) as (Ep & Et & Ev & _).
  destruct (Display_aim _ _ _ _ _ HF H) as (Ha & Tx & Ty & Tz).
  unfold aim_centre. rewrite Ev, Et, Ep, Ha, Tx, Ty, Tz, Hx, Hz, Htx, Hty, Htz, Hx', Hz'.
  cbn [center_x center_y center_z setCenter setLocalTransform fadd fmul PLAYERHEIGHT].
  unfold up.
  destruct (LookAt_coords x' 2 z' (x' + tx) (2 + ty) (z' + tz) 0 2 0
              (x + tx * 0.125) (2 + ty * 0.125) (z + tz * 0.125))
    as (s1 & s2 & Hs1 & Hs2 & (Ex & _ & _)).
  { cbv zeta. intros E. apply Hn. destruct (sumsq_zero _ _ _ E) as (E1 & _ & E3). split; nra. }
  rewrite Ex. unfold f0. cbn [vec_x feq].
  assert (Hk : 0 < s1 * s2) by (apply Qmult_lt_0_compat; assumption).
  cbn [vec_x]. rewrite Qdiv_eq0_iff by exact Hk. split; intros E; nra.
Qed.

Lemma aim_marker_trails_witness :
  match opened with
  | Ok (lv, w) =>
      match Display lv keys_D (Fin (1 # 60)) w with
      | Ok w' => exists x z x' z' tx tz : Q,
          (feq (vec_x (D3DXVec3TransformCoord (aim_centre w') (g_mView w'))) f0 <->
           (x' - x) * tz == (z' - z) * tx) /\
          ~ (x' - x) * tz == (z' - z) * tx
      | Halt _ => False
      end
  | Halt _ => False
  end.
Proof.
  assert (B : match opened with
              | Ok (lv, w) =>
                  match Display lv keys_D (Fin (1 # 60)) w with
                  | Ok w' =>
                      negb (FPS w =? 0)%Z && is_fin (pos_x w) && is_fin (pos_z w) &&
                      is_fin (target_x w) && is_fin (target_y w) && is_fin (target_z w) &&
                      is_fin (pos_x w') && is_fin (pos_z w') &&
                      negb (Qeq_bool (fval (target_x w)) 0) &&
                      negb (Qeq_bool ((fval (pos_x w') - fval (pos_x w)) * fval (target_z w))
                                     ((fval (pos_z w') - fval (pos_z w)) * fval (target_x w)))
                  | Halt _ => false
                  end
              | Halt _ => false
              end = true) by (vm_compute; reflexivity).
  revert B. destruct opened as [[lv w]|h]; [|discriminate].
  destruct (Display lv keys_D (Fin (1 # 60)) w) as [w'|h] eqn:ED; [|discriminate].
  rewrite !andb_true_iff.
  intros (((((((((HF & Hx) & Hz) & Htx) & Hty) & Htz) & Hx') & Hz') & Hn) & Hs).
  apply negb_true_iff, Z.eqb_neq in HF.
  do 6 eexists. split.
  - apply (aim_marker_trails _ _ _ _ _ _ _ _ _ _ _ _ HF ED (is_fin_fval _ Hx) (is_fin_fval _ Hz)
             (is_fin_fval _ Htx) (is_fin_fval _ Hty) (is_fin_fval _ Htz) (is_fin_fval _ Hx')
             (is_fin_fval _ Hz')).
    intros [E _]. apply Qeq_bool_iff in E. rewrite E in Hn. discriminate Hn.
  - intros E. apply Qeq_bool_iff in E. rewrite E in Hs. discriminate Hs.
Defined.
