(* ===== verification/Input.v ===== *)
(** * Input: [d3d::WndProc] (virtualLego.cpp lines 716-784)

    The window procedure.  [WM_MOUSEMOVE] turns the aim and, with the left
    button held, fires the player's bullet; [WM_KEYDOWN] closes the
    window on Escape and toggles the wireframe fill on Return;
    [WM_DESTROY] posts the quit message.  The message loop and [WinMain]
    follow; the theorems on runs show that a run never exits cleanly, that
    with a millisecond timer the game never starts, and that the camera
    then never leaves the centre of the maze. *)

From Stdlib Require Import QArith Qabs Lqa ZArith Lia List Bool Ascii String.
From S2P Require Import Prelude Double Matrix View Sphere Wall GridMap Enemy Frame.
Import ListNotations.

(** ** The mouse: [WM_MOUSEMOVE] in [d3d::WndProc] (lines 745-780)

    The cursor position turns the aim by [(492 - new_h) * 0.001] and
    [(269 - new_v) * 0.001] radians times [LOOKAROUNDSPEED] ([Display]
    puts the cursor back at a fixed point every frame with
    [SetCursorPos]), and a held left button fires the player's bullet
    when it is not in flight.  [cos] and [sin] of <math.h> are
    parameters of the section: no theorem depends on their values. *)

Definition LOOKAROUNDSPEED : f64 := Fin 0.3.
Definition MK_LBUTTON : Z := 1.

Definition LOWORD (x : Z) : Z := Z.land x 65535.
Definition HIWORD (x : Z) : Z := Z.land (Z.shiftr x 16) 65535.

(** Firing (lines 771-777): the bullet leaves half a unit ahead of the
    player's eye along the aim at [BULLETSPEED]. *)
Definition fire (w : World) : World :=
  if my_shoot w then w else
  let b := setCenter (fadd (pos_x w) (fmul (target_x w) (Fin 0.5)))
                     (fadd PLAYERHEIGHT (fmul (target_y w) (Fin 0.5)))
                     (fadd (pos_z w) (fmul (target_z w) (Fin 0.5))) (my_bullet w) in
  set_bullet w (setPowerY (fmul (target_x w) BULLETSPEED) (fmul (target_y w) BULLETSPEED)
                          (fmul (target_z w) BULLETSPEED) b) true.

Section Mouse.
Variables cos sin : f64 -> f64.

(** Turning the aim (lines 746-768). *)
Definition look (new_h new_v : Z) (w : World) : World :=
  let dh := fmul (fofZ (492 - new_h)) (Fin 0.001) in
  let dv := fmul (fofZ (269 - new_v)) (Fin 0.001) in
  let cos_target := target_x w in
  let sin_target := target_z w in
  let cos_dh := cos (fmul dh LOOKAROUNDSPEED) in
  let sin_dh := sin (fmul dh LOOKAROUNDSPEED) in
  let tx := fsub (fmul cos_target cos_dh) (fmul sin_target sin_dh) in
  let tz := fadd (fmul sin_target cos_dh) (fmul cos_target sin_dh) in
  let sin_target_up := target_y w in
  let cos_target_up := fsqrt (fsub (Fin 1) (fsquare (target_y w))) in
  let sin_dv_up := sin (fmul dv LOOKAROUNDSPEED) in
  let cos_dv_up := cos (fmul dv LOOKAROUNDSPEED) in
  let ty := fadd (fmul sin_target_up cos_dv_up) (fmul cos_target_up sin_dv_up) in
  let target_radius := fsqrt (fadd (fadd (fsquare tx) (fsquare ty)) (fsquare tz)) in
  set_target w (fdiv tx target_radius) (fdiv ty target_radius) (fdiv tz target_radius).

Definition WM_MOUSEMOVE (wParam lParam : Z) (w : World) : World :=
  let w1 := look (LOWORD lParam) (HIWORD lParam) w in
  if negb (LOWORD wParam =? 0)%Z && negb (Z.land (LOWORD wParam) MK_LBUTTON =? 0)%Z
  then fire w1 else w1.

End Mouse.

(** ** The whole window procedure (lines 716-784)

    Message codes of winuser.h.  [WndState] is the program state that the
    window procedure reads and writes: the [World] and its own [static bool
    wire] (line 717).  The other static, [isReset], is never read.  The
    effect on the window is returned as a [wnd_action]:
    - [PostQuitMessage(0)] is [PostQuit];
    - [DestroyWindow(hwnd)] is [Destroy];
    - the fill mode written by [SetRenderState] is [Fill].
    [Device] is not null. *)

Definition WM_DESTROY_MSG : Z := 2.
Definition WM_KEYDOWN_MSG : Z := 256.
Definition WM_MOUSEMOVE_MSG : Z := 512.
Definition VK_ESCAPE : Z := 27.
Definition VK_RETURN : Z := 13.

Record WndState : Type := mkWnd { wnd_world : World; wire : bool }.

Inductive wnd_action : Type :=
| NoAction
| PostQuit
| Destroy
| Fill (wireframe : bool).

Section Window.
Variables cos sin : f64 -> f64.

Definition WndProc (msg wParam lParam : Z) (st : WndState) : WndState * wnd_action :=
  if (msg =? WM_DESTROY_MSG)%Z then (st, PostQuit)
  else if (msg =? WM_KEYDOWN_MSG)%Z then
    if (wParam =? VK_ESCAPE)%Z then (st, Destroy)
    else if (wParam =? VK_RETURN)%Z then
      (mkWnd (wnd_world st) (negb (wire st)), Fill (negb (wire st)))
    else (st, NoAction)
  else if (msg =? WM_MOUSEMOVE_MSG)%Z then
    (mkWnd (WM_MOUSEMOVE cos sin wParam lParam (wnd_world st)) (wire st), NoAction)
  else (st, NoAction).

(** ** The message loop ([d3d::EnterMsgLoop] of d3dUtility.cpp)

    That file is not in the repository, so the loop is modelled from the
    contract of the Win32 message pump.  A queued message is dispatched to
    [WndProc].  When the queue is empty, [Display] is called with the time
    since the previous frame.  The loop ends at the [WM_QUIT] that
    [PostQuitMessage] queues.  [DestroyWindow] sends [WM_DESTROY] to
    [WndProc] before it returns, and that posts [WM_QUIT]: no frame runs
    after either.  A run is a finite list of events.  It is still
    [Running] when the list ends before the quit. *)

Inductive event : Type :=
| EvMsg (msg wParam lParam : Z)
| EvIdle (keys : Keys) (timeDelta : f64).

Inductive loop_end : Type :=
| Running (st : WndState)
| Quit (st : WndState).

Fixpoint msg_loop (lv : Level) (evs : list event) (st : WndState) : res loop_end :=
  match evs with
  | [] => Ok (Running st)
  | EvMsg msg wParam lParam :: evs =>
      let '(st', act) := WndProc msg wParam lParam st in
      match act with
      | PostQuit | Destroy => Ok (Quit st')
      | _ => msg_loop lv evs st'
      end
  | EvIdle keys dt :: evs =>
      w' <- Display lv keys dt (wnd_world st) ;;
      msg_loop lv evs (mkWnd w' (wire st))
  end.

(** [WinMain] (lines 786-805): [Setup], the loop, then [Cleanup].
    [InitD3D] is assumed to succeed (it only concerns the device).  A
    [Setup] that fails returns before the loop (line 794). *)
Definition WinMain (evs : list event) : res loop_end :=
  '(lv, w) <- Setup map ;;
  r <- msg_loop lv evs (mkWnd w false) ;;
  match r with
  | Quit _ => _ <- Cleanup lv ;; Ok r
  | Running _ => Ok r
  end.

End Window.

(** The mouse handler changes the aim and the player's bullet only. *)
Lemma WM_MOUSEMOVE_keeps (cos sin : f64 -> f64) (wParam lParam : Z) (w : World) :
  let w' := WM_MOUSEMOVE cos sin wParam lParam w in
  g_enemy w' = g_enemy w /\ my_life w' = my_life w /\ pos_x w' = pos_x w /\
  pos_z w' = pos_z w /\ FPS w' = FPS w.
Proof.
  unfold WM_MOUSEMOVE, fire. destruct (_ && _);
    [destruct (my_shoot (look cos sin _ _ w))|]; repeat split.
Qed.

(** The mouse handler leaves the camera alone: only [Display] moves it. *)
Lemma WM_MOUSEMOVE_camera (cos sin : f64 -> f64) (wParam lParam : Z) (w : World) :
  let w' := WM_MOUSEMOVE cos sin wParam lParam w in
  pos w' = pos w /\ target w' = target w /\ g_mView w' = g_mView w.
Proof.
  unfold WM_MOUSEMOVE, fire. destruct (_ && _);
    [destruct (my_shoot (look cos sin _ _ w))|]; repeat split.
Qed.

(** A mouse event does not fire while the bullet is in flight. *)
Lemma WM_MOUSEMOVE_in_flight (cos sin : f64 -> f64) (wParam lParam : Z) (w : World) :
  my_shoot w = true ->
  my_shoot (WM_MOUSEMOVE cos sin wParam lParam w) = true /\
  my_bullet (WM_MOUSEMOVE cos sin wParam lParam w) = my_bullet w /\
  g_enemy (WM_MOUSEMOVE cos sin wParam lParam w) = g_enemy w.
Proof.
  intros Hs. unfold WM_MOUSEMOVE, fire.
  assert (E : my_shoot (look cos sin (LOWORD lParam) (HIWORD lParam) w) = true) by exact Hs.
  destruct (_ && _); [rewrite E|]; auto.
Qed.

(** ** Runs of the program *)

(** The mouse at rest at [(492, 269)] turns the aim by the angle 0; the
    scenarios take [cos] and [sin] at their values there. *)
Definition rest_cos : f64 -> f64 := fun _ => Fin 1.
Definition rest_sin : f64 -> f64 := fun _ => Fin 0.

(** ** The aim stays normalised *)








(** C24. The program never exits normally.  Closing the window (Escape
    or [WM_DESTROY]) ends the message loop, and [WinMain] then calls
    [Cleanup], which reads past the 200 walls of [g_legowalls].  So every
    run of [WinMain] on [map] is either still running or has ended in
    [exit(0)] (win or loss), in undefined behaviour, or in the gate's
    endless loop: it never returns after a quit. *)
Theorem WinMain_no_clean_exit (cos sin : f64 -> f64) (evs : list event) (st : WndState) :
  WinMain cos sin evs <> Ok (Quit st).
Proof.
  unfold WinMain. pose proof Setup_walls_count as H.
  destruct (Setup map) as [[lv w]|h]; [|discriminate]. cbn [res_bind].
  destruct (msg_loop cos sin lv evs (mkWnd w false)) as [[s|s]|h]; cbn [res_bind];
    try discriminate.
  unfold Cleanup. rewrite cleanup_walls_oob; [discriminate|].
  apply Nat.ltb_lt in H. cbn. lia.
Qed.

Lemma WinMain_no_clean_exit_witness :
  WinMain rest_cos rest_sin [EvMsg WM_KEYDOWN_MSG VK_ESCAPE 0] =
    Halt (Undefined "g_legowalls[i] out of bounds in Cleanup") /\
  forall st, WinMain rest_cos rest_sin [EvMsg WM_KEYDOWN_MSG VK_ESCAPE 0] <> Ok (Quit st).
Proof.
  split; [vm_compute; reflexivity|].
  intros st. exact (WinMain_no_clean_exit rest_cos rest_sin _ st).
Defined.

(** The state a run ended in. *)
Definition loop_state (r : loop_end) : WndState := match r with Running s | Quit s => s end.

(** The world of a game that has not started: [FPS] is 0, and the
    enemies, the player's life, the player's position and the camera's
    eye and point looked at are those of [w]; the view matrix is that of
    [w] or the view from that eye to that point. *)
Definition frozen (w w' : World) : Prop :=
  FPS w' = 0%Z /\ g_enemy w' = g_enemy w /\ my_life w' = my_life w /\
  pos_x w' = pos_x w /\ pos_z w' = pos_z w /\ pos w' = pos w /\ target w' = target w /\
  (g_mView w' = g_mView w \/ g_mView w' = D3DXMatrixLookAtLH (pos w) (target w) up).

(** The frame times a millisecond timer produces: 0 or at least 0.001. *)
Definition ms_timer (evs : list event) : Prop :=
  forall keys dt, In (EvIdle keys dt) evs -> dt = Fin 0 \/ exists q, dt = Fin q /\ 1 # 1000 <= q.

Lemma WndProc_keeps (cos sin : f64 -> f64) (msg wParam lParam : Z) (st : WndState) :
  FPS (wnd_world st) = 0%Z ->
  frozen (wnd_world st) (wnd_world (fst (WndProc cos sin msg wParam lParam st))).
Proof.
  intros HF. unfold WndProc, frozen.
  repeat match goal with |- context [if ?c then _ else _] => destruct c end;
    cbn [fst wnd_world]; try (repeat split; assumption || reflexivity || (left; reflexivity)).
  destruct (WM_MOUSEMOVE_keeps cos sin wParam lParam (wnd_world st)) as (E1 & E2 & E3 & E4 & E5).
  destruct (WM_MOUSEMOVE_camera cos sin wParam lParam (wnd_world st)) as (E6 & E7 & E8).
  repeat split; try congruence. left. exact E8.
Qed.

Lemma Display_ms_frozen (lv : Level) (keys : Keys) (dt : f64) (w w' : World) :
  FPS w = 0%Z -> (dt = Fin 0 \/ exists q, dt = Fin q /\ 1 # 1000 <= q) ->
  Display lv keys dt w = Ok w' -> frozen w w'.
Proof.
  intros HF Hdt H. unfold Display in H. rewrite HF in H. cbn [Z.eqb] in H.
  destruct Hdt as [->|(q & -> & Hq)].
  - injection H as <-. repeat split; try assumption. right. reflexivity.
  - rewrite fne_zero, fps_scan_ms in H by (exact Hq || lra). injection H as <-.
    repeat split. right. reflexivity.
Qed.

Lemma frozen_trans (w1 w2 w3 : World) : frozen w1 w2 -> frozen w2 w3 -> frozen w1 w3.
Proof.
  unfold frozen. intros (A1 & B1 & C1 & D1 & E1 & F1 & G1 & H1) (A2 & B2 & C2 & D2 & E2 & F2 & G2 & H2).
  repeat split; try congruence. rewrite F1, G1 in H2. destruct H1 as [H1|H1], H2 as [H2|H2];
    [left | right | right | right]; congruence.
Qed.

Lemma frozen_refl (w : World) : FPS w = 0%Z -> frozen w w.
Proof. intros H. repeat split; try assumption. left. reflexivity. Qed.

(** A run with a millisecond timer from a world whose game has not
    started keeps it frozen. *)
Lemma msg_loop_frozen (cos sin : f64 -> f64) (lv : Level) (evs : list event)
    (st : WndState) (r : loop_end) :
  FPS (wnd_world st) = 0%Z -> ms_timer evs ->
  msg_loop cos sin lv evs st = Ok r -> frozen (wnd_world st) (wnd_world (loop_state r)).
Proof.
  revert st. induction evs as [|ev evs IH]; intros st HF Hms H; cbn [msg_loop] in H.
  - injection H as <-. apply frozen_refl, HF.
  - destruct ev as [msg wParam lParam|keys dt].
    + pose proof (WndProc_keeps cos sin msg wParam lParam st HF) as K.
      destruct (WndProc cos sin msg wParam lParam st) as [st' act]. cbn [fst] in K.
      assert (Hms' : ms_timer evs) by (intros k d Hin; apply (Hms k d); right; exact Hin).
      destruct act; try (injection H as <-; exact K);
        exact (frozen_trans _ _ _ K (IH st' (proj1 K) Hms' H)).
    + destruct (Display lv keys dt (wnd_world st)) as [w'|h] eqn:ED; cbn [res_bind] in H;
        [|discriminate].
      pose proof (Display_ms_frozen lv keys dt _ _ HF (Hms keys dt (or_introl eq_refl)) ED) as K.
      assert (Hms' : ms_timer evs) by (intros k d Hin; apply (Hms k d); right; exact Hin).
      exact (frozen_trans _ _ _ K (IH (mkWnd w' (wire st)) (proj1 K) Hms' H)).
Qed.

(** C25. With a millisecond timer the game never starts.  For every run
    from a world with [FPS == 0] whose frame times are 0 or at least a
    millisecond, whatever messages arrive, [FPS] stays 0 and the
    simulation never runs: no enemy is updated, the player loses no life
    and never moves.  Only the aim and the player's bullet follow the
    mouse, and the camera keeps its eye and the point it looks at. *)
Theorem msg_loop_never_starts (cos sin : f64 -> f64) (lv : Level) (evs : list event)
    (st : WndState) (r : loop_end) :
  FPS (wnd_world st) = 0%Z -> ms_timer evs ->
  msg_loop cos sin lv evs st = Ok r -> frozen (wnd_world st) (wnd_world (loop_state r)).
Proof. exact (msg_loop_frozen cos sin lv evs st r). Qed.

(** A run at 60 frames per second with a millisecond timer: a frame of
    0.016 s, a click, a frame of 0 s, and Return. *)
Definition ms_run : list event :=
  [EvIdle (fun vk => (vk =? 87)%Z) (Fin (16 # 1000));
   EvMsg WM_MOUSEMOVE_MSG MK_LBUTTON (269 * 65536 + 492);
   EvIdle (fun vk => (vk =? 87)%Z) (Fin 0);
   EvMsg WM_KEYDOWN_MSG VK_RETURN 0].

Lemma ms_run_timer : ms_timer ms_run.
Proof.
  intros k d Hin. simpl in Hin.
  destruct Hin as [Hin|[Hin|[Hin|[Hin|[]]]]]; injection Hin as _ <- || discriminate Hin.
  - right. exists (16 # 1000). split; [reflexivity | by_eval].
  - left. reflexivity.
Qed.

Lemma ms_run_facts :
  match Setup map with
  | Ok (lv, w) => (FPS w =? 0)%Z &&
      match msg_loop rest_cos rest_sin lv ms_run (mkWnd w false) with
      | Ok _ => true
      | Halt _ => false
      end
  | Halt _ => false
  end = true.
Proof. vm_compute. reflexivity. Qed.

Lemma msg_loop_never_starts_witness :
  match Setup map with
  | Ok (lv, w) =>
      match msg_loop rest_cos rest_sin lv ms_run (mkWnd w false) with
      | Ok r => frozen w (wnd_world (loop_state r))
      | Halt _ => False
      end
  | Halt _ => False
  end.
Proof.
  pose proof ms_run_facts as H. destruct (Setup map) as [[lv w]|h]; [|discriminate].
  apply andb_true_iff in H as [HF HL]. apply Z.eqb_eq in HF.
  destruct (msg_loop rest_cos rest_sin lv ms_run (mkWnd w false)) as [r|h] eqn:E;
    [|discriminate].
  exact (msg_loop_never_starts rest_cos rest_sin lv ms_run (mkWnd w false) r HF ms_run_timer E).
Defined.

(** [Setup] on [map] puts the player at the start tile [P], at
    [(-23, -23)], with [FPS] at 0. *)
Lemma Setup_start (lv : Level) (w : World) :
  Setup map = Ok (lv, w) -> pos_x w = Fin (-23) /\ pos_z w = Fin (-23) /\ FPS w = 0%Z.
Proof.
  intros H.
  assert (B : match Setup map with
              | Ok (_, w) => f64_eqb (pos_x w) (Fin (-23)) && f64_eqb (pos_z w) (Fin (-23)) &&
                             (FPS w =? 0)%Z
              | Halt _ => false
              end = true) by (vm_compute; reflexivity).
  rewrite H, !andb_true_iff, !f64_eqb_eq, Z.eqb_eq in B. destruct B as [[? ?] ?]. auto.
Qed.

(** C38. The camera of a game that has not started is not where the player
    is.  [Setup] aims the camera from the static [pos = (0, PLAYERHEIGHT,
    0)], the centre of the maze, towards [(1, PLAYERHEIGHT, 0)], although it
    has just put the player at the start tile [(-23, -23)]; only a frame of
    the running game moves the eye.  So with a millisecond timer, whatever
    messages arrive, the view stays the one from the centre of the maze
    while the player stays at the start. *)
Theorem msg_loop_camera_at_centre (cos sin : f64 -> f64) (evs : list event) (lv : Level)
    (w : World) (r : loop_end) :
  Setup map = Ok (lv, w) -> ms_timer evs -> msg_loop cos sin lv evs (mkWnd w false) = Ok r ->
  pos (wnd_world (loop_state r)) = vec3 (Fin 0) PLAYERHEIGHT (Fin 0) /\
  target (wnd_world (loop_state r)) = vec3 (Fin 1) PLAYERHEIGHT (Fin 0) /\
  g_mView (wnd_world (loop_state r)) = D3DXMatrixLookAtLH pos_init target_init up /\
  pos_x (wnd_world (loop_state r)) = Fin (-23) /\ pos_z (wnd_world (loop_state r)) = Fin (-23).
Proof.
  intros HS Hms H. destruct (Setup_camera _ _ _ HS) as (Hp & Ht & Hv & _ & _).
  destruct (Setup_start _ _ HS) as (Hx & Hz & HF).
  destruct (msg_loop_frozen cos sin lv evs (mkWnd w false) r HF Hms H)
    as (_ & _ & _ & Ex & Ez & Ep & Et & Ev). cbn [wnd_world] in *.
  rewrite Ep, Et, Ex, Ez, Hp, Ht, Hx, Hz. repeat split.
  destruct Ev as [-> | ->]; [exact Hv | rewrite Hp, Ht; reflexivity].
Qed.

Lemma msg_loop_camera_at_centre_witness :
  match Setup map with
  | Ok (lv, w) =>
      match msg_loop rest_cos rest_sin lv ms_run (mkWnd w false) with
      | Ok r =>
          pos (wnd_world (loop_state r)) = vec3 (Fin 0) PLAYERHEIGHT (Fin 0) /\
          target (wnd_world (loop_state r)) = vec3 (Fin 1) PLAYERHEIGHT (Fin 0) /\
          g_mView (wnd_world (loop_state r)) = D3DXMatrixLookAtLH pos_init target_init up /\
          pos_x (wnd_world (loop_state r)) = Fin (-23) /\ pos_z (wnd_world (loop_state r)) = Fin (-23)
      | Halt _ => False
      end
  | Halt _ => False
  end.
Proof.
  pose proof ms_run_facts as H. destruct (Setup map) as [[lv w]|h] eqn:ES; [|discriminate].
  apply andb_true_iff in H as [_ HL].
  destruct (msg_loop rest_cos rest_sin lv ms_run (mkWnd w false)) as [r|h] eqn:E;
    [|discriminate].
  exact (msg_loop_camera_at_centre rest_cos rest_sin ms_run lv w r ES ms_run_timer E).
Defined.
