(* ===== verification/Game.v ===== *)
(** * The game: the worlds a run reaches

    [reachable] closes [Setup] on [map] under completed frames and mouse
    events.  [world_inv] is the invariant of those worlds.  [follows]
    gives the worlds after a given one, and [run_frames] a sequence of
    idle frames of the message loop.  The theorems of this file are about
    runs of several frames: the invariant, a
    bullet that tunnels out of the maze and is lost, an enemy whose
    bullet does the same and is disarmed, a falling bullet that the floor
    absorbs, and the scenarios the witnesses evaluate. *)

From Stdlib Require Import QArith Qabs Lqa ZArith Lia List Bool Ascii String.
From S2P Require Import Prelude Double Matrix View Sphere Wall GridMap Enemy Frame Input.
Import ListNotations.

(** ** The invariant of the worlds the game reaches *)

(** Every enemy well formed, the player's life in [1..3], the player at a
    finite position strictly inside the border walls. *)
Definition world_inv (w : World) : Prop :=
  Forall enemy_inv (g_enemy w) /\ (1 <= my_life w <= 3)%Z /\
  exists x z, pos_x w = Fin x /\ pos_z w = Fin z /\ interior x z.

Definition enemy_inv_b (e : CEnemy) : bool :=
  (0 <=? life e)%Z && (life e <=? 3)%Z && (negb (alive e) || (1 <=? life e)%Z).

Definition interior_b (x z : Q) : bool :=
  Qle_bool (-27.8) x && Qltb x 27.8 && Qltb (-27.8) z && Qle_bool z 27.8.

Definition world_inv_b (w : World) : bool :=
  forallb enemy_inv_b (g_enemy w) && (1 <=? my_life w)%Z && (my_life w <=? 3)%Z &&
  match pos_x w, pos_z w with Fin x, Fin z => interior_b x z | _, _ => false end.

Lemma world_inv_b_spec (w : World) : world_inv_b w = true -> world_inv w.
Proof.
  unfold world_inv_b, world_inv. rewrite !andb_true_iff.
  intros (((He & Hl1) & Hl3) & Hp). apply Z.leb_le in Hl1, Hl3.
  split; [|split; [lia|]].
  - apply Forall_forall. intros e Hin. eapply forallb_forall in He; [|exact Hin].
    unfold enemy_inv_b in He. rewrite !andb_true_iff, orb_true_iff, negb_true_iff in He.
    unfold enemy_inv. destruct He as ((H0 & H3) & Ha). apply Z.leb_le in H0, H3.
    split; [lia|]. intros E. destruct Ha as [Ha|Ha]; [congruence | apply Z.leb_le in Ha; exact Ha].
  - destruct (pos_x w) as [x|], (pos_z w) as [z|]; try discriminate.
    exists x, z. split; [reflexivity|]. split; [reflexivity|].
    unfold interior_b in Hp. rewrite !andb_true_iff, !Qltb_iff, !Qle_bool_iff in Hp.
    unfold interior. tauto.
Qed.

Lemma world_inv_set_FPS (w : World) (v : Z) : world_inv w -> world_inv (set_FPS w v).
Proof. unfold world_inv. simpl. tauto. Qed.

(** The worlds of a game on [map]: after [Setup], after any completed
    frame, and after any mouse event. *)
Inductive reachable : Level -> World -> Prop :=
| reach_setup lv w : Setup map = Ok (lv, w) -> reachable lv w
| reach_frame lv w w' keys dt : reachable lv w -> Display lv keys dt w = Ok w' -> reachable lv w'
| reach_mouse lv w cos sin wParam lParam :
    reachable lv w -> reachable lv (WM_MOUSEMOVE cos sin wParam lParam w).

Lemma Setup_map_start (lv : Level) (w : World) :
  Setup map = Ok (lv, w) -> lmap lv = map /\ world_inv_b w = true.
Proof. intros H. vm_eval_in H. injection H as <- <-. split; vm_compute; reflexivity. Qed.

Lemma reachable_map (lv : Level) (w : World) : reachable lv w -> lmap lv = map.
Proof. induction 1; [apply (Setup_map_start _ _ H) | assumption | assumption]. Qed.

(** C1. Every world of a game on [map] satisfies the invariant: all
    enemies are well formed, the player's life stays in [1..3] (a frame
    that would take the last point ends in [Lose] instead), and the player
    is at a finite position strictly inside the border walls, so no frame
    reads [map] out of bounds. *)
Theorem reachable_inv (lv : Level) (w : World) : reachable lv w -> world_inv w.
Proof.
  intros R. pose proof (reachable_map _ _ R) as Hm. destruct map_shape as [Hwf Hb].
  rewrite <- Hm in Hwf, Hb. clear Hm.
  induction R as [lv w H|lv w w' keys dt R IH H|lv w cos sin wParam lParam R IH].
  - apply world_inv_b_spec. exact (proj2 (Setup_map_start _ _ H)).
  - (* a completed frame keeps the invariant *)
    specialize (IH Hwf Hb). clear R.
    destruct (Display_Ok _ _ _ _ _ H) as (w0 & -> & [->|[[v ->]|[_ Hs]]]);
      [exact IH | apply world_inv_set_FPS, IH |].
    destruct (display_sim_Ok _ _ _ _ _ Hs)
      as (s3 & l1 & s4 & es & w1 & w2 & _ & El & _ & Hm & -> & Hx & Hz & Hl & _ & He & _).
    destruct IH as (Hes & Hlife & x & z & Ex & Ez & Hin).
    destruct (move_player_interior lv keys w1 w2 x z Hwf Hb ltac:(congruence)
                ltac:(congruence) Hin Hm) as (x' & z' & Ex' & Ez' & Hin').
    destruct (move_player_set_pos _ _ _ _ Hm) as (px & pz & ->).
    unfold world_inv. cbn [g_enemy my_life pos_x pos_z set_pos set_camera set_view] in *. rewrite He, Hl.
    destruct (enemy_loop_life _ _ _ _ _ _ _ _ _ _ _ El).
    split; [|split; [lia | exists x', z'; auto]].
    eapply Forall2_transport; [|exact (enemy_loop_pointwise _ _ _ _ _ _ _ _ _ _ _ El)|exact Hes].
    intros a b' Rab. exact (enemy_step_inv _ _ _ _ _ _ _ Rab).
  - destruct (IH Hwf Hb) as (Hes & Hl & x & z & Ex & Ez & Hin).
    destruct (WM_MOUSEMOVE_keeps cos sin wParam lParam w) as (E1 & E2 & E3 & E4 & _).
    unfold world_inv. rewrite E1, E2, E3, E4. split; [exact Hes|]. split; [exact Hl|].
    exists x, z. auto.
Qed.

(** ** A bullet that tunnels through the east wall is never parked again

    The collision tests are made once per frame at the bullet's current
    position, and the bullet moves [BULLETSPEED * timeDelta] per frame
    (6.7 units at 60 frames per second) while the border walls are 2
    units thick: a bullet can pass from one side of a wall to the other
    between two tests.  Beyond every box of the level nothing clears
    [my_shoot] again. *)

(** The box lies west of [x = 30]: [m_x + m_width / 2 <= 30]. *)
Definition east_of (c : CWall) : bool := fle (fadd (m_x c) (fdiv (m_width c) two)) (Fin 30).

Definition level_east_b (lv : Level) : bool :=
  east_of (g_legoPlane lv) && east_of (g_legoCeiling lv) && forallb east_of (g_legowalls lv).

Definition enemy_east_b (e : CEnemy) : bool := east_of (body e) && east_of (head e).

(** The player's bullet, entirely east of [x = 30] and not moving west. *)
Definition escaped (b : CSphere) : Prop :=
  exists x vx r, center_x b = Fin x /\ m_velocity_x b = Fin vx /\ m_radius b = Fin r /\
                 30 < x - r /\ 0 <= vx.

Definition escaped_b (b : CSphere) : bool :=
  match center_x b, m_velocity_x b, m_radius b with
  | Fin x, Fin vx, Fin r => Qltb 30 (x - r) && Qle_bool 0 vx
  | _, _, _ => false
  end.

Lemma escaped_b_spec (b : CSphere) : escaped_b b = true -> escaped b.
Proof.
  unfold escaped_b, escaped.
  destruct (center_x b) as [x|], (m_velocity_x b) as [vx|], (m_radius b) as [r|];
    try discriminate.
  rewrite andb_true_iff, Qltb_iff, Qle_bool_iff. intros [H1 H2]. exists x, vx, r. auto.
Qed.

Lemma east_miss (c : CWall) (b : CSphere) :
  east_of c = true -> escaped b -> hasIntersected c b = false.
Proof.
  unfold east_of. intros He (x & vx & r & Ex & _ & Er & Hx & _).
  destruct (fadd (m_x c) (fdiv (m_width c) two)) as [a|] eqn:Ea; [|discriminate].
  cbn [fle] in He. apply Qle_bool_iff in He.
  unfold hasIntersected, getRadius. rewrite Ea, Ex, Er. cbn [fsub flt].
  replace (Qltb (x - r) a) with false; [apply andb_false_r|].
  symmetry. apply Qltb_false. lra.
Qed.

Lemma any_hits_east (ws : list CWall) (b : CSphere) :
  forallb east_of ws = true -> escaped b -> any_hits ws b = false.
Proof.
  intros H Hb. unfold any_hits. apply existsb_none. intros c Hin. simpl.
  apply east_miss; [|exact Hb]. exact (proj1 (forallb_forall _ _) H c Hin).
Qed.

Lemma Update_boxes dt ws px pz l e l1 e1 :
  Update dt ws px pz l e = Ok (l1, e1) -> body e1 = body e /\ head e1 = head e.
Proof.
  unfold Update. destruct (_ && _); [discriminate|]. intros H. injection H as _ <-. auto.
Qed.

Lemma enemy_step_east dt ws px pz b e e' :
  enemy_step dt ws px pz b e e' -> enemy_east_b e' = enemy_east_b e.
Proof.
  intros [[_ ->]|[_ (l & l1 & e1 & EU & He)]]; [reflexivity|].
  apply Update_boxes in EU as [Hb Hh]. unfold enemy_east_b.
  destruct He as [->|[s ->]]; [rewrite Hb, Hh; reflexivity|].
  destruct (hasHit_cases b s e1) as [[_ H]|[[_ H]|[_ H]]]; rewrite H; cbn [snd];
    rewrite <- Hb, <- Hh; reflexivity.
Qed.

(** With every enemy's boxes west of the bullet, the loop keeps the
    bullet in flight. *)
Lemma enemy_loop_miss dt ws px pz b es :
  escaped b -> forallb enemy_east_b es = true ->
  forall l s l' s' es', enemy_loop dt ws px pz b l s es = Ok (l', s', es') -> s' = s.
Proof.
  intros Hb. induction es as [|e es IH]; intros Hes l s l' s' es' H; cbn [enemy_loop] in H.
  - injection H as _ <- _. reflexivity.
  - cbn [forallb] in Hes. apply andb_true_iff in Hes as [He Hes].
    destruct (isAlive e).
    + destruct (Update dt ws px pz l e) as [[l1 e1]|h] eqn:EU; cbn [res_bind] in H;
        [|discriminate].
      assert (Hmiss : (if s then hasHit b s e1 else (s, e1)) = (s, e1)).
      { destruct s; [|reflexivity]. apply Update_boxes in EU as [Hbd Hhd].
        unfold enemy_east_b in He. apply andb_true_iff in He as [Heb Heh].
        unfold hasHit. rewrite Hbd, Hhd, (east_miss _ _ Heb Hb), (east_miss _ _ Heh Hb).
        reflexivity. }
      rewrite Hmiss in H.
      destruct (enemy_loop _ _ _ _ _ _ _ es) as [[[l2 s2] es2]|h] eqn:ER;
        cbn [res_bind] in H; [|discriminate]. injection H as _ <- _.
      exact (IH Hes _ _ _ _ _ ER).
    + destruct (enemy_loop _ _ _ _ _ _ _ es) as [[[l2 s2] es2]|h] eqn:ER;
        cbn [res_bind] in H; [|discriminate]. injection H as _ <- _.
      exact (IH Hes _ _ _ _ _ ER).
Qed.

Lemma ballUpdate_escaped (q : Q) (b : CSphere) :
  0 <= q -> escaped b -> escaped (ballUpdate (Fin q) b).
Proof.
  intros Hq (x & vx & r & Ex & Ev & Er & Hx & Hv).
  exists (x + vx * q), vx, r. rewrite (ballUpdate_center_x q x vx b Ex Ev).
  split; [reflexivity|]. split; [exact Ev|]. split; [exact Er|]. split; [nra | exact Hv].
Qed.

(** One completed frame keeps an escaped bullet escaped and in flight. *)
Lemma Display_escaped (lv : Level) (keys : Keys) (q : Q) (w w' : World) :
  level_east_b lv = true -> forallb enemy_east_b (g_enemy w) = true -> 0 <= q ->
  my_shoot w = true -> escaped (my_bullet w) ->
  Display lv keys (Fin q) w = Ok w' ->
  my_shoot w' = true /\ escaped (my_bullet w') /\ forallb enemy_east_b (g_enemy w') = true.
Proof.
  intros Hl Hes Hq Hs Hb H.
  destruct (Display_Ok _ _ _ _ _ H) as (w0 & -> & [->|[[v ->]|[_ Hsim]]]); [auto | simpl; auto |].
  destruct (display_sim_Ok _ _ _ _ _ Hsim)
    as (s3 & l1 & s4 & es & w1 & w2 & _ & El & _ & Hm & -> & _ & _ & _ & Hs4 & He & _ & Hs3 & Hb1 & _).
  unfold level_east_b in Hl. apply andb_true_iff in Hl as [Hl Hws].
  apply andb_true_iff in Hl as [Hpl Hce].
  rewrite (any_hits_east _ _ Hws Hb), (east_miss _ _ Hce Hb), (east_miss _ _ Hpl Hb), Hs in Hs3.
  subst s3. pose proof (enemy_loop_miss _ _ _ _ _ _ Hb Hes _ _ _ _ _ El) as ->.
  destruct (move_player_set_pos _ _ _ _ Hm) as (px & pz & ->). cbn [my_shoot my_bullet g_enemy set_pos set_camera set_view].
  rewrite Hs4, Hb1, He. split; [reflexivity|]. split; [exact (ballUpdate_escaped q _ Hq Hb)|].
  pose proof (enemy_loop_pointwise _ _ _ _ _ _ _ _ _ _ _ El) as P.
  apply forallb_forall. intros e' Hin'.
  apply Forall2_transport with (P := fun e => enemy_east_b e = true) (Q := fun e => enemy_east_b e = true) in P.
  - rewrite Forall_forall in P. exact (P e' Hin').
  - intros a c R Ha. rewrite (enemy_step_east _ _ _ _ _ _ _ R). exact Ha.
  - apply Forall_forall. intros e Hin. exact (proj1 (forallb_forall _ _) Hes e Hin).
Qed.

(** The worlds that follow [w]: frames with a finite nonnegative
    [timeDelta] and mouse events. *)
Inductive follows (lv : Level) (w : World) : World -> Prop :=
| follows_refl : follows lv w w
| follows_frame w1 w2 keys q :
    follows lv w w1 -> 0 <= q -> Display lv keys (Fin q) w1 = Ok w2 -> follows lv w w2
| follows_mouse w1 cos sin wParam lParam :
    follows lv w w1 -> follows lv w (WM_MOUSEMOVE cos sin wParam lParam w1).

(** C11. A bullet that has tunnelled out of the maze eastward is lost for
    good: on a level whose boxes all lie west of [x = 30], once the
    player's bullet is in flight beyond [x = 30.05] and not moving west,
    in every later world it is still in flight and beyond, so no frame
    parks it and no click fires again. *)
Theorem escaped_bullet_lost (lv : Level) (w w' : World) :
  level_east_b lv = true -> forallb enemy_east_b (g_enemy w) = true ->
  my_shoot w = true -> escaped (my_bullet w) ->
  follows lv w w' -> my_shoot w' = true /\ escaped (my_bullet w').
Proof.
  intros Hl Hes Hs Hb F.
  enough (my_shoot w' = true /\ escaped (my_bullet w') /\ forallb enemy_east_b (g_enemy w') = true)
    by tauto.
  induction F as [|w1 w2 keys q F IH Hq H|w1 cos sin wParam lParam F IH]; [auto| |].
  - destruct IH as (Hs1 & Hb1 & He1). exact (Display_escaped _ _ _ _ _ Hl He1 Hq Hs1 Hb1 H).
  - destruct IH as (Hs1 & Hb1 & He1).
    destruct (WM_MOUSEMOVE_in_flight cos sin wParam lParam w1 Hs1) as (E1 & E2 & E3).
    rewrite E1, E2, E3. auto.
Qed.

(** ** An enemy whose bullet tunnels out of the maze is disarmed

    An enemy's bullet flies at [BULLETSPEED] toward where the player was
    and is only reset by a wall or by the player.  Past the east border it
    meets neither: the enemy never reloads, so it never fires again. *)

(** The player's hit volume, [ENEMYSIZE / 2] around a player west of
    [x = 29.7], misses an escaped bullet. *)
Lemma player_hit_escaped (px pz : f64) (x : Q) (b : CSphere) :
  px = Fin x -> x <= 29.7 -> escaped b -> player_hit (mkHitbox px pz) b = false.
Proof.
  intros -> Hx (bx & vx & r & Ebx & _ & Er & Hb & _).
  assert (Hh : fdiv ENEMYSIZE two = Fin (0.6 / 2)) by reflexivity.
  unfold player_hit, getRadius. cbn [hb_x]. rewrite Ebx, Er, Hh. cbn [fsub fadd flt].
  replace (Qltb (bx - r) (x + 0.6 / 2)) with false; [apply andb_false_r|].
  symmetry. apply Qltb_false. qlra.
Qed.

(** One frame of an enemy whose bullet has escaped. *)
Lemma Update_escaped (q : Q) (ws : list CWall) (px pz : f64) (x : Q) (l : Z) (e : CEnemy) :
  0 <= q -> forallb east_of ws = true -> px = Fin x -> x <= 29.7 ->
  shoot e = true -> escaped (bullet e) ->
  Update (Fin q) ws px pz l e = Ok (l, with_bullet e (ballUpdate (Fin q) (bullet e)) true).
Proof.
  intros Hq Hws Hpx Hx Hs Hb. unfold Update.
  rewrite (any_hits_east _ _ Hws Hb), (player_hit_escaped px pz x _ Hpx Hx Hb), Hs.
  reflexivity.
Qed.

(** The frames a run gives the enemy: a finite nonnegative time step,
    walls west of [x = 30], and the player west of [x = 29.7]. *)
Definition frame_ok (inp : f64 * list CWall * f64 * f64) : Prop :=
  let '(dt, ws, px, pz) := inp in
  (exists q, dt = Fin q /\ 0 <= q) /\ forallb east_of ws = true /\
  exists x, px = Fin x /\ x <= 29.7.

(** C35. An enemy whose bullet has tunnelled out of the maze eastward
    (past [x = 30] and not moving west) is disarmed for good: over any
    later frames, whatever the time steps and the player's positions
    inside the maze, [Update] never hits the player, never reloads, and
    leaves the bullet in flight beyond the border, so the enemy never
    fires again. *)
Theorem enemy_bullet_lost (steps : list (f64 * list CWall * f64 * f64)) (l : Z) (e : CEnemy) :
  shoot e = true -> escaped (bullet e) -> Forall frame_ok steps ->
  exists e', Update_run steps l e = Ok (l, e') /\ shoot e' = true /\ escaped (bullet e').
Proof.
  revert e. induction steps as [|[[[dt ws] px] pz] steps IH]; intros e Hs Hb Hf.
  - exists e. auto.
  - inversion Hf as [|? ? Hok Hf']; subst. destruct Hok as ((q & -> & Hq) & Hws & x & Hpx & Hx).
    unfold Update_run. cbn [fold_res]. rewrite (Update_escaped q ws px pz x l e Hq Hws Hpx Hx Hs Hb).
    cbn [res_bind]. apply IH; [reflexivity | exact (ballUpdate_escaped q _ Hq Hb) | exact Hf'].
Qed.

(** ** Invariants of the balls

    The player's bullet only changes by an Euler step or by a launch
    ([setCenter] then [setPowerY]: firing, or parking at the player), the
    aim marker only by [setCenter], and each enemy only by its step in
    the enemy loop.  A property of the balls that these operations keep
    holds of every completed frame and every mouse event. *)
Section BallInvariant.
Variables (Pb Pa : CSphere -> Prop) (PE : CEnemy -> Prop).
Hypothesis Pb_ballUpdate : forall dt b, Pb b -> Pb (ballUpdate dt b).
Hypothesis Pb_launch : forall vx vy vz x y z b, Pb b -> Pb (setPowerY vx vy vz (setCenter x y z b)).
Hypothesis Pa_setCenter : forall x y z a, Pa a -> Pa (setCenter x y z a).
Hypothesis PE_step : forall dt ws px pz b e e', enemy_step dt ws px pz b e e' -> PE e -> PE e'.

Definition balls_inv (w : World) : Prop :=
  Pb (my_bullet w) /\ Pa (aim_point w) /\ Forall PE (g_enemy w).

Lemma Display_balls (lv : Level) (keys : Keys) (dt : f64) (w w' : World) :
  balls_inv w -> Display lv keys dt w = Ok w' -> balls_inv w'.
Proof.
  intros (Hb & Ha & He) H.
  destruct (Display_Ok _ _ _ _ _ H) as (w0 & -> & [->|[[v ->]|[_ Hsim]]]);
    [split; auto | split; auto |].
  destruct (display_sim_Ok _ _ _ _ _ Hsim)
    as (s3 & l1 & s4 & es & w1 & w2 & _ & El & _ & Hm & -> & _ & _ & _ & _ & Hes & _ & _ & Hb1 & Ha1 & _).
  destruct (move_player_set_pos _ _ _ _ Hm) as (px & pz & ->).
  unfold balls_inv. cbn [my_bullet aim_point g_enemy set_pos set_camera set_view]. rewrite Hb1, Ha1, Hes.
  split; [apply Pb_ballUpdate; destruct s4; [exact Hb | apply Pb_launch, Hb]|].
  split; [apply Pa_setCenter, Ha|].
  eapply Forall2_transport; [|exact (enemy_loop_pointwise _ _ _ _ _ _ _ _ _ _ _ El)|exact He].
  exact (PE_step _ _ _ _ _).
Qed.

Lemma WM_MOUSEMOVE_balls (cos sin : f64 -> f64) (wParam lParam : Z) (w : World) :
  balls_inv w -> balls_inv (WM_MOUSEMOVE cos sin wParam lParam w).
Proof.
  unfold WM_MOUSEMOVE, fire, balls_inv. intros (Hb & Ha & He).
  destruct (_ && _); [destruct (my_shoot (look cos sin _ _ w))|]; cbn; auto.
Qed.

End BallInvariant.

(** ** The message loop stays among the reachable worlds

    [reachable] abstracts the runs of the program: each message the loop
    dispatches leaves the world alone or is a mouse event, and each idle
    event is a frame.  So every world [WinMain] runs through is reachable,
    and the invariants above hold of the real loop. *)
Lemma WndProc_world (cos sin : f64 -> f64) (msg wParam lParam : Z) (st : WndState) :
  wnd_world (fst (WndProc cos sin msg wParam lParam st)) = wnd_world st \/
  wnd_world (fst (WndProc cos sin msg wParam lParam st)) =
    WM_MOUSEMOVE cos sin wParam lParam (wnd_world st).
Proof.
  unfold WndProc.
  repeat match goal with |- context [if ?c then _ else _] => destruct c end;
    cbn [fst wnd_world]; auto.
Qed.

Lemma msg_loop_reachable (cos sin : f64 -> f64) (lv : Level) (evs : list event)
      (st : WndState) (r : loop_end) :
  reachable lv (wnd_world st) -> msg_loop cos sin lv evs st = Ok r ->
  reachable lv (wnd_world (loop_state r)).
Proof.
  revert st. induction evs as [|ev evs IH]; intros st R H; cbn [msg_loop] in H.
  - injection H as <-. exact R.
  - destruct ev as [msg wParam lParam|keys dt].
    + assert (R' : reachable lv (wnd_world (fst (WndProc cos sin msg wParam lParam st))))
        by (destruct (WndProc_world cos sin msg wParam lParam st) as [E|E]; rewrite E;
            [exact R | exact (reach_mouse _ _ _ _ _ _ R)]).
      destruct (WndProc cos sin msg wParam lParam st) as [st' act]. cbn [fst] in R'.
      destruct act; try (injection H as <-; exact R'); exact (IH st' R' H).
    + destruct (Display lv keys dt (wnd_world st)) as [w'|h] eqn:ED; cbn [res_bind] in H;
        [|discriminate].
      exact (IH (mkWnd w' (wire st)) (reach_frame _ _ _ _ _ R ED) H).
Qed.

(** C30. The model of the program refines the reachable worlds: every
    state in which a run of [WinMain] (Setup, then the message loop over
    any events) stops is a reachable world of a game on [map], so the
    invariants proved by rule induction on [reachable] (the player inside
    the walls, life in [1..3], the scene drawn where it is simulated) hold
    of every run of the program. *)
Theorem WinMain_reachable (cos sin : f64 -> f64) (evs : list event) (r : loop_end) :
  WinMain cos sin evs = Ok r -> exists lv, reachable lv (wnd_world (loop_state r)).
Proof.
  unfold WinMain. destruct (Setup map) as [[lv w]|h] eqn:ES; cbn [res_bind]; [|discriminate].
  destruct (msg_loop cos sin lv evs (mkWnd w false)) as [r'|h] eqn:EL; cbn [res_bind];
    [|discriminate].
  intros H. exists lv.
  assert (Hr : r' = r) by (destruct r'; [injection H as <-; reflexivity|];
                           destruct (Cleanup lv); cbn [res_bind] in H;
                           [injection H as <-; reflexivity | discriminate]).
  subst r'. exact (msg_loop_reachable cos sin lv evs (mkWnd w false) r (reach_setup _ _ ES) EL).
Qed.

(** ** A bullet falling slowly enough is always absorbed by the floor

    The converse of the tunnelling above.  The floor is tested once per
    frame.  It is half a unit thick, and with the bullet's radius the test
    catches every centre with [-0.3 < y < 0.3].  A bullet that falls at
    most 0.55 per frame cannot step over that band, so it is caught after
    finitely many frames and [my_shoot] becomes false. *)

(** Consecutive frames of the host loop with the given keys and frame
    times. *)
Fixpoint run_frames (lv : Level) (fs : list (Keys * Q)) (w : World) : res World :=
  match fs with
  | [] => Ok w
  | (keys, q) :: fs => w' <- Display lv keys (Fin q) w ;; run_frames lv fs w'
  end.

(** A ball above the floor ([|x|, |z| <= 30]) at height [y], with radius
    [M_RADIUS] and the vertical velocity [v] only. *)
Definition falling (b : CSphere) (y v : Q) : Prop :=
  exists x z, center_x b = Fin x /\ center_z b = Fin z /\ Qabs x <= 30 /\ Qabs z <= 30 /\
    center_y b = Fin y /\ m_radius b = M_RADIUS /\ m_velocity_x b = Fin 0 /\
    m_velocity_z b = Fin 0 /\ m_velocity_y b = Fin v.

Lemma plane_hits (b : CSphere) (y v : Q) :
  falling b y v -> -0.3 < y < 0.3 -> hasIntersected plane_box b = true.
Proof.
  intros (x & z & Ex & Ez & Hx & Hz & Ey & Er & _) Hy.
  destruct b as [cx cy cz r vx vz vy lm]; cbn in Ex, Ez, Ey, Er; subst.
  change plane_box with (box 0 0 0 (inject_Z 60) 0.5 (inject_Z 60) (Some WHITE)).
  unfold box, M_RADIUS. apply hasIntersected_spec. rewrite !axis_overlap_abs.
  rewrite Qabs_Qle_condition in Hx, Hz.
  repeat split; apply Qabs_Qlt_condition; split; qlra.
Qed.

Lemma Display_running (lv : Level) (keys : Keys) (dt : f64) (w : World) :
  FPS w <> 0%Z -> Display lv keys dt w = (w1 <- display_sim lv keys dt w ;; Ok (set_view w1)).
Proof. intros HF. unfold Display. destruct (Z.eqb_spec (FPS w) 0); [contradiction | reflexivity]. Qed.

(** Only the mouse sets [my_shoot]: a frame never puts a bullet in
    flight. *)
Lemma Display_shoot_false (lv : Level) (keys : Keys) (dt : f64) (w w' : World) :
  my_shoot w = false -> Display lv keys dt w = Ok w' -> my_shoot w' = false.
Proof.
  intros Hs H. destruct (Display_Ok _ _ _ _ _ H) as (w0 & -> & [->|[[v ->]|[_ Hsim]]]); [exact Hs|exact Hs|].
  destruct (display_sim_Ok _ _ _ _ _ Hsim)
    as (s3 & l1 & s4 & es & w1 & w2 & H3 & El & _ & Hm & -> & _ & _ & _ & Hs4 & _).
  destruct (move_player_set_pos _ _ _ _ Hm) as (px & pz & ->). cbn [my_shoot set_pos set_camera set_view].
  rewrite Hs4. pose proof (enemy_loop_consumes _ _ _ _ _ _ _ _ _ _ _ El).
  rewrite Hs in H3. destruct s3, s4; simpl in *; lia.
Qed.

Lemma run_shoot_false (lv : Level) (fs : list (Keys * Q)) (w w' : World) :
  my_shoot w = false -> run_frames lv fs w = Ok w' -> my_shoot w' = false.
Proof.
  revert w. induction fs as [|[keys q] fs IH]; intros w Hs H; cbn [run_frames] in H.
  - injection H as <-. exact Hs.
  - destruct (Display lv keys (Fin q) w) as [w1|h] eqn:E; cbn [res_bind] in H; [|discriminate].
    exact (IH w1 (Display_shoot_false _ _ _ _ _ Hs E) H).
Qed.

(** One frame of a falling bullet: caught when it is in the band, and
    otherwise, if still in flight, one Euler step lower. *)
Lemma Display_fall_step (lv : Level) (keys : Keys) (q y v : Q) (w w' : World) :
  g_legoPlane lv = plane_box -> FPS w <> 0%Z -> my_shoot w = true ->
  falling (my_bullet w) y v -> Display lv keys (Fin q) w = Ok w' ->
  (-0.3 < y < 0.3 -> my_shoot w' = false) /\
  (my_shoot w' = true -> falling (my_bullet w') (y + v * q) v /\ FPS w' = FPS w).
Proof.
  intros Hpl HF Hs Hf H. rewrite Display_running in H by exact HF.
  apply res_bind_Ok_inv in H as (w0 & H & E). injection E as <-.
  destruct (display_sim_Ok _ _ _ _ _ H)
    as (s3 & l1 & s4 & es & w1 & w2 & H3 & El & _ & Hm & -> & _ & _ & _ & Hs4 & _ & HF1 & Hs3 & Hb1 & _).
  destruct (move_player_set_pos _ _ _ _ Hm) as (px & pz & ->). cbn [my_shoot my_bullet FPS set_pos set_camera set_view].
  rewrite Hs4, Hb1, HF1. pose proof (enemy_loop_consumes _ _ _ _ _ _ _ _ _ _ _ El) as C.
  split.
  - intros Hy. rewrite Hpl, (plane_hits _ _ _ Hf Hy) in Hs3.
    assert (E3 : s3 = false) by (rewrite Hs3; repeat match goal with
      |- context [if ?c then _ else _] => destruct c end; reflexivity).
    rewrite E3 in C. destruct s4; simpl in C; [lia | reflexivity].
  - intros ->. split; [|reflexivity].
    destruct Hf as (x & z & Ex & Ez & Hx & Hz & Ey & Er & Evx & Evz & Evy).
    exists (x + 0 * q), (z + 0 * q).
    unfold ballUpdate, setCenter; cbn [center_x center_y center_z m_radius m_velocity_x
                                        m_velocity_y m_velocity_z].
    rewrite Ex, Ez, Ey, Evx, Evz, Evy. cbn [fadd fmul].
    repeat split; try reflexivity; try assumption;
      [apply Qle_trans with (Qabs x) | apply Qle_trans with (Qabs z)];
      try assumption; apply Qle_lteq; right; apply Qabs_wd; ring.
Qed.

(** While the bullet stays in flight over [n] frames, it started at least
    [0.3 + (n - 1)] steps above the floor. *)
Lemma fall_run (lv : Level) (fs : list (Keys * Q)) (v d : Q) :
  g_legoPlane lv = plane_box -> v < 0 -> 0 <= d ->
  (forall keys q, In (keys, q) fs -> d <= q /\ - v * q <= 0.55) ->
  forall w w' y, FPS w <> 0%Z -> my_shoot w = true -> falling (my_bullet w) y v -> -0.3 < y ->
  run_frames lv fs w = Ok w' -> my_shoot w' = true -> fs <> [] ->
  0.3 + inject_Z (Z.of_nat (List.length fs) - 1) * (- v * d) <= y.
Proof.
  intros Hpl Hv Hd Hfs. induction fs as [|[keys q] fs IH]; intros w w' y HF Hs Hf Hy H Hs' Hne;
    [contradiction|].
  cbn [run_frames] in H.
  destruct (Display lv keys (Fin q) w) as [w1|h] eqn:E; cbn [res_bind] in H; [|discriminate].
  destruct (Hfs keys q (or_introl eq_refl)) as [Hq Hstep].
  destruct (Display_fall_step _ _ _ _ _ _ _ Hpl HF Hs Hf E) as [Hcatch Hnext].
  destruct (my_shoot w1) eqn:Hs1;
    [|rewrite (run_shoot_false _ _ _ _ Hs1 H) in Hs'; discriminate].
  assert (Hy3 : 0.3 <= y).
  { destruct (Qlt_le_dec y 0.3) as [Hlt|]; [|assumption].
    discriminate (Hcatch (conj Hy Hlt)). }
  destruct (Hnext eq_refl) as [Hf1 HF1].
  cbn [List.length]. rewrite Nat2Z.inj_succ.
  destruct fs as [|f fs'].
  - simpl. qlra.
  - assert (IHy := IH (fun k q' Hin => Hfs k q' (or_intror Hin)) w1 w' (y + v * q)
                     ltac:(congruence) Hs1 Hf1 ltac:(nra) H Hs' ltac:(discriminate)).
    set (n := Z.of_nat (List.length (f :: fs'))) in *.
    replace (Z.succ n - 1)%Z with n by lia. rewrite inject_Z_sub in IHy.
    change (inject_Z 1) with 1 in IHy.
    assert (v * q <= v * d) by nra. nra.
Qed.

(** C27. A bullet that falls slowly enough is caught by the floor.  On
    the level's floor, take a player's bullet in flight, falling straight
    down over the floor, at least 0.3 above its bottom.  If every frame
    takes at least [d] and moves it at most 0.55, it is absorbed:
    [my_shoot] is false after any [n] completed frames with
    [y < 0.3 + (n - 1) * |v| * d].  At 60 frames per second the
    condition holds for [|v| <= 33]; the player's bullet flies at 400, so
    a shot aimed steeply at the floor can pass through it, like the
    walls. *)
Theorem floor_absorbs (lv : Level) (fs : list (Keys * Q)) (v d y : Q) (w w' : World) :
  g_legoPlane lv = plane_box -> v < 0 -> 0 <= d ->
  (forall keys q, In (keys, q) fs -> d <= q /\ - v * q <= 0.55) ->
  FPS w <> 0%Z -> my_shoot w = true -> falling (my_bullet w) y v -> -0.3 < y ->
  fs <> [] -> y < 0.3 + inject_Z (Z.of_nat (List.length fs) - 1) * (- v * d) ->
  run_frames lv fs w = Ok w' -> my_shoot w' = false.
Proof.
  intros Hpl Hv Hd Hfs HF Hs Hf Hy Hne Hn H.
  destruct (my_shoot w') eqn:E; [exfalso|reflexivity].
  pose proof (fall_run lv fs v d Hpl Hv Hd Hfs w w' y HF Hs Hf Hy H E Hne). lra.
Qed.

(** ** Scenarios *)

(** The player clicks, aiming east along row 26, and walks for eight
    frames: the bullet's position is tested at [x = 24.17] and next at
    [x = 30.83], past the east wall ([28 <= x <= 30]) it never met. *)
Definition tunnel_scenario : res (Level * World) :=
  '(lv, w) <- opened ;;
  let w1 := WM_MOUSEMOVE rest_cos rest_sin MK_LBUTTON (269 * 65536 + 492) w in
  w2 <- walk_frames 8 lv (Fin (1 # 60)) w1 ;;
  Ok (lv, w2).

Lemma tunnel_scenario_state :
  match tunnel_scenario with
  | Ok (lv, w) => level_east_b lv && forallb enemy_east_b (g_enemy w) && my_shoot w &&
                  escaped_b (my_bullet w) = true
  | Halt _ => False
  end.
Proof. vm_compute. reflexivity. Qed.

(** ** Witnesses *)

Lemma reachable_inv_witness :
  match Setup map with Ok (lv, w) => world_inv w | Halt _ => False end.
Proof.
  destruct (Setup map) as [[lv w]|h] eqn:E; [|vm_eval_in E; discriminate].
  exact (reachable_inv lv w (reach_setup lv w E)).
Defined.

Lemma escaped_bullet_lost_witness :
  match tunnel_scenario with
  | Ok (lv, w) => my_shoot w = true /\ escaped (my_bullet w)
  | Halt _ => False
  end.
Proof.
  pose proof tunnel_scenario_state as S. destruct tunnel_scenario as [[lv w]|h]; [|contradiction].
  rewrite !andb_true_iff in S. destruct S as (((Hl & He) & Hs) & Hb).
  exact (escaped_bullet_lost lv w w Hl He Hs (escaped_b_spec _ Hb) (follows_refl lv w)).
Defined.

(** The player's bullet dropped from the height 2 at speed 30, straight
    down from the player's position. *)
Definition drop_bullet (w : World) : World :=
  set_bullet w (setPowerY (Fin 0) (Fin (-30)) (Fin 0)
                  (setCenter (pos_x w) (Fin 2) (pos_z w) (my_bullet w))) true.

Definition drop_frames : list (Keys * Q) := List.repeat (keys_W, 1 # 60) 5.

Lemma drop_scenario_facts :
  match opened with
  | Ok (lv, w) =>
      f64_eqb (m_radius (my_bullet w)) M_RADIUS &&
      match run_frames lv drop_frames (drop_bullet w) with Ok _ => true | Halt _ => false end
  | Halt _ => false
  end = true.
Proof. vm_compute. reflexivity. Qed.

Lemma opened_plane : match opened with Ok (lv, _) => g_legoPlane lv = plane_box | Halt _ => False end.
Proof. vm_compute. reflexivity. Qed.

Lemma floor_absorbs_witness :
  match opened with
  | Ok (lv, w) =>
      match run_frames lv drop_frames (drop_bullet w) with
      | Ok w' => my_shoot w' = false
      | Halt _ => False
      end
  | Halt _ => False
  end.
Proof.
  pose proof opened_start as S. pose proof opened_plane as P. pose proof drop_scenario_facts as D.
  destruct opened as [[lv w]|h]; [|contradiction].
  destruct S as (_ & _ & HF & Ex & Ez). apply andb_true_iff in D as [Dr D].
  apply f64_eqb_eq in Dr.
  destruct (run_frames lv drop_frames (drop_bullet w)) as [w'|h] eqn:E; [|discriminate].
  apply (floor_absorbs lv drop_frames (-30) (1 # 60) 2 (drop_bullet w) w' P);
    [by_eval | by_eval | | cbn; rewrite HF; discriminate | reflexivity | | by_eval
    | discriminate | by_eval | exact E].
  - intros k q Hin. apply repeat_spec in Hin. injection Hin as _ ->. split; by_eval.
  - exists (-23), (-23). cbn. rewrite Ex, Ez, Dr. repeat split; by_eval.
Defined.

Lemma ms_run_winmain :
  match WinMain rest_cos rest_sin ms_run with Ok (Running _) => true | _ => false end = true.
Proof. vm_compute. reflexivity. Qed.

Lemma WinMain_reachable_witness :
  exists r, WinMain rest_cos rest_sin ms_run = Ok r /\
    exists lv, reachable lv (wnd_world (loop_state r)).
Proof.
  pose proof ms_run_winmain as F.
  destruct (WinMain rest_cos rest_sin ms_run) as [r|h] eqn:E; [|discriminate].
  exists r. split; [reflexivity|]. exact (WinMain_reachable rest_cos rest_sin ms_run r E).
Defined.

(** An enemy of [map] whose bullet is at [x = 31], flying east. *)
Definition lost_enemy : CEnemy :=
  let e := CEnemy_new 10 5 in
  with_bullet e (setPowerY BULLETSPEED (Fin 0) (Fin 0)
                   (setCenter (Fin 31) (Fin 1.5) (z_pos e) (bullet e))) true.

Lemma enemy_bullet_lost_witness :
  exists e', Update_run [(Fin (1 # 60), [plane_box], Fin 0, Fin 0); (Fin (1 # 60), [], Fin 20, Fin 3)]
                        3 lost_enemy = Ok (3%Z, e') /\ shoot e' = true /\ escaped (bullet e').
Proof.
  apply enemy_bullet_lost; [reflexivity | apply escaped_b_spec; vm_compute; reflexivity |].
  repeat constructor.
  - exists (1 # 60). split; [reflexivity | discriminate].
  - exists 0. split; [reflexivity | lra].
  - exists (1 # 60). split; [reflexivity | discriminate].
  - exists 20. split; [reflexivity | lra].
Defined.
