(* ===== verification/Scene.v ===== *)
(** * The scene: what is drawn is what is tested

    Every object is drawn by [draw], which places its mesh with the local
    transform [m_mLocal] (after [g_mWorld], the identity), while every
    collision test reads the object's centre.  [CSphere::setCenter] and
    [CWall::setPosition] write both.  This file shows that they never
    drift apart: in every world of a game on [map], each ball's and each
    box's local transform is the translation to its centre, so the mesh
    appears exactly where [hasIntersected], [player_hit], [goable] and
    [win] look for it. *)

From Stdlib Require Import QArith Lqa ZArith Lia List Bool String.
From S2P Require Import Prelude Double Matrix View Sphere Wall GridMap Enemy Light Frame Input Game.
Import ListNotations.

(** ** The invariant *)

Definition enemy_drawn (e : CEnemy) : Prop :=
  sphere_drawn_at (bullet e) /\ wall_drawn_at (body e) /\ wall_drawn_at (head e).

Definition world_drawn : World -> Prop := balls_inv sphere_drawn_at sphere_drawn_at enemy_drawn.

Definition level_drawn (lv : Level) : Prop :=
  Forall wall_drawn_at (g_legowalls lv) /\ wall_drawn_at (g_legoPlane lv) /\
  wall_drawn_at (g_legoCeiling lv) /\ wall_drawn_at (g_legoFlag lv) /\
  g_mWorld lv = D3DXMatrixIdentity.

(** The same, as a computation. *)
Definition sphere_drawn_b (s : CSphere) : bool :=
  mat_eqb (m_mLocal s) (D3DXMatrixTranslation (center_x s) (center_y s) (center_z s)).
Definition wall_drawn_b (w : CWall) : bool :=
  mat_eqb (w_mLocal w) (D3DXMatrixTranslation (m_x w) (m_y w) (m_z w)).
Definition enemy_drawn_b (e : CEnemy) : bool :=
  sphere_drawn_b (bullet e) && wall_drawn_b (body e) && wall_drawn_b (head e).
Definition scene_drawn_b (lv : Level) (w : World) : bool :=
  forallb wall_drawn_b (g_legowalls lv) && wall_drawn_b (g_legoPlane lv) &&
  wall_drawn_b (g_legoCeiling lv) && wall_drawn_b (g_legoFlag lv) &&
  mat_eqb (g_mWorld lv) D3DXMatrixIdentity &&
  sphere_drawn_b (my_bullet w) && sphere_drawn_b (aim_point w) &&
  forallb enemy_drawn_b (g_enemy w).

Lemma forallb_Forall {A} (f : A -> bool) (P : A -> Prop) (l : list A) :
  (forall x, f x = true -> P x) -> forallb f l = true -> Forall P l.
Proof.
  intros HP H. apply Forall_forall. intros x Hx. apply HP.
  exact (proj1 (forallb_forall f l) H x Hx).
Qed.

Lemma enemy_drawn_b_spec (e : CEnemy) : enemy_drawn_b e = true -> enemy_drawn e.
Proof.
  unfold enemy_drawn_b, sphere_drawn_b, wall_drawn_b. rewrite !andb_true_iff, !mat_eqb_eq.
  intros ((H1 & H2) & H3). repeat split; assumption.
Qed.

Lemma scene_drawn_b_spec (lv : Level) (w : World) :
  scene_drawn_b lv w = true -> level_drawn lv /\ world_drawn w.
Proof.
  unfold scene_drawn_b, sphere_drawn_b. rewrite !andb_true_iff, !mat_eqb_eq.
  intros (((((((Hws & Hp) & Hc) & Hf) & Hm) & Hb) & Ha) & He).
  unfold wall_drawn_b in Hp, Hc, Hf. rewrite mat_eqb_eq in Hp, Hc, Hf.
  split; [split; [|repeat split; assumption]|split; [exact Hb | split; [exact Ha|]]].
  - apply (forallb_Forall wall_drawn_b); [|exact Hws]. intros x. apply mat_eqb_eq.
  - exact (forallb_Forall _ _ _ enemy_drawn_b_spec He).
Qed.

(** ** Each operation keeps it

    The section assumes what [setCenter] promises, that the ball is then
    drawn at its new centre, and what [Setup] establishes; the theorem
    below discharges both on the code. *)
Section Drawn.
Hypothesis setCenter_drawn_at : forall x y z s, sphere_drawn_at (setCenter x y z s).
Hypothesis Setup_drawn :
  match Setup map with Ok (lv, w) => scene_drawn_b lv w | Halt _ => false end = true.

Lemma ballUpdate_drawn_at (dt : f64) (s : CSphere) : sphere_drawn_at (ballUpdate dt s).
Proof. apply setCenter_drawn_at. Qed.

Lemma hit_drawn (e : CEnemy) : enemy_drawn e -> enemy_drawn (hit e).
Proof. intros (Hb & Hbo & Hh). repeat split; cbn [hit body head bullet]; auto with lego. Qed.

Lemma kill_drawn (e : CEnemy) : enemy_drawn e -> enemy_drawn (kill e).
Proof. exact (fun H => H). Qed.

Lemma Update_drawn dt ws px pz l e l1 e1 :
  Update dt ws px pz l e = Ok (l1, e1) -> enemy_drawn e -> enemy_drawn e1.
Proof.
  unfold Update. destruct (_ && _); [discriminate|]. intros H. injection H as _ <-.
  intros (_ & Hbo & Hh). split; [apply ballUpdate_drawn_at | split; assumption].
Qed.

Lemma enemy_step_drawn dt ws px pz b e e' :
  enemy_step dt ws px pz b e e' -> enemy_drawn e -> enemy_drawn e'.
Proof.
  intros [[_ ->]|[_ (l & l1 & e1 & EU & He)]] Hd; [exact Hd|].
  pose proof (Update_drawn _ _ _ _ _ _ _ _ EU Hd) as H1.
  destruct He as [->|[s ->]]; [exact H1|].
  destruct (hasHit_cases b s e1) as [[_ H]|[[_ H]|[_ H]]]; rewrite H; cbn [snd];
    [apply hit_drawn | apply kill_drawn, hit_drawn | ]; exact H1.
Qed.

Lemma Display_drawn (lv : Level) (keys : Keys) (dt : f64) (w w' : World) :
  world_drawn w -> Display lv keys dt w = Ok w' -> world_drawn w'.
Proof.
  apply Display_balls; [intros; apply ballUpdate_drawn_at | intros; apply setPowerY_drawn_at, setCenter_drawn_at
                       | intros; apply setCenter_drawn_at | exact enemy_step_drawn].
Qed.

Lemma WM_MOUSEMOVE_drawn (cos sin : f64 -> f64) (wParam lParam : Z) (w : World) :
  world_drawn w -> world_drawn (WM_MOUSEMOVE cos sin wParam lParam w).
Proof. apply WM_MOUSEMOVE_balls; intros; apply setPowerY_drawn_at, setCenter_drawn_at. Qed.

Lemma reachable_setup (lv : Level) (w : World) :
  reachable lv w -> exists w0, Setup map = Ok (lv, w0).
Proof. induction 1; eauto. Qed.

Lemma reachable_drawn_gen (lv : Level) (w : World) :
  reachable lv w -> level_drawn lv /\ world_drawn w.
Proof.
  intros R. destruct (reachable_setup _ _ R) as (w0 & E).
  pose proof Setup_drawn as S. rewrite E in S.
  destruct (scene_drawn_b_spec _ _ S) as [Hl Hw0]. split; [exact Hl|].
  clear S Hl. induction R as [lv w H|lv w w' keys dt R IH H|lv w cos sin wParam lParam R IH].
  - rewrite E in H. injection H as <-. exact Hw0.
  - exact (Display_drawn _ _ _ _ _ (IH E) H).
  - exact (WM_MOUSEMOVE_drawn _ _ _ _ _ (IH E)).
Qed.

End Drawn.

(** C33. In every world of a game on [map] the scene is drawn where it is
    simulated: the world matrix is the identity, and the local transform
    of every wall, the floor, the ceiling, the flag, the player's bullet,
    the aim marker and each enemy's bullet, body and head is the
    translation to the centre its collision tests read. *)
Theorem reachable_drawn (lv : Level) (w : World) :
  reachable lv w -> level_drawn lv /\ world_drawn w.
Proof.
  apply reachable_drawn_gen; [intros; reflexivity | vm_compute; reflexivity].
Qed.

(** What the invariant means for a ball with a finite centre: the mesh's
    origin is drawn at the centre. *)
Lemma sphere_drawn_origin (s : CSphere) (x y z : Q) :
  sphere_drawn_at s -> center_x s = Fin x -> center_y s = Fin y -> center_z s = Fin z ->
  vec_feq (D3DXVec3TransformCoord (vec3 f0 f0 f0) (m_mLocal s)) (vec3 (Fin x) (Fin y) (Fin z)).
Proof.
  unfold sphere_drawn_at. intros -> -> -> ->. apply TransformCoord_origin.
Qed.

Lemma reachable_drawn_witness :
  match Setup map with
  | Ok (lv, w) => level_drawn lv /\ world_drawn w
  | Halt _ => False
  end.
Proof.
  assert (S : match Setup map with Ok _ => true | Halt _ => false end = true)
    by (vm_compute; reflexivity).
  destruct (Setup map) as [[lv w]|h] eqn:E; [|discriminate S].
  exact (reachable_drawn lv w (reach_setup lv w E)).
Defined.
